(** * cacheddownloader: a shallow embedding of the downloader and the coordinator

    The development follows the Go sources:
    - [downloader.go]: [Download], [fetchToFile], [convertETagToChecksum];
    - the coordinator file ([New], [Fetch], [FetchAsDirectory],
      [fetchCachedFile], [fetchCachedDirectory], [populateCache],
      [acquireLimiter], [releaseLimiter], [tempFileRemoveOnClose]).

    Go strings are [string], byte slices are [list byte], [int64] and status
    codes are [Z].  The file system, the origin server and the cancel channel
    are explicit: the file system is a finite map from paths to nodes that is
    threaded through every call, and what the network and the cancel channel
    do during one attempt is read from an environment record. *)

From Stdlib Require Import ZArith Lia List Bool.
From Stdlib.Strings Require Import Ascii String Byte.
From stdpp Require Import base option strings gmap list pretty sorting.

Local Open Scope string_scope.
Local Open Scope Z_scope.

(** ** crypto/md5 and encoding/hex (Go standard library) *)

Module MD5.

(** Per-round left-rotation amounts. *)
Definition shifts : list Z :=
  [ 7; 12; 17; 22; 7; 12; 17; 22; 7; 12; 17; 22; 7; 12; 17; 22;
    5;  9; 14; 20; 5;  9; 14; 20; 5;  9; 14; 20; 5;  9; 14; 20;
    4; 11; 16; 23; 4; 11; 16; 23; 4; 11; 16; 23; 4; 11; 16; 23;
    6; 10; 15; 21; 6; 10; 15; 21; 6; 10; 15; 21; 6; 10; 15; 21 ].

(** The sine table: [floor (2^32 * abs (sin (i + 1)))]. *)
Definition sines : list Z :=
  [ 0xd76aa478; 0xe8c7b756; 0x242070db; 0xc1bdceee;
    0xf57c0faf; 0x4787c62a; 0xa8304613; 0xfd469501;
    0x698098d8; 0x8b44f7af; 0xffff5bb1; 0x895cd7be;
    0x6b901122; 0xfd987193; 0xa679438e; 0x49b40821;
    0xf61e2562; 0xc040b340; 0x265e5a51; 0xe9b6c7aa;
    0xd62f105d; 0x02441453; 0xd8a1e681; 0xe7d3fbc8;
    0x21e1cde6; 0xc33707d6; 0xf4d50d87; 0x455a14ed;
    0xa9e3e905; 0xfcefa3f8; 0x676f02d9; 0x8d2a4c8a;
    0xfffa3942; 0x8771f681; 0x6d9d6122; 0xfde5380c;
    0xa4beea44; 0x4bdecfa9; 0xf6bb4b60; 0xbebfbc70;
    0x289b7ec6; 0xeaa127fa; 0xd4ef3085; 0x04881d05;
    0xd9d4d039; 0xe6db99e5; 0x1fa27cf8; 0xc4ac5665;
    0xf4292244; 0x432aff97; 0xab9423a7; 0xfc93a039;
    0x655b59c3; 0x8f0ccc92; 0xffeff47d; 0x85845dd1;
    0x6fa87e4f; 0xfe2ce6e0; 0xa3014314; 0x4e0811a1;
    0xf7537e82; 0xbd3af235; 0x2ad7d2bb; 0xeb86d391 ].

Definition wrap32 (x : Z) : Z := x mod 2 ^ 32.
Definition add32 (x y : Z) : Z := wrap32 (x + y).
Definition not32 (x : Z) : Z := Z.lxor x 0xffffffff.
Definition rotl32 (x c : Z) : Z :=
  Z.lor (wrap32 (Z.shiftl x c)) (Z.shiftr x (32 - c)).

Definition byteZ (b : byte) : Z := Z.of_N (Byte.to_N b).
Definition Zbyte (z : Z) : byte :=
  match Byte.of_N (Z.to_N (z mod 256)) with
  | Some b => b
  | None => x00
  end.

(** Little-endian encoding of the low [n] bytes of [z]. *)
Fixpoint le_bytes (n : nat) (z : Z) : list byte :=
  match n with
  | O => []
  | S n' => Zbyte z :: le_bytes n' (Z.shiftr z 8)
  end.

Fixpoint le_word (bs : list byte) : Z :=
  match bs with
  | [] => 0
  | b :: bs' => byteZ b + 256 * le_word bs'
  end.

(** Message padding: a one bit, zeros up to 56 mod 64, the bit length. *)
Definition pad (msg : list byte) : list byte :=
  let len := Z.of_nat (length msg) in
  let zeros := Z.to_nat ((55 - len) mod 64) in
  msg ++ x80 :: repeat x00 zeros ++ le_bytes 8 ((8 * len) mod 2 ^ 64).

Fixpoint words (n : nat) (bs : list byte) : list Z :=
  match n with
  | O => []
  | S n' => le_word (take 4 bs) :: words n' (drop 4 bs)
  end.

Fixpoint chunks (n : nat) (bs : list byte) : list (list Z) :=
  match n with
  | O => []
  | S n' => words 16 (take 64 bs) :: chunks n' (drop 64 bs)
  end.

Record state := { sa : Z; sb : Z; sc : Z; sd : Z }.

Definition init : state :=
  {| sa := 0x67452301; sb := 0xefcdab89; sc := 0x98badcfe; sd := 0x10325476 |}.

Definition step (m : list Z) (st : state) (i : nat) : state :=
  let '(Build_state a b c d) := st in
  let iz := Z.of_nat i in
  let '(f, g) :=
    if (i <? 16)%nat then (Z.lor (Z.land b c) (Z.land (not32 b) d), iz)
    else if (i <? 32)%nat then (Z.lor (Z.land d b) (Z.land (not32 d) c), (5 * iz + 1) mod 16)
    else if (i <? 48)%nat then (Z.lxor (Z.lxor b c) d, (3 * iz + 5) mod 16)
    else (Z.lxor c (Z.lor b (not32 d)), (7 * iz) mod 16) in
  let f' := add32 (add32 (add32 f a) (nth i sines 0)) (nth (Z.to_nat g) m 0) in
  {| sa := d; sb := add32 b (rotl32 f' (nth i shifts 0)); sc := b; sd := c |}.

Definition block (st : state) (m : list Z) : state :=
  let r := fold_left (step m) (seq 0 64) st in
  {| sa := add32 (sa st) (sa r); sb := add32 (sb st) (sb r);
     sc := add32 (sc st) (sc r); sd := add32 (sd st) (sd r) |}.

(** [md5.Sum]: the 16-byte digest. *)
Definition Sum (msg : list byte) : list byte :=
  let p := pad msg in
  let st := fold_left block (chunks (length p / 64) p) init in
  le_bytes 4 (sa st) ++ le_bytes 4 (sb st) ++ le_bytes 4 (sc st) ++ le_bytes 4 (sd st).

End MD5.

Module Hex.

Definition digit (n : Z) : ascii :=
  ascii_of_N (Z.to_N (if n <? 10 then 48 + n else 87 + n)).

(** [fmt.Sprintf("%x", bytes)]: two lowercase digits per byte. *)
Fixpoint EncodeToString (bs : list byte) : string :=
  match bs with
  | [] => ""
  | b :: bs' =>
      let z := MD5.byteZ b in
      String (digit (z / 16)) (String (digit (z mod 16)) (EncodeToString bs'))
  end.

(** [fromHexChar]: digits and letters a-f in either case. *)
Definition fromHexChar (c : ascii) : option Z :=
  let n := Z.of_N (N_of_ascii c) in
  if (48 <=? n) && (n <=? 57) then Some (n - 48)
  else if (97 <=? n) && (n <=? 102) then Some (n - 97 + 10)
  else if (65 <=? n) && (n <=? 70) then Some (n - 65 + 10)
  else None.

(** [hex.DecodeString]: [None] stands for the error results
    ([ErrLength], [InvalidByteError]). *)
Fixpoint DecodeString (s : string) : option (list byte) :=
  match s with
  | "" => Some []
  | String _ "" => None
  | String hi (String lo rest) =>
      match fromHexChar hi, fromHexChar lo, DecodeString rest with
      | Some h, Some l, Some bs => Some (MD5.Zbyte (16 * h + l) :: bs)
      | _, _, _ => None
      end
  end.

End Hex.

(** ** Errors and results *)

(** The error values of the package.  [StatusCodeError] and
    [ChecksumMismatchError] stand for the two [fmt.Errorf] values of
    [fetchToFile]; [OtherError] is an error of net/http, os or io that the
    package passes through. *)
Inductive error :=
| DownloadCancelledError (source : string) (duration : Z) (written : Z)
| StatusCodeError (code : Z)
| ChecksumMismatchError
| NotEnoughSpace
| NotCacheable
| EntryNotFound
| OtherError (msg : string).

(** [NoBytesReceived], the [written] field of a cancellation that copied nothing. *)
Definition NoBytesReceived : Z := -1.

(** The type assertion [err.( *DownloadCancelledError )]. *)
Definition isDownloadCancelled (e : error) : bool :=
  match e with
  | DownloadCancelledError _ _ _ => true
  | _ => false
  end.

Definition isNotEnoughSpace (e : option error) : bool :=
  match e with
  | Some NotEnoughSpace => true
  | _ => false
  end.

Inductive result (A : Type) :=
| Ok (a : A)
| Err (e : error).
Arguments Ok {A} a.
Arguments Err {A} e.

(** ** CachingInfoType *)

Record CachingInfoType := { ETag : string; LastModified : string }.

Definition noCachingInfo : CachingInfoType := {| ETag := ""; LastModified := "" |}.

Definition nonEmpty (s : string) : bool := negb (String.eqb s "").

Definition isCacheable (c : CachingInfoType) : bool :=
  nonEmpty (ETag c) || nonEmpty (LastModified c).

Definition Equal (c other : CachingInfoType) : bool :=
  String.eqb (ETag c) (ETag other) && String.eqb (LastModified c) (LastModified other).

(** ** The file system

    A node is a regular file with its bytes, or a directory, and the file
    system maps the resolved name of every node to it.  The root and the
    working directory always exist and have no entry of their own; there are
    no symbolic links.  A path that the caller of the package gives (the
    cached and the uncached directory) is any string: the functions that
    take such a path resolve it with [Clean], as the operating system
    resolves doubled separators, single-dot elements and a separator at the
    end.  The resolution is the lexical one of [filepath.Clean]; for a
    double-dot element it is the one of the operating system when the
    directory that the element leaves exists.  A resolved name starts at the
    root or at the working directory; the model does not say where the
    working directory lies and keeps the names of the two kinds apart.  A
    file that the program created is addressed by the name under which it
    was created. *)

Inductive Node :=
| File (content : list byte)
| Dir.

Abbreviation FS := (gmap string Node).

(** The elements of a path: the strings between its separators. *)
Fixpoint elements_from (seen rest : string) : list string :=
  match rest with
  | "" => [seen]
  | String c rest' =>
      if Ascii.eqb c "/" then seen :: elements_from "" rest'
      else elements_from (seen +:+ String c "") rest'
  end.

Definition elements (p : string) : list string := elements_from "" p.

Definition rooted (p : string) : bool :=
  match p with
  | String c _ => Ascii.eqb c "/"
  | "" => false
  end.

(** The elements that [filepath.Clean] keeps; [stack] holds the ones kept
    so far, the last one first. *)
Fixpoint cleaned (root : bool) (stack els : list string) : list string :=
  match els with
  | [] => rev stack
  | e :: els' =>
      if String.eqb e "" || String.eqb e "." then cleaned root stack els'
      else if String.eqb e ".." then
        match stack with
        | top :: stack' =>
            if String.eqb top ".." then cleaned root (e :: stack) els'
            else cleaned root stack' els'
        | [] => if root then cleaned root [] els' else cleaned root [e] els'
        end
      else cleaned root (e :: stack) els'
  end.

(** [filepath.Clean]: one separator between elements, no single-dot
    element, a double-dot element removed with the element before it (at the
    root: dropped), no separator at the end but for the root; the empty path
    becomes the single dot. *)
Definition Clean (p : string) : string :=
  let body := String.concat "/" (cleaned (rooted p) [] (elements p)) in
  if rooted p then "/" +:+ body
  else if String.eqb body "" then "." else body.

(** [filepath.Join dir name]: empty arguments are ignored and the result is
    cleaned. *)
Definition Join (dir name : string) : string :=
  if String.eqb dir "" then (if String.eqb name "" then "" else Clean name)
  else if String.eqb name "" then Clean dir
  else Clean (dir +:+ "/" +:+ name).

(** [k] lies strictly below the directory with the resolved name [p]; every
    rooted name lies below the root, every other name below the working
    directory. *)
Definition below (p k : string) : bool :=
  if String.eqb p "/" then rooted k && negb (String.eqb k "/")
  else if String.eqb p "."
  then negb (rooted k) && negb (String.eqb k ".") && negb (String.eqb k "")
  else String.prefix (p +:+ "/") k.

(** [k] is [p] or lies below it. *)
Definition within (p k : string) : bool := String.eqb k p || below p k.

Definition exists_ (p : string) (fs : FS) : bool :=
  match fs !! p with Some _ => true | None => false end.

(** The root and the working directory are directories without an entry. *)
Definition isDir (p : string) (fs : FS) : bool :=
  match fs !! p with
  | Some Dir => true
  | Some (File _) => false
  | None => String.eqb p "/" || String.eqb p "."
  end.

Definition isFile (p : string) (fs : FS) : bool :=
  match fs !! p with Some (File _) => true | _ => false end.

(** The entries below [p]. *)
Definition children (p : string) (fs : FS) : FS :=
  filter (λ kv, below p (fst kv) = true) fs.

(** The last element of the path is a single dot. *)
Definition endsWithDot (p : string) : bool :=
  String.eqb (default "" (last (elements p))) ".".

(** [os.RemoveAll]: removes what the path resolves to and everything below
    it; the empty path and a missing path are left alone without an error,
    and a path that ends in a single dot is refused (the error is all that
    happens). *)
Definition RemoveAll (p : string) (fs : FS) : FS :=
  if String.eqb p "" then fs
  else if endsWithDot p then fs
  else filter (λ kv, within (Clean p) (fst kv) = false) fs.

(** The proper ancestors of a resolved name, outermost first: the prefixes
    that end before a separator. *)
Fixpoint ancestors_from (seen rest : string) : list string :=
  match rest with
  | "" => []
  | String c rest' =>
      let here :=
        if Ascii.eqb c "/" then match seen with "" => [] | _ => [seen] end
        else [] in
      here ++ ancestors_from (seen +:+ String c "") rest'
  end.

Definition ancestors (p : string) : list string := ancestors_from "" p.

(** [os.MkdirAll]: nothing to do when the path resolves to a directory;
    otherwise it creates the directory and its missing ancestors.  It fails,
    changing nothing, when the path is empty or when what it resolves to, or
    one of the ancestors, is a regular file. *)
Definition MkdirAll (p : string) (fs : FS) : option error * FS :=
  if String.eqb p "" then (Some (OtherError "mkdir: no such file or directory"), fs)
  else
    let p := Clean p in
    if isDir p fs then (None, fs)
    else if existsb (λ q, isFile q fs) (ancestors p ++ [p])
    then (Some (OtherError "mkdir: not a directory"), fs)
    else (None, foldr (λ q acc, <[q := Dir]> acc) fs (ancestors p ++ [p])).

(** [os.Remove]: removes a file or an empty directory. *)
Definition Remove (p : string) (fs : FS) : option error * FS :=
  match fs !! p with
  | Some (File _) => (None, delete p fs)
  | Some Dir =>
      if decide (children p fs = ∅) then (None, delete p fs)
      else (Some (OtherError "remove: directory not empty"), fs)
  | None => (Some (OtherError "remove: no such file or directory"), fs)
  end.

(** [os.Stat(p)] followed by [Size()]. *)
Definition StatSize (p : string) (fs : FS) : result Z :=
  match fs !! p with
  | Some (File bs) => Ok (Z.of_nat (length bs))
  | Some Dir => Ok 0
  | None => Err (OtherError "stat: no such file or directory")
  end.

(** Writing through an open file replaces the bytes of the file of that name. *)
Definition writeFile (p : string) (bs : list byte) (fs : FS) : FS :=
  match fs !! p with
  | Some (File _) => <[p := File bs]> fs
  | _ => fs
  end.

(** The operating system as the package's file operations see it: the file
    system and the counter behind the random suffixes of [ioutil.TempFile]. *)
Record OS := { fs : FS; tmp : nat }.

Definition withFS (f : FS → FS) (os : OS) : OS := {| fs := f (fs os); tmp := tmp os |}.

(** The world of a call of the downloader or of the coordinator: the
    operating system and the history of the calls to [fetchToFile] and of the
    requests sent to the origin.  File operations, transformers and the cache
    act on the [OS] alone, so only [fetchToFile] extends the history. *)
Record Request := { req_url : string; req_header : list (string * string) }.

Inductive Event :=
| EvAttempt (url : string)
| EvGet (req : Request).

Record World := { os : OS; history : list Event }.

Definition setOS (o : OS) (w : World) : World := {| os := o; history := history w |}.

(** Running a file operation in a world. *)
Definition inOS {A : Type} (f : OS → A * OS) (w : World) : A * World :=
  let '(a, o) := f (os w) in (a, setOS o w).

Definition record (e : Event) (w : World) : World :=
  {| os := os w; history := history w ++ [e] |}.

Definition isAttempt (e : Event) : bool :=
  match e with EvAttempt _ => true | EvGet _ => false end.

(** The number of [fetchToFile] calls in a history. *)
Definition attempts (w : World) : nat := length (filter (λ e, isAttempt e = true) (history w)).

(** [ioutil.TempFile dir prefix], for a prefix without separator: the name
    is [filepath.Join dir (prefix<n>)] for the first suffix from the counter
    on that is free (the file is opened with O_EXCL), trying at most 10000
    names; the empty [dir] stands for [os.TempDir ()]; it fails when [dir]
    does not resolve to a directory. *)
Definition tempTries : nat := Z.to_nat 10000.

(** [os.TempDir ()] when the environment does not set another one. *)
Definition TempDir : string := "/tmp".

Fixpoint freeSuffix (tries : nat) (name : nat → string) (n : nat) (fs : FS) : option nat :=
  match tries with
  | O => None
  | S tries' =>
      if exists_ (name n) fs then freeSuffix tries' name (S n) fs
      else Some n
  end.

Definition TempFile (dir pfx : string) (os : OS) : result string * OS :=
  let dir := if String.eqb dir "" then TempDir else dir in
  if negb (isDir (Clean dir) (fs os))
  then (Err (OtherError "open: no such file or directory"), os)
  else
    match freeSuffix tempTries (λ n, Join dir (pfx +:+ pretty n)) (tmp os) (fs os) with
    | None => (Err (OtherError "open: file exists"), os)
    | Some n =>
        let name := Join dir (pfx +:+ pretty n) in
        (Ok name, {| fs := <[name := File []]> (fs os); tmp := S n |})
    end.

(** ** The origin and the cancel channel

    What the world outside the process does during one call of
    [fetchToFile]: whether [http.NewRequest] accepts the URL, what
    [client.Do] returns for the request, whether the seek and the truncation
    of the destination succeed, and whether the cancel channel is ready (with
    the time elapsed) when the code polls it after a failure. *)

Record Response := {
  StatusCode : Z;
  Header : list (string * string);
  Body : list byte;            (* the bytes [io.Copy] writes before it returns *)
  BodyErr : option error       (* the error [io.Copy] returns, if any *)
}.

Record Attempt := {
  at_NewRequest : option error;
  at_Do : Request → result Response;
  at_Seek : option error;
  at_Truncate : option error;
  at_cancelled : bool;
  at_elapsed : Z
}.

(** The environment of one [Fetch] or [FetchAsDirectory], which calls
    [Download] once: whether the select on the concurrency barrier takes the
    case of the cancel channel (it can when the channel is ready, and must
    when the barrier has no room), the attempts by number, whether the cancel
    channel fires while the call waits for the limiter of its key, and the
    result of closing the temporary file that [populateCache] creates for the
    transformer. *)
Record Env := {
  env_barrierCancelled : bool;
  env_barrierElapsed : Z;
  env_attempt : nat → Attempt;
  env_gateCancelled : bool;
  env_gateElapsed : Z;
  env_closeErr : option error
}.

(** [Header.Get]: the first value of the key, or the empty string. *)
Fixpoint Header_Get (h : list (string * string)) (key : string) : string :=
  match h with
  | [] => ""
  | (k, v) :: h' => if String.eqb k key then v else Header_Get h' key
  end.

Definition StatusNotModified : Z := 304.
Definition StatusOK : Z := 200.

(** ** downloader.go *)

Definition MAX_DOWNLOAD_ATTEMPTS : nat := 3.

Definition quote : ascii := ascii_of_N 34.

(** [strings.TrimLeft s cutset] for the one-character cutset. *)
Fixpoint TrimLeft (s : string) (c : ascii) : string :=
  match s with
  | String a s' => if Ascii.eqb a c then TrimLeft s' c else s
  | "" => ""
  end.

(** [strings.TrimRight s cutset] for the one-character cutset. *)
Fixpoint TrimRight (s : string) (c : ascii) : string :=
  match s with
  | String a s' =>
      match TrimRight s' c with
      | "" => if Ascii.eqb a c then "" else String a ""
      | t => String a t
      end
  | "" => ""
  end.

Definition Trim (s : string) (c : ascii) : string := TrimRight (TrimLeft s c) c.

(** [convertETagToChecksum]: [Some c] for [(c, true)], [None] for [(nil, false)]. *)
Definition convertETagToChecksum (etag : string) : option (list byte) :=
  let etag := Trim etag quote in
  if negb (String.length etag =? 32)%nat then None
  else
    match Hex.DecodeString etag with
    | None => None
    | Some c => Some c
    end.

(** [bytes.Equal]. *)
#[local] Instance byte_eq_decision : EqDecision byte := byte_eq_dec.

Definition bytes_Equal (a b : list byte) : bool := bool_decide (a = b).

(** The three results of [fetchToFile] and [Download]. *)
Definition Fetched : Type := string * CachingInfoType * option error.

Definition failed (e : error) : Fetched := ("", noCachingInfo, Some e).

Definition fetchedPath (r : Fetched) : string := fst (fst r).
Definition fetchedInfo (r : Fetched) : CachingInfoType := snd (fst r).
Definition fetchedErr (r : Fetched) : option error := snd r.

Definition conditionalHeaders (cachingInfoIn : CachingInfoType) : list (string * string) :=
  (if nonEmpty (ETag cachingInfoIn) then [("If-None-Match", ETag cachingInfoIn)] else [])
  ++ (if nonEmpty (LastModified cachingInfoIn)
      then [("If-Modified-Since", LastModified cachingInfoIn)] else []).

(** The deferred function of [fetchToFile] on a return with [err != nil]:
    the destination is closed and removed. *)
Definition removeDestination (name : string) (w : World) : World :=
  setOS (withFS (λ f, snd (Remove name f)) (os w)) w.

(** What [io.Copy] leaves in the destination, which was truncated before. *)
Definition writeDestination (name : string) (bs : list byte) (w : World) : World :=
  setOS (withFS (writeFile name bs) (os w)) w.

Definition fetchToFile (at_ : Attempt) (url : string)
    (createDestination : OS → result string * OS)
    (cachingInfoIn : CachingInfoType) (w : World) : Fetched * World :=
  let w := record (EvAttempt url) w in
  match at_NewRequest at_ with
  | Some err => (failed err, w)
  | None =>
      let req := {| req_url := url; req_header := conditionalHeaders cachingInfoIn |} in
      let w := record (EvGet req) w in
      match at_Do at_ req with
      | Err err =>
          let err :=
            if at_cancelled at_
            then DownloadCancelledError "fetch-request" (at_elapsed at_) (-1)
            else err in
          (failed err, w)
      | Ok resp =>
          if StatusCode resp =? StatusNotModified then (("", noCachingInfo, None), w)
          else if negb (StatusCode resp =? StatusOK)
          then (failed (StatusCodeError (StatusCode resp)), w)
          else
            match inOS createDestination w with
            | (Err err, w) => (failed err, w)
            | (Ok name, w) =>
                match at_Seek at_ with
                | Some err => (failed err, removeDestination name w)
                | None =>
                    match at_Truncate at_ with
                    | Some err => (failed err, removeDestination name w)
                    | None =>
                        let w := writeDestination name [] w in
                        let w := writeDestination name (Body resp) w in
                        let written := Z.of_nat (length (Body resp)) in
                        match BodyErr resp with
                        | Some err =>
                            let err :=
                              if at_cancelled at_
                              then DownloadCancelledError "copy-body" (at_elapsed at_) written
                              else err in
                            (failed err, removeDestination name w)
                        | None =>
                            let cachingInfoOut :=
                              {| ETag := Header_Get (Header resp) "ETag";
                                 LastModified := Header_Get (Header resp) "Last-Modified" |} in
                            match convertETagToChecksum (ETag cachingInfoOut) with
                            | Some etagChecksum =>
                                if negb (bytes_Equal etagChecksum (MD5.Sum (Body resp)))
                                then (failed ChecksumMismatchError, removeDestination name w)
                                else ((name, cachingInfoOut, None), w)
                            | None => ((name, cachingInfoOut, None), w)
                            end
                        end
                    end
                end
            end
      end
  end.

(** The loop of [Download]: [left] iterations remain, [attempt] is the loop
    variable, [last] holds the named results as the previous iteration left
    them. *)
Fixpoint downloadLoop (left attempt : nat) (env : Env) (url : string)
    (createDestination : OS → result string * OS)
    (cachingInfoIn : CachingInfoType) (last : Fetched) (w : World) : Fetched * World :=
  match left with
  | O => (last, w)
  | S left' =>
      let '(r, w) := fetchToFile (env_attempt env attempt) url createDestination cachingInfoIn w in
      match fetchedErr r with
      | None => (r, w)
      | Some err =>
          if isDownloadCancelled err then (r, w)
          else downloadLoop left' (S attempt) env url createDestination cachingInfoIn r w
      end
  end.

(** The struct [Downloader]: the settings of its client and the barrier,
    a channel of the capacity [maxConcurrentDownloads]; [d_barrier] is the
    number of elements in the channel, one for every other call of
    [Download] that is past the barrier.  A call is taken by itself: the
    other calls stay where they are while it runs (their interplay is the
    subject of the module [Barrier]). *)
Record Downloader := {
  d_timeout : Z;
  d_maxConcurrentDownloads : Z;
  d_skipSSLVerification : bool;
  d_barrier : nat
}.

(** [NewDownloader]: the barrier is made empty. *)
Definition NewDownloader (timeout maxConcurrentDownloads : Z) (skipSSLVerification : bool) : Downloader :=
  {| d_timeout := timeout;
     d_maxConcurrentDownloads := maxConcurrentDownloads;
     d_skipSSLVerification := skipSSLVerification;
     d_barrier := 0 |}.

(** The send on the barrier can proceed: the channel is not full. *)
Definition hasRoom (downloader : Downloader) : bool :=
  Z.of_nat (d_barrier downloader) <? d_maxConcurrentDownloads downloader.

(** [Download]: [None] when the call does not return, because the barrier
    has no room and the cancel channel stays silent.  The deferred receive
    takes the element of the call out again, so the barrier is as before
    when the call returns. *)
Definition Download (downloader : Downloader) (env : Env) (url : string)
    (createDestination : OS → result string * OS)
    (cachingInfoIn : CachingInfoType) (w : World) : option (Fetched * World) :=
  if env_barrierCancelled env
  then Some (failed (DownloadCancelledError "download-barrier" (env_barrierElapsed env) (-1)), w)
  else if negb (hasRoom downloader) then None
  else
    let '(r, w) :=
      downloadLoop MAX_DOWNLOAD_ATTEMPTS 0 env url createDestination cachingInfoIn
        ("", noCachingInfo, None) w in
    match fetchedErr r with
    | Some err => Some (failed err, w)
    | None => Some (r, w)
    end.

(** ** The coordinator *)

(** [CacheTransformer]: a Go function from the two paths to the new size,
    free to change the file system. *)
Definition CacheTransformer : Type := string → string → OS → (Z * option error) * OS.

(** Modelled from the spec: [replace], the helper of [NoopTransform] that is
    not in the sources; the identity transformer "just moves the file", so it
    is a rename of a regular file over the destination. *)
Definition replace (source destination : string) (os : OS) : option error * OS :=
  match fs os !! source with
  | Some (File bs) =>
      (None, withFS (λ f, <[destination := File bs]> (delete source f)) os)
  | _ => (Some (OtherError "rename: no such file"), os)
  end.

Definition NoopTransform : CacheTransformer := λ source destination os,
  match replace source destination os with
  | (Some err, os) => ((0, Some err), os)
  | (None, os) =>
      match StatSize destination (fs os) with
      | Err err => ((0, Some err), os)
      | Ok size => ((size, None), os)
      end
  end.

(** A [*CachedFile]: the name of the open file and what closing it does.
    The two callbacks handed to [NewFileCloser] are the removal of the file
    (in [tempFileRemoveOnClose]) and the release of a cache entry (inside the
    file cache). *)
Inductive CloseHook :=
| RemoveOnClose
| ReleaseOnClose (cacheKey : string).

Record CachedFile := { cf_name : string; cf_hook : CloseHook }.

(** The file cache ([*FileCache]), whose code is not among the sources: the
    coordinator is verified against its interface.  Every operation may read
    and change the index [C] and the file system. *)
Class FileCache (C : Type) := {
  NewCache : string → Z → C;
  cache_Get : string → C → OS → (option CachedFile * CachingInfoType * option error) * C * OS;
  cache_Add : string → string → Z → CachingInfoType → C → OS →
              (option CachedFile * option error) * C * OS;
  cache_Remove : string → C → OS → C * OS;
  cache_GetDirectory : string → C → OS → (string * CachingInfoType * option error) * C * OS;
  cache_AddDirectory : string → string → Z → CachingInfoType → C → OS →
                       (string * option error) * C * OS;
  cache_CloseDirectory : string → string → C → OS → option error * C * OS;
  (** the callback of a cached file, run with the cache key and the path *)
  cache_release : string → string → C → OS → C * OS
}.

(** The struct [cachedDownloader].  Channels are numbered in the order they
    are made; [closed] is the set of closed ones. *)
Record cachedDownloader (C : Type) := {
  downloader : Downloader;
  uncachedPath : string;
  cache : C;
  transformer : CacheTransformer;
  inProgress : gmap string nat;
  chans : nat;
  closed : gset nat
}.
Arguments downloader {C} c.
Arguments uncachedPath {C} c.
Arguments cache {C} c.
Arguments transformer {C} c.
Arguments inProgress {C} c.
Arguments chans {C} c.
Arguments closed {C} c.

(** The struct [download]; its fields [path], [size] and [cachingInfo]. *)
Record download := { dl_path : string; dl_size : Z; dl_cachingInfo : CachingInfoType }.

Definition noDownload : download := {| dl_path := ""; dl_size := 0; dl_cachingInfo := noCachingInfo |}.

(** The cache key under which an entry is stored: [fmt.Sprintf("%x", md5.Sum([]byte(cacheKey)))]. *)
Definition fingerprint (cacheKey : string) : string :=
  Hex.EncodeToString (MD5.Sum (list_byte_of_string cacheKey)).
Arguments fingerprint : simpl never.

(** How [acquireLimiter] ends when no other goroutine runs: with the new
    limiter, with an error, or never (the key has a limiter, which only its
    holder closes, and the cancel channel stays silent). *)
Inductive Acquired :=
| Granted (limiter : nat)
| Refused (err : error)
| Blocked.

Section Coordinator.

Context {C : Type} {FC : FileCache C}.
Variable TarTransform : CacheTransformer.

Definition withCache (c : cachedDownloader C) (cache' : C) : cachedDownloader C :=
  {| downloader := downloader c; uncachedPath := uncachedPath c; cache := cache';
     transformer := transformer c; inProgress := inProgress c;
     chans := chans c; closed := closed c |}.

Definition New (cachedPath uncachedPath : string) (maxSizeInBytes downloadTimeout : Z)
    (maxConcurrentDownloads : Z) (skipSSLVerification : bool)
    (transformer : CacheTransformer) (os : OS) : cachedDownloader C * OS :=
  let os := withFS (RemoveAll cachedPath) os in
  let os := withFS (λ f, snd (MkdirAll cachedPath f)) os in
  ({| downloader := NewDownloader downloadTimeout maxConcurrentDownloads skipSSLVerification;
      uncachedPath := uncachedPath;
      cache := NewCache cachedPath maxSizeInBytes;
      transformer := transformer;
      inProgress := ∅;
      chans := 0;
      closed := ∅ |}, os).

Definition acquireLimiter (env : Env) (cacheKey : string) (c : cachedDownloader C)
    : Acquired * cachedDownloader C :=
  match inProgress c !! cacheKey with
  | None =>
      let rateLimiter := chans c in
      (Granted rateLimiter,
       {| downloader := downloader c; uncachedPath := uncachedPath c; cache := cache c;
          transformer := transformer c;
          inProgress := <[cacheKey := rateLimiter]> (inProgress c);
          chans := S (chans c); closed := closed c |})
  | Some _ =>
      if env_gateCancelled env
      then (Refused (DownloadCancelledError "acquire-limiter" (env_gateElapsed env) NoBytesReceived), c)
      else (Blocked, c)
  end.

Definition releaseLimiter (cacheKey : string) (limiter : nat) (c : cachedDownloader C)
    : cachedDownloader C :=
  {| downloader := downloader c; uncachedPath := uncachedPath c; cache := cache c;
     transformer := transformer c;
     inProgress := delete cacheKey (inProgress c);
     chans := chans c; closed := {[limiter]} ∪ closed c |}.

(** [os.Open] succeeds on a path that exists. *)
Definition tempFileRemoveOnClose (path : string) (os : OS) : option CachedFile * option error :=
  if exists_ path (fs os)
  then (Some {| cf_name := path; cf_hook := RemoveOnClose |}, None)
  else (None, Some (OtherError "open: no such file or directory")).

(** Modelled from the spec: [CachedFile.Close], which is not in the
    sources; on close the handle invokes its hook with the path: the
    uncached hook deletes the file, the cached hook releases the entry. *)
Definition Close (f : CachedFile) (cache : C) (os : OS) : C * OS :=
  match cf_hook f with
  | RemoveOnClose => (cache, withFS (RemoveAll (cf_name f)) os)
  | ReleaseOnClose cacheKey => cache_release cacheKey (cf_name f) cache os
  end.

(** [if currentReader != nil { currentReader.Close() }] *)
Definition closeIfOpen (f : option CachedFile) (cache : C) (os : OS) : C * OS :=
  match f with
  | Some f => Close f cache os
  | None => (cache, os)
  end.

(** Running an operation on the cache and the files in a world. *)
Definition onCache (f : C → OS → C * OS) (c : cachedDownloader C) (w : World)
    : cachedDownloader C * World :=
  let '(cache', o) := f (cache c) (os w) in (withCache c cache', setOS o w).

Definition populateCache (env : Env) (url name : string) (cachingInfo : CachingInfoType)
    (transformer : CacheTransformer) (c : cachedDownloader C) (w : World)
    : option ((download * bool * Z * option error) * World) :=
  match Download (downloader c) env url (TempFile (uncachedPath c) (name +:+ "-"))
          cachingInfo w with
  | None => None
  | Some ((filename, cachingInfo, err), w) =>
      Some
        match err with
        | Some err => ((noDownload, false, 0, Some err), w)
        | None =>
            if String.eqb filename "" then ((noDownload, true, 0, None), w)
            else
              match StatSize filename (fs (os w)) with
              | Err err => ((noDownload, false, 0, Some err), w)
              | Ok fileSize =>
                  match inOS (TempFile (uncachedPath c) "transformed") w with
                  | (Err err, w) => ((noDownload, false, 0, Some err), w)
                  | (Ok cachedFile, w) =>
                      match env_closeErr env with
                      | Some err => ((noDownload, false, 0, Some err), w)
                      | None =>
                          let '((cachedSize, err), w) :=
                            inOS (transformer filename cachedFile) w in
                          match err with
                          | Some err =>
                              (* os.Remove(filename) *)
                              ((noDownload, false, 0, Some err), w)
                          | None =>
                              (({| dl_path := cachedFile; dl_size := cachedSize;
                                   dl_cachingInfo := cachingInfo |},
                                false, fileSize, None), w)
                          end
                      end
                  end
              end
        end
  end.

(** The results of [Fetch]: the stream, the size and the error. *)
Definition Stream : Type := option CachedFile * Z * option error.

Definition fetchUncachedFile (env : Env) (url : string) (transformer : CacheTransformer)
    (c : cachedDownloader C) (w : World) : option (Stream * cachedDownloader C * World) :=
  match populateCache env url "uncached" noCachingInfo transformer c w with
  | None => None
  | Some ((download, _, size, err), w) =>
      match err with
      | Some err => Some ((None, 0, Some err), c, w)
      | None =>
          let '(file, err) := tempFileRemoveOnClose (dl_path download) (os w) in
          Some ((file, size, err), c, w)
      end
  end.

Definition fetchCachedFile (env : Env) (url cacheKey : string)
    (c : cachedDownloader C) (w : World) : option (Stream * cachedDownloader C * World) :=
  match acquireLimiter env cacheKey c with
  | (Blocked, _) => None
  | (Refused err, c) => Some ((None, 0, Some err), c, w)
  | (Granted rateLimiter, c) =>
      (* defer c.releaseLimiter(cacheKey, rateLimiter) *)
      let returning (r : Stream) (c : cachedDownloader C) (w : World) :=
        Some (r, releaseLimiter cacheKey rateLimiter c, w) in
      (* lookup cache entry *)
      let '((currentReader, currentCachingInfo, getErr), cache', o) :=
        cache_Get cacheKey (cache c) (os w) in
      let c := withCache c cache' in
      let w := setOS o w in
      (* download (short circuits if endpoint respects etag/etc.) *)
      match populateCache env url cacheKey currentCachingInfo (transformer c) c w with
      | None => None
      | Some ((download, cacheIsWarm, size, err), w) =>
      match err with
      | Some err =>
          let '(c, w) := onCache (closeIfOpen currentReader) c w in
          returning (None, 0, Some err) c w
      | None =>
          (* nothing had to be downloaded; return the cached entry *)
          if cacheIsWarm then returning (currentReader, 0, getErr) c w
          else
            (* current cache is not fresh; disregard it *)
            let '(c, w) := onCache (closeIfOpen currentReader) c w in
            (* fetch uncached data *)
            if isCacheable (dl_cachingInfo download) then
              let '((newReader, err), cache', o) :=
                cache_Add cacheKey (dl_path download) (dl_size download)
                  (dl_cachingInfo download) (cache c) (os w) in
              let c := withCache c cache' in
              let w := setOS o w in
              if isNotEnoughSpace err then
                let '(file, err) := tempFileRemoveOnClose (dl_path download) (os w) in
                returning (file, size, err) c w
              else returning (newReader, size, err) c w
            else
              let '(cache', o) := cache_Remove cacheKey (cache c) (os w) in
              let c := withCache c cache' in
              let w := setOS o w in
              let '(newReader, err) := tempFileRemoveOnClose (dl_path download) (os w) in
              (* return newly fetched file *)
              returning (newReader, size, err) c w
      end
      end
  end.

Definition Fetch (env : Env) (url cacheKey : string)
    (c : cachedDownloader C) (w : World) : option (Stream * cachedDownloader C * World) :=
  if String.eqb cacheKey "" then fetchUncachedFile env url (transformer c) c w
  else fetchCachedFile env url (fingerprint cacheKey) c w.

(** [if currentDirectory != "" { c.cache.CloseDirectory(cacheKey, currentDirectory) }] *)
Definition closeDirectoryIfAny (cacheKey currentDirectory : string)
    (cache : C) (os : OS) : C * OS :=
  if nonEmpty currentDirectory then
    let '(_, cache', os) := cache_CloseDirectory cacheKey currentDirectory cache os in
    (cache', os)
  else (cache, os).

Definition fetchCachedDirectory (env : Env) (url cacheKey : string)
    (c : cachedDownloader C) (w : World)
    : option ((string * option error) * cachedDownloader C * World) :=
  match acquireLimiter env cacheKey c with
  | (Blocked, _) => None
  | (Refused err, c) => Some (("", Some err), c, w)
  | (Granted rateLimiter, c) =>
      (* defer c.releaseLimiter(cacheKey, rateLimiter) *)
      let returning (r : string * option error) (c : cachedDownloader C) (w : World) :=
        Some (r, releaseLimiter cacheKey rateLimiter c, w) in
      (* lookup cache entry *)
      let '((currentDirectory, currentCachingInfo, getErr), cache', o) :=
        cache_GetDirectory cacheKey (cache c) (os w) in
      let c := withCache c cache' in
      let w := setOS o w in
      if isNotEnoughSpace getErr then
        (* We had a cache hit but cannot expand it in the cache *)
        returning ("", getErr) c w
      else
        (* download (short circuits if endpoint respects etag/etc.) *)
        match populateCache env url cacheKey currentCachingInfo TarTransform c w with
        | None => None
        | Some ((download, cacheIsWarm, _, err), w) =>
        match err with
        | Some err =>
            let '(c, w) := onCache (closeDirectoryIfAny cacheKey currentDirectory) c w in
            returning ("", Some err) c w
        | None =>
            (* nothing had to be downloaded; return the cached entry *)
            if cacheIsWarm then returning (currentDirectory, getErr) c w
            else
              (* current cache is not fresh; disregard it *)
              let '(c, w) := onCache (closeDirectoryIfAny cacheKey currentDirectory) c w in
              (* fetch uncached data *)
              if isCacheable (dl_cachingInfo download) then
                let '((newDirectory, err), cache', o) :=
                  cache_AddDirectory cacheKey (dl_path download) (dl_size download)
                    (dl_cachingInfo download) (cache c) (os w) in
                let c := withCache c cache' in
                let w := setOS o w in
                if isNotEnoughSpace err then returning ("", err) c w
                else
                  (* return newly fetched file *)
                  returning (newDirectory, err) c w
              else
                let '(cache', o) := cache_Remove cacheKey (cache c) (os w) in
                let c := withCache c cache' in
                let w := setOS o w in
                returning ("", Some NotCacheable) c w
        end
        end
  end.

Definition FetchAsDirectory (env : Env) (url cacheKey : string)
    (c : cachedDownloader C) (w : World)
    : option ((string * option error) * cachedDownloader C * World) :=
  fetchCachedDirectory env url (fingerprint cacheKey) c w.

Definition CloseDirectory (cacheKey directoryPath : string)
    (c : cachedDownloader C) (os : OS) : option error * cachedDownloader C * OS :=
  let '(err, cache', os) :=
    cache_CloseDirectory (fingerprint cacheKey) directoryPath (cache c) os in
  (err, withCache c cache', os).

End Coordinator.

(** ** The file cache of the specification

    The code of [FileCache] is not among the sources.  This module follows
    the specification's description of the cache index (entries with size,
    validator, refcount and access time; a byte budget; eviction of the least
    recently used unpinned entries) and serves as the instance on which the
    theorems about the coordinator are exercised. *)

Module SpecCache.

(** Modelled from the spec: a cache entry, with [size], [validator],
    [refcount], [accessTime] and the generation suffix of its name on
    disk; the code of the cache is missing. *)
Record Entry := {
  e_size : Z;
  e_validator : CachingInfoType;
  e_refcount : nat;
  e_accessTime : nat;
  e_gen : nat
}.

(** Modelled from the spec: the cache index (the struct [FileCache] is
    missing).  [Superseded] holds the generations that were unlinked from
    the index while readers still held them, with their refcounts; [Seq]
    numbers generations and [Now] is the clock of the access times. *)
Record Index := {
  CachedPath : string;
  maxSizeInBytes : Z;
  Entries : gmap string Entry;
  Superseded : gmap string nat;
  Seq : nat;
  Now : nat
}.

Definition genPath (idx : Index) (fingerprint : string) (gen : nat) : string :=
  Join (CachedPath idx) (fingerprint +:+ "-" +:+ pretty gen).

Definition entryPath (idx : Index) (fingerprint : string) (e : Entry) : string :=
  genPath idx fingerprint (e_gen e).

Definition usedSpace (entries : gmap string Entry) : Z :=
  map_fold (λ _ e acc, e_size e + acc) 0 entries.

(** Modelled from the spec: "Victims are chosen in ascending order of
    accessTime from among entries with refcount == 0 ... Tie-breaks on equal
    accessTime are deterministic by fingerprint lexical order"; the
    eviction code is missing. *)
Definition before (a b : string * Entry) : bool :=
  (e_accessTime (snd a) <? e_accessTime (snd b))%nat
  || ((e_accessTime (snd a) =? e_accessTime (snd b))%nat && String.leb (fst a) (fst b)).

Definition Before (a b : string * Entry) : Prop := before a b = true.

#[local] Instance Before_dec : RelDecision Before.
Proof. intros a b. unfold Before. apply _. Defined.

Definition candidates (entries : gmap string Entry) : list (string * Entry) :=
  merge_sort Before
    (filter (λ kv, e_refcount (snd kv) = O) (map_to_list entries)).

(** The victims that free [need] bytes, oldest first; [None] when the
    unpinned entries cannot free that much. *)
Fixpoint victims (need : Z) (cands : list (string * Entry)) : option (list (string * Entry)) :=
  if need <=? 0 then Some []
  else
    match cands with
    | [] => None
    | kv :: cands' =>
        match victims (need - e_size (snd kv)) cands' with
        | Some vs => Some (kv :: vs)
        | None => None
        end
    end.

(** Moving a file or a directory with everything below it. *)
Definition Rename (src dst : string) (f : FS) : option error * FS :=
  match f !! src with
  | None => (Some (OtherError "rename: no such file or directory"), f)
  | Some _ =>
      let moved := map_to_list (filter (λ kv, within src (fst kv) = true) f) in
      let rest := filter (λ kv, within src (fst kv) = false ∧ within dst (fst kv) = false) f in
      let rebase (k : string) : string :=
        dst +:+ substring (String.length src) (String.length k - String.length src) k in
      (None, foldr (λ kv acc, <[rebase (fst kv) := snd kv]> acc) rest moved)
  end.

(** Unlinking an entry from the index: its generation is deleted from disk
    when nobody reads it and kept, marked for deletion on the last close,
    otherwise. *)
Definition unlink (fingerprint : string) (idx : Index) (os : OS) : Index * OS :=
  match Entries idx !! fingerprint with
  | None => (idx, os)
  | Some e =>
      let p := entryPath idx fingerprint e in
      let entries := delete fingerprint (Entries idx) in
      match e_refcount e with
      | O =>
          ({| CachedPath := CachedPath idx; maxSizeInBytes := maxSizeInBytes idx;
              Entries := entries; Superseded := Superseded idx;
              Seq := Seq idx; Now := Now idx |},
           withFS (RemoveAll p) os)
      | S _ =>
          ({| CachedPath := CachedPath idx; maxSizeInBytes := maxSizeInBytes idx;
              Entries := entries; Superseded := <[p := e_refcount e]> (Superseded idx);
              Seq := Seq idx; Now := Now idx |}, os)
      end
  end.

(** Modelled from the spec: [Get], whose code is missing.  "If a
    current-generation entry exists: bumps accessTime, increments refcount,
    opens the generation file, returns a FileCloser bound to it and the
    stored validator.  If not present: returns an empty handle, zero-value
    validator, and a sentinel EntryNotFound error." *)
Definition Get (fingerprint : string) (idx : Index) (os : OS)
    : (option CachedFile * CachingInfoType * option error) * Index * OS :=
  match Entries idx !! fingerprint with
  | None => ((None, noCachingInfo, Some EntryNotFound), idx, os)
  | Some e =>
      let p := entryPath idx fingerprint e in
      if exists_ p (fs os) then
        let e' := {| e_size := e_size e; e_validator := e_validator e;
                     e_refcount := S (e_refcount e); e_accessTime := Now idx;
                     e_gen := e_gen e |} in
        ((Some {| cf_name := p; cf_hook := ReleaseOnClose fingerprint |}, e_validator e, None),
         {| CachedPath := CachedPath idx; maxSizeInBytes := maxSizeInBytes idx;
            Entries := <[fingerprint := e']> (Entries idx); Superseded := Superseded idx;
            Seq := Seq idx; Now := S (Now idx) |}, os)
      else ((None, noCachingInfo, Some (OtherError "open: no such file or directory")), idx, os)
  end.

(** Modelled from the spec: [Add], whose code is missing.  "If adding size
    would exceed the budget, selects victims and removes them; if after
    eviction the budget still cannot fit size, returns NotEnoughSpace without
    modifying state.  Otherwise increments the entry's generation, renames
    sourcePath into the cache as <fingerprint>-<gen>, creates or replaces the
    index entry, sets refcount := 1, updates accessTime, and returns a
    FileCloser for the new file." *)
Definition Add (fingerprint sourcePath : string) (size : Z) (validator : CachingInfoType)
    (idx : Index) (os : OS) : (option CachedFile * option error) * Index * OS :=
  match victims (usedSpace (Entries idx) + size - maxSizeInBytes idx) (candidates (Entries idx)) with
  | None => ((None, Some NotEnoughSpace), idx, os)
  | Some vs =>
      let gen := S (Seq idx) in
      let p := genPath idx fingerprint gen in
      let '(idx', os') := foldr (λ kv st, unlink (fst kv) (fst st) (snd st)) (idx, os) vs in
      let '(idx', os') := unlink fingerprint idx' os' in
      match Rename sourcePath p (fs os') with
      | (Some err, _) => ((None, Some err), idx, os)
      | (None, f) =>
          let os := withFS (λ _, f) os' in
          let idx := idx' in
          let e := {| e_size := size; e_validator := validator; e_refcount := 1;
                      e_accessTime := Now idx; e_gen := gen |} in
          ((Some {| cf_name := p; cf_hook := ReleaseOnClose fingerprint |}, None),
           {| CachedPath := CachedPath idx; maxSizeInBytes := maxSizeInBytes idx;
              Entries := <[fingerprint := e]> (Entries idx); Superseded := Superseded idx;
              Seq := gen; Now := S (Now idx) |}, os)
      end
  end.

(** Modelled from the spec: [Remove], whose code is missing.  "Unlinks the
    entry from the index.  If refcount == 0, deletes the on-disk generation;
    otherwise marks the generation for deletion on last close.  Idempotent." *)
Definition Remove (fingerprint : string) (idx : Index) (os : OS) : Index * OS :=
  unlink fingerprint idx os.

(** Modelled from the spec: the release hook of a cached handle, whose code
    is missing.  "Decrement the entry's refcount; if the entry has been
    logically evicted and refcount reaches zero, delete the generation
    file." *)
Definition release (fingerprint p : string) (idx : Index) (os : OS) : Index * OS :=
  match Superseded idx !! p with
  | Some n =>
      match n with
      | S (S n') =>
          ({| CachedPath := CachedPath idx; maxSizeInBytes := maxSizeInBytes idx;
              Entries := Entries idx; Superseded := <[p := S n']> (Superseded idx);
              Seq := Seq idx; Now := Now idx |}, os)
      | _ =>
          ({| CachedPath := CachedPath idx; maxSizeInBytes := maxSizeInBytes idx;
              Entries := Entries idx; Superseded := delete p (Superseded idx);
              Seq := Seq idx; Now := Now idx |}, withFS (RemoveAll p) os)
      end
  | None =>
      match Entries idx !! fingerprint with
      | Some e =>
          if String.eqb (entryPath idx fingerprint e) p then
            let e' := {| e_size := e_size e; e_validator := e_validator e;
                         e_refcount := pred (e_refcount e); e_accessTime := e_accessTime e;
                         e_gen := e_gen e |} in
            ({| CachedPath := CachedPath idx; maxSizeInBytes := maxSizeInBytes idx;
                Entries := <[fingerprint := e']> (Entries idx); Superseded := Superseded idx;
                Seq := Seq idx; Now := Now idx |}, os)
          else (idx, os)
      | None => (idx, os)
      end
  end.

(** Modelled from the spec: [GetDirectory], [AddDirectory] and
    [CloseDirectory], whose code is missing.  "GetDirectory returns a
    dirPath and pins the directory (refcount++)"; "AddDirectory admits the
    expanded tree under the byte budget; same NotEnoughSpace contract";
    "CloseDirectory ... decrements the refcount". *)
Definition GetDirectory (fingerprint : string) (idx : Index) (os : OS)
    : (string * CachingInfoType * option error) * Index * OS :=
  let '((f, validator, err), idx, os) := Get fingerprint idx os in
  ((match f with Some f => cf_name f | None => "" end, validator, err), idx, os).

Definition AddDirectory (fingerprint sourcePath : string) (size : Z)
    (validator : CachingInfoType) (idx : Index) (os : OS)
    : (string * option error) * Index * OS :=
  let '((f, err), idx, os) := Add fingerprint sourcePath size validator idx os in
  ((match f with Some f => cf_name f | None => "" end, err), idx, os).

Definition CloseDirectory (fingerprint directoryPath : string) (idx : Index) (os : OS)
    : option error * Index * OS :=
  let '(idx, os) := release fingerprint directoryPath idx os in
  (None, idx, os).

(** [NewCache]: an empty index over the directory. *)
Definition emptyIndex (dir : string) (maxSize : Z) : Index :=
  {| CachedPath := dir; maxSizeInBytes := maxSize; Entries := ∅; Superseded := ∅;
     Seq := 0; Now := 0 |}.

#[global] Instance fileCache : FileCache Index := {
  NewCache := emptyIndex;
  cache_Get := Get;
  cache_Add := Add;
  cache_Remove := Remove;
  cache_GetDirectory := GetDirectory;
  cache_AddDirectory := AddDirectory;
  cache_CloseDirectory := CloseDirectory;
  cache_release := release
}.

End SpecCache.

(** ** The limiter under interleaving

    [acquireLimiter] and [releaseLimiter] as a transition system: goroutines
    that run [fetchCachedFile] or [fetchCachedDirectory] share the mutex
    [c.lock], the map [c.inProgress] and the channels; each goroutine is at
    one statement, and a step runs one statement of one goroutine.  The
    goroutines are the calls that carry a cache key, so that they reach
    [acquireLimiter]; the key of a goroutine is the fingerprint it passes. *)

Module Gate.

(** The statement a goroutine is at; [ch] is its local [rateLimiter]. *)
Inductive pc :=
| AtLock                       (* acquireLimiter: c.lock.Lock() *)
| AtRead                       (* rateLimiter := c.inProgress[cacheKey] *)
| AtInstall                    (* rateLimiter = make(...); c.inProgress[cacheKey] = rateLimiter *)
| AtUnlockReturn (ch : nat)    (* c.lock.Unlock(); return rateLimiter, nil *)
| AtUnlockWait (ch : nat)      (* c.lock.Unlock() before the select *)
| AtSelect (ch : nat)          (* select on rateLimiter and cancelChan *)
| AtGet (ch : nat)             (* the cache probe: c.cache.Get / GetDirectory *)
| AtDownload (ch : nat)        (* populateCache: the GET is in flight *)
| AtFinish (ch : nat)          (* after the download, up to the deferred c.lock.Lock() *)
| AtDelete (ch : nat)          (* releaseLimiter: delete(c.inProgress, cacheKey) *)
| AtClose (ch : nat)           (* close(limiter) *)
| AtRelUnlock                  (* c.lock.Unlock() *)
| Returned.

Record State := {
  lock : option nat;                 (* the goroutine that holds c.lock *)
  inProgress : gmap string nat;
  closed : gset nat;
  chans : nat;                       (* channels made so far *)
  threads : list (string * pc)       (* cache key and statement of each goroutine *)
}.

Definition move (i : nat) (k : string) (p : pc) (s : State) : list (string * pc) :=
  <[i := (k, p)]> (threads s).

Inductive step : State → State → Prop :=
| step_lock i k s :
    threads s !! i = Some (k, AtLock) → lock s = None →
    step s {| lock := Some i; inProgress := inProgress s; closed := closed s;
              chans := chans s; threads := move i k AtRead s |}
| step_read_nil i k s :
    threads s !! i = Some (k, AtRead) → inProgress s !! k = None →
    step s {| lock := lock s; inProgress := inProgress s; closed := closed s;
              chans := chans s; threads := move i k AtInstall s |}
| step_read_found i k ch s :
    threads s !! i = Some (k, AtRead) → inProgress s !! k = Some ch →
    step s {| lock := lock s; inProgress := inProgress s; closed := closed s;
              chans := chans s; threads := move i k (AtUnlockWait ch) s |}
| step_install i k s :
    threads s !! i = Some (k, AtInstall) →
    step s {| lock := lock s; inProgress := <[k := chans s]> (inProgress s);
              closed := closed s; chans := S (chans s);
              threads := move i k (AtUnlockReturn (chans s)) s |}
| step_unlock_return i k ch s :
    threads s !! i = Some (k, AtUnlockReturn ch) →
    step s {| lock := None; inProgress := inProgress s; closed := closed s;
              chans := chans s; threads := move i k (AtGet ch) s |}
| step_unlock_wait i k ch s :
    threads s !! i = Some (k, AtUnlockWait ch) →
    step s {| lock := None; inProgress := inProgress s; closed := closed s;
              chans := chans s; threads := move i k (AtSelect ch) s |}
| step_woken i k ch s :
    threads s !! i = Some (k, AtSelect ch) → ch ∈ closed s →
    step s {| lock := lock s; inProgress := inProgress s; closed := closed s;
              chans := chans s; threads := move i k AtLock s |}
| step_cancelled i k ch s :
    threads s !! i = Some (k, AtSelect ch) →
    step s {| lock := lock s; inProgress := inProgress s; closed := closed s;
              chans := chans s; threads := move i k Returned s |}
| step_probe i k ch s :
    threads s !! i = Some (k, AtGet ch) →
    step s {| lock := lock s; inProgress := inProgress s; closed := closed s;
              chans := chans s; threads := move i k (AtDownload ch) s |}
| step_probe_return i k ch s :
    threads s !! i = Some (k, AtGet ch) →
    step s {| lock := lock s; inProgress := inProgress s; closed := closed s;
              chans := chans s; threads := move i k (AtFinish ch) s |}
| step_downloaded i k ch s :
    threads s !! i = Some (k, AtDownload ch) →
    step s {| lock := lock s; inProgress := inProgress s; closed := closed s;
              chans := chans s; threads := move i k (AtFinish ch) s |}
| step_release_lock i k ch s :
    threads s !! i = Some (k, AtFinish ch) → lock s = None →
    step s {| lock := Some i; inProgress := inProgress s; closed := closed s;
              chans := chans s; threads := move i k (AtDelete ch) s |}
| step_delete i k ch s :
    threads s !! i = Some (k, AtDelete ch) →
    step s {| lock := lock s; inProgress := delete k (inProgress s); closed := closed s;
              chans := chans s; threads := move i k (AtClose ch) s |}
| step_close i k ch s :
    threads s !! i = Some (k, AtClose ch) →
    step s {| lock := lock s; inProgress := inProgress s; closed := {[ch]} ∪ closed s;
              chans := chans s; threads := move i k AtRelUnlock s |}
| step_release_unlock i k s :
    threads s !! i = Some (k, AtRelUnlock) →
    step s {| lock := None; inProgress := inProgress s; closed := closed s;
              chans := chans s; threads := move i k Returned s |}.

(** The coordinator as [New] leaves it, with one goroutine per call. *)
Definition initial (keys : list string) : State :=
  {| lock := None; inProgress := ∅; closed := ∅; chans := 0;
     threads := (λ k, (k, AtLock)) <$> keys |}.

Inductive reachable (keys : list string) : State → Prop :=
| reachable_initial : reachable keys (initial keys)
| reachable_step s s' : reachable keys s → step s s' → reachable keys s'.

(** The goroutine is inside the mutex. *)
Definition locked (p : pc) : bool :=
  match p with
  | AtRead | AtInstall | AtUnlockReturn _ | AtUnlockWait _
  | AtDelete _ | AtClose _ | AtRelUnlock => true
  | _ => false
  end.

(** The goroutine holds the gate of its key: its limiter is the one in the map. *)
Definition holds (p : pc) : option nat :=
  match p with
  | AtUnlockReturn ch | AtGet ch | AtDownload ch | AtFinish ch | AtDelete ch => Some ch
  | _ => None
  end.

(** The goroutine has a GET in flight. *)
Definition inFlight (p : pc) : bool :=
  match p with AtDownload _ => true | _ => false end.

Record Inv (s : State) : Prop := {
  inv_locked : ∀ i k p, threads s !! i = Some (k, p) → locked p = true → lock s = Some i;
  inv_holds : ∀ i k p ch, threads s !! i = Some (k, p) → holds p = Some ch →
              inProgress s !! k = Some ch;
  inv_install : ∀ i k, threads s !! i = Some (k, AtInstall) → inProgress s !! k = None;
  inv_unique : ∀ i j k p q, threads s !! i = Some (k, p) → threads s !! j = Some (k, q) →
               is_Some (holds p) → is_Some (holds q) → i = j
}.

End Gate.

(** ** Vocabulary of the statements *)

(** Consecutive calls of [fetchToFile]: call number [k] (from 0) uses the
    attempt [start + k] of the environment and runs in the world that call
    [k - 1] left. *)
Fixpoint attemptsFrom (start k : nat) (env : Env) (url : string)
    (createDestination : OS → result string * OS)
    (cachingInfoIn : CachingInfoType) (w : World) : Fetched * World :=
  match k with
  | O => fetchToFile (env_attempt env start) url createDestination cachingInfoIn w
  | S k' =>
      fetchToFile (env_attempt env (start + k)) url createDestination cachingInfoIn
        (snd (attemptsFrom start k' env url createDestination cachingInfoIn w))
  end.

Definition nthAttempt := attemptsFrom 0.

(** An attempt after which the loop of [Download] breaks: it returned no
    error, or a cancellation. *)
Definition stops (r : Fetched) : bool :=
  match fetchedErr r with
  | None => true
  | Some err => isDownloadCancelled err
  end.

(** What [Download] returns when its last attempt returned [r]. *)
Definition finish (r : Fetched) : Fetched :=
  match fetchedErr r with
  | Some err => failed err
  | None => r
  end.

(** A destination factory in the manner of [ioutil.TempFile]: on success it
    adds one new regular file and returns its name, on failure it leaves the
    files alone. *)
Definition freshFileFactory (createDestination : OS → result string * OS) : Prop :=
  ∀ o, match createDestination o with
       | (Ok name, o') => fs o !! name = None ∧ ∃ bs, fs o' = <[name := File bs]> (fs o)
       | (Err _, o') => fs o' = fs o
       end.

Definition isHexDigit (c : ascii) : bool :=
  let n := N_of_ascii c in
  ((48 <=? n) && (n <=? 57) || (97 <=? n) && (n <=? 102) || (65 <=? n) && (n <=? 70))%N.

Definition isLowerHexDigit (c : ascii) : bool :=
  let n := N_of_ascii c in
  ((48 <=? n) && (n <=? 57) || (97 <=? n) && (n <=? 102))%N.

(** A string of 32 hexadecimal digits, letters in either case. *)
Definition hex32 (s : string) : bool :=
  (String.length s =? 32)%nat && forallb isHexDigit (list_ascii_of_string s).

(** The specification's words: "a 32-char lowercase hex string". *)
Definition lowerHex32 (s : string) : bool :=
  (String.length s =? 32)%nat && forallb isLowerHexDigit (list_ascii_of_string s).


(** The world in which [fetchToFile] creates its destination: the history
    has the attempt and the request. *)
Definition requested (url : string) (cachingInfoIn : CachingInfoType) (w : World) : World :=
  record (EvGet {| req_url := url; req_header := conditionalHeaders cachingInfoIn |})
    (record (EvAttempt url) w).

(** The validator [fetchToFile] takes from a response. *)
Definition validatorOf (resp : Response) : CachingInfoType :=
  {| ETag := Header_Get (Header resp) "ETag";
     LastModified := Header_Get (Header resp) "Last-Modified" |}.

(** The coordinator after a call for [cacheKey] that found the limiter free
    and left the cache as [cache']: the limiter the call made is closed and
    gone from the map again. *)
Definition afterCall {C : Type} (c : cachedDownloader C) (cache' : C) : cachedDownloader C :=
  {| downloader := downloader c; uncachedPath := uncachedPath c; cache := cache';
     transformer := transformer c; inProgress := inProgress c;
     chans := S (chans c); closed := {[chans c]} ∪ closed c |}.

(** The handle [tempFileRemoveOnClose] returns for a path. *)
Definition removeOnClose (path : string) : CachedFile :=
  {| cf_name := path; cf_hook := RemoveOnClose |}.

(** A destination factory that gives every file it creates a name. *)
Definition namesFiles (createDestination : OS → result string * OS) : Prop :=
  ∀ o name o', createDestination o = (Ok name, o') → name ≠ "".

(** The world after [fetchToFile] copied the body of [resp] into the
    destination [name] that the factory created, leaving the system as [o]. *)
Definition stored (url : string) (cachingInfoIn : CachingInfoType) (w : World)
    (resp : Response) (name : string) (o : OS) : World :=
  writeDestination name (Body resp)
    (writeDestination name [] (setOS o (requested url cachingInfoIn w))).

(** The coordinator while a call holds the limiter it made for [cacheKey]. *)
Definition installed {C : Type} (cacheKey : string) (c : cachedDownloader C)
    : cachedDownloader C :=
  {| downloader := downloader c; uncachedPath := uncachedPath c; cache := cache c;
     transformer := transformer c;
     inProgress := <[cacheKey := chans c]> (inProgress c);
     chans := S (chans c); closed := closed c |}.

(** ** Concrete inputs for the examples *)

(** An attempt in which nothing fails locally and the origin answers with [answer]. *)
Definition plainAttempt (answer : Request → result Response) : Attempt :=
  {| at_NewRequest := None; at_Do := answer; at_Seek := None; at_Truncate := None;
     at_cancelled := false; at_elapsed := 0 |}.

(** An environment without cancellation in which every attempt is [plainAttempt answer]. *)
Definition calmEnv (answer : Request → result Response) : Env :=
  {| env_barrierCancelled := false; env_barrierElapsed := 0;
     env_attempt := λ _, plainAttempt answer;
     env_gateCancelled := false; env_gateElapsed := 0; env_closeErr := None |}.

Definition respond (code : Z) (header : list (string * string)) (body : string) : Response :=
  {| StatusCode := code; Header := header; Body := list_byte_of_string body; BodyErr := None |}.

(** An origin that serves [body] under the validator [etag] and answers 304
    to a request that carries it. *)
Definition origin (etag body : string) : Request → result Response := λ req,
  if nonEmpty etag && String.eqb (Header_Get (req_header req) "If-None-Match") etag
  then Ok (respond 304 [] "")
  else Ok (respond 200 (if nonEmpty etag then [("ETag", etag)] else []) body).

(** An origin that fails every request with the status [code]. *)
Definition failing (code : Z) : Request → result Response := λ _, Ok (respond code [] "").

Definition exampleOS : OS := {| fs := {["/uncached" := Dir]}; tmp := 0 |}.

(** A downloader with room for ten downloads. *)
Definition exampleDownloader : Downloader := NewDownloader 1 10 false.

Definition exampleWorld : World := {| os := exampleOS; history := [] |}.

(** A stand-in for tar expansion in the examples: the destination becomes a
    directory with the source bytes as its one member. *)
Definition unpackSingle : CacheTransformer := λ source destination os,
  match fs os !! source with
  | Some (File bs) =>
      ((Z.of_nat (length bs), None),
       withFS (λ f, <[Join destination "member" := File bs]>
                      (<[destination := Dir]> (delete source f))) os)
  | _ => ((0, Some (OtherError "untar: no such file")), os)
  end.

(** A coordinator over the cache of the specification, as [New] makes it,
    with the budget [maxSizeInBytes]. *)
Definition exampleCoordinator (maxSizeInBytes : Z) : cachedDownloader SpecCache.Index :=
  fst (New "/cached" "/uncached" maxSizeInBytes 1 10 false NoopTransform exampleOS).

Definition exampleStart : World :=
  {| os := snd (New (C := SpecCache.Index) "/cached" "/uncached" 1024 1 10 false
                  NoopTransform exampleOS);
     history := [] |}.

(** The size of the entry the cache of the specification holds for a key. *)
Definition entrySize (idx : SpecCache.Index) (k : string) : option Z :=
  SpecCache.e_size <$> SpecCache.Entries idx !! k.

(** An ETag value between double quotes, as origins send it. *)
Definition quoted (s : string) : string := String quote (s +:+ String quote "").

(** The MD5 of the body 777 in hexadecimal. *)
Definition md5_777 : string := "f1c1592588411002af340cbaedd6fc33".

(** The transformer of the test suite: it writes a fixed text to the
    destination and reports the size 100. *)
Definition fixedTransform : CacheTransformer := λ source destination os,
  ((100, None),
   withFS (λ f, <[destination := File (list_byte_of_string "hello tmp")]> f) os).

(** A coordinator whose transformer changes the size. *)
Definition transformingCoordinator : cachedDownloader SpecCache.Index :=
  fst (New "/cached" "/uncached" 1024 1 10 false fixedTransform exampleOS).

(** A file system in which both directories hold files of an earlier run. *)
Definition staleOS : OS :=
  {| fs := <["/var/cached/leftovers" := File (list_byte_of_string "dinner")]>
             (<["/var/cached" := Dir]>
                (<["/var" := Dir]>
                   (<["/uncached/stale" := File (list_byte_of_string "old")]>
                      {["/uncached" := Dir]})));
     tmp := 0 |}.

(** A file system with nothing in it. *)
Definition bareOS : OS := {| fs := ∅; tmp := 0 |}.

(** Two goroutines fetch the same key: the first holds the limiter and has
    its GET in flight, the second waits in the select. *)
Definition exampleRace : Gate.State :=
  {| Gate.lock := None;
     Gate.inProgress := <["k" := 0%nat]> ∅;
     Gate.closed := ∅;
     Gate.chans := 1;
     Gate.threads := [("k", Gate.AtDownload 0); ("k", Gate.AtSelect 0)] |}.

(** What a call of the coordinator returned to its caller, if it returned. *)
Definition returned {A B D : Type} (r : option (A * B * D)) : option A :=
  match r with
  | Some (a, _, _) => Some a
  | None => None
  end.

Definition exampleURL : string := "http://origin/a".

(** The coordinator and the world after a first fetch of the key k, whose
    stream was not closed yet. *)
Definition warmedUp : option (Stream * cachedDownloader SpecCache.Index * World) :=
  Fetch (calmEnv (origin "v1" "777")) exampleURL "k" (exampleCoordinator 1024) exampleStart.

Definition warmCoordinator : cachedDownloader SpecCache.Index :=
  match warmedUp with
  | Some (_, c, _) => c
  | None => exampleCoordinator 1024
  end.

Definition warmWorld : World :=
  match warmedUp with
  | Some (_, _, w) => w
  | None => exampleStart
  end.

(** ** Vocabulary of the further properties *)

(** The requests the origin received, oldest first. *)
Definition sent (w : World) : list Request :=
  omap (λ e, match e with EvGet req => Some req | EvAttempt _ => None end) (history w).

(** The request [fetchToFile] builds. *)
Definition requestFor (url : string) (cachingInfoIn : CachingInfoType) : Request :=
  {| req_url := url; req_header := conditionalHeaders cachingInfoIn |}.

(** The coordinator is as before apart from its cache and its channels: the
    same limiters are installed, and the configuration is the same. *)
Definition sameButCache {C : Type} (c c' : cachedDownloader C) : Prop :=
  inProgress c' = inProgress c ∧ uncachedPath c' = uncachedPath c
  ∧ transformer c' = transformer c ∧ downloader c' = downloader c.

(** The world and the coordinator a call of the coordinator left. *)
Definition finalWorld {A B : Type} (r : option (A * B * World)) : World :=
  match r with
  | Some (_, _, w) => w
  | None => {| os := bareOS; history := [] |}
  end.

Definition finalCoordinator {A : Type} (r : option (A * cachedDownloader SpecCache.Index * World))
    : cachedDownloader SpecCache.Index :=
  match r with
  | Some (_, c, _) => c
  | None => exampleCoordinator 0
  end.

(** A coordinator whose downloader lets no download pass: the barrier has
    the capacity 0. *)
Definition closedCoordinator : cachedDownloader SpecCache.Index :=
  fst (New "/cached" "/uncached" 1024 1 0 false NoopTransform exampleOS).

(** A first [FetchAsDirectory] of the key k, whose directory is still in use. *)
Definition warmedUpDirectory
    : option ((string * option error) * cachedDownloader SpecCache.Index * World) :=
  FetchAsDirectory unpackSingle (calmEnv (origin "v1" "777")) exampleURL "k"
    (exampleCoordinator 1024) exampleStart.

(** A file cache that holds every key as a file it has no room to expand
    into a directory. *)
Definition crampedCache : FileCache unit :=
  {| NewCache := λ _ _, tt;
     cache_Get := λ _ c o, ((None, noCachingInfo, Some EntryNotFound), c, o);
     cache_Add := λ _ _ _ _ c o, ((None, Some NotEnoughSpace), c, o);
     cache_Remove := λ _ c o, (c, o);
     cache_GetDirectory := λ _ c o,
       (("", {| ETag := "v1"; LastModified := "" |}, Some NotEnoughSpace), c, o);
     cache_AddDirectory := λ _ _ _ _ c o, (("", Some NotEnoughSpace), c, o);
     cache_CloseDirectory := λ _ _ c o, (None, c, o);
     cache_release := λ _ _ c o, (c, o) |}.

Definition crampedCoordinator : cachedDownloader unit :=
  fst (New (FC := crampedCache) "/cached" "/uncached" 0 1 10 false NoopTransform exampleOS).

(** An environment in which the cancel channel fires while a call waits for
    a limiter, after [elapsed]. *)
Definition cancelledAtGate (elapsed : Z) : Env :=
  {| env_barrierCancelled := false; env_barrierElapsed := 0;
     env_attempt := λ _, plainAttempt (origin "v1" "777");
     env_gateCancelled := true; env_gateElapsed := elapsed; env_closeErr := None |}.

Definition isQuote (a : ascii) : bool := Ascii.eqb a quote.

(** No character of the string is a double quote. *)
Definition unquoted (s : string) : bool :=
  forallb (λ a, negb (isQuote a)) (list_ascii_of_string s).

(** What a successful attempt did with the answer [resp] of the origin.
    When it returns no path the answer was a 304: the validator is the zero
    value and the files are as before.  Otherwise the answer was a 200 whose
    body arrived whole: the attempt added the one file it names, which is
    new and holds the body of the answer, it returns the validator of the
    answer, and the MD5 of the body is the checksum of the ETag when that is
    one. *)
Definition delivered (resp : Response) (before : FS) (r : Fetched) (after : FS) : Prop :=
  if String.eqb (fetchedPath r) "" then
    StatusCode resp = StatusNotModified ∧ fetchedInfo r = noCachingInfo ∧ after = before
  else
    StatusCode resp = StatusOK ∧ BodyErr resp = None
    ∧ fetchedInfo r = validatorOf resp
    ∧ before !! fetchedPath r = None
    ∧ after = <[fetchedPath r := File (Body resp)]> before
    ∧ ∀ sum, convertETagToChecksum (ETag (fetchedInfo r)) = Some sum →
             sum = MD5.Sum (Body resp).

(** The world after [n] attempts that got a status answer without body. *)
Fixpoint requestedTimes (n : nat) (url : string) (info : CachingInfoType) (w : World) : World :=
  match n with
  | O => w
  | S n' => requested url info (requestedTimes n' url info w)
  end.

(** An environment in which the origin answers the [k]-th attempt with the
    status [code k]. *)
Definition statusEnv (code : nat → Z) : Env :=
  {| env_barrierCancelled := false; env_barrierElapsed := 0;
     env_attempt := λ k, plainAttempt (failing (code k));
     env_gateCancelled := false; env_gateElapsed := 0; env_closeErr := None |}.

(** A transformer that fails without touching a file. *)
Definition brokenTransform : CacheTransformer := λ _ _ os,
  ((0, Some (OtherError "transform failed")), os).

(** An environment in which the cancel channel fires during the first
    attempt: [elapsed] after its start the origin's answer is [answer]. *)
Definition cancelledEnv (elapsed : Z) (answer : Request → result Response) : Env :=
  {| env_barrierCancelled := false; env_barrierElapsed := 0;
     env_attempt := λ _,
       {| at_NewRequest := None; at_Do := answer; at_Seek := None; at_Truncate := None;
          at_cancelled := true; at_elapsed := elapsed |};
     env_gateCancelled := false; env_gateElapsed := 0; env_closeErr := None |}.

(** A connection that is torn down before an answer arrives. *)
Definition tornDown : Request → result Response := λ _,
  Err (OtherError "net/http: request canceled").

(** An origin whose body breaks off after the bytes of [sofar]. *)
Definition breaksOff (sofar : string) : Request → result Response := λ _,
  Ok {| StatusCode := 200; Header := []; Body := list_byte_of_string sofar;
        BodyErr := Some (OtherError "unexpected EOF") |}.

(** The goroutine owns the channel [ch]: it made it and has not closed it yet. *)
Definition owns (p : Gate.pc) (ch : nat) : Prop :=
  Gate.holds p = Some ch ∨ p = Gate.AtClose ch.

(** The channel a goroutine has in its local [rateLimiter]. *)
Definition limiterOf (p : Gate.pc) : option nat :=
  match p with
  | Gate.AtUnlockReturn ch | Gate.AtUnlockWait ch | Gate.AtSelect ch | Gate.AtGet ch
  | Gate.AtDownload ch | Gate.AtFinish ch | Gate.AtDelete ch | Gate.AtClose ch => Some ch
  | _ => None
  end.

(** The step gave up a wait: a goroutine left the select by the cancel channel. *)
Definition cancels (s s' : Gate.State) : Prop :=
  ∃ i k ch, Gate.threads s !! i = Some (k, Gate.AtSelect ch)
          ∧ Gate.threads s' !! i = Some (k, Gate.Returned).

(** What the reachable states of the limiter keep besides [Gate.Inv]. *)
Record Owned (s : Gate.State) : Prop := {
  own_lock : ∀ i, Gate.lock s = Some i →
             ∃ k p, Gate.threads s !! i = Some (k, p) ∧ Gate.locked p = true;
  own_key : ∀ k ch, Gate.inProgress s !! k = Some ch →
            ∃ i p, Gate.threads s !! i = Some (k, p) ∧ Gate.holds p = Some ch;
  own_chan : ∀ ch, (ch < Gate.chans s)%nat →
             ch ∈ Gate.closed s ∨ ∃ i k p, Gate.threads s !! i = Some (k, p) ∧ owns p ch;
  own_bound : ∀ i k p ch, Gate.threads s !! i = Some (k, p) → limiterOf p = Some ch →
              (ch < Gate.chans s)%nat
}.

(** One goroutine fetched the key k and returned. *)
Definition exampleDone : Gate.State :=
  {| Gate.lock := None;
     Gate.inProgress := delete "k" (<["k" := 0%nat]> ∅);
     Gate.closed := {[0%nat]} ∪ ∅;
     Gate.chans := 1;
     Gate.threads := [("k", Gate.Returned)] |}.

(** ** The download barrier under interleaving

    [Download] sends on [concurrentDownloadBarrier], a channel that
    [NewDownloader] makes with the capacity [maxConcurrentDownloads], before
    its loop, and its deferred function receives from it.  As a transition
    system: [slots] is the number of elements in the channel, each goroutine
    is one call of [Download] at one statement. *)

Module Barrier.

Inductive pc :=
| AtBarrier     (* select on the send to the barrier and on cancelChan *)
| InLoop        (* the attempts of the loop *)
| AtDeferred    (* the deferred receive from the barrier *)
| Done.

Record State := { slots : nat; threads : list pc }.

Inductive step (capacity : nat) : State → State → Prop :=
| step_send i s :
    threads s !! i = Some AtBarrier → (slots s < capacity)%nat →
    step capacity s {| slots := S (slots s); threads := <[i := InLoop]> (threads s) |}
| step_cancel i s :
    threads s !! i = Some AtBarrier →
    step capacity s {| slots := slots s; threads := <[i := Done]> (threads s) |}
| step_loop i s :
    threads s !! i = Some InLoop →
    step capacity s {| slots := slots s; threads := <[i := AtDeferred]> (threads s) |}
| step_receive i n s :
    threads s !! i = Some AtDeferred → slots s = S n →
    step capacity s {| slots := n; threads := <[i := Done]> (threads s) |}.

(** The downloader as [NewDownloader] leaves it, with [calls] calls of [Download]. *)
Definition initial (calls : nat) : State :=
  {| slots := 0; threads := replicate calls AtBarrier |}.

Inductive reachable (capacity calls : nat) : State → Prop :=
| reach_initial : reachable capacity calls (initial calls)
| reach_step s s' :
    reachable capacity calls s → step capacity s s' → reachable capacity calls s'.

(** The call is between the send and the receive: it may be downloading. *)
Definition inside (p : pc) : bool :=
  match p with InLoop | AtDeferred => true | _ => false end.

(** The number of calls that are past the barrier. *)
Definition inFlight (s : State) : nat := length (filter (λ p, inside p = true) (threads s)).

(** The step gave up a wait at the barrier. *)
Definition givesUp (s s' : State) : Prop :=
  ∃ i, threads s !! i = Some AtBarrier ∧ threads s' !! i = Some Done.

End Barrier.

(** Three calls at a barrier of capacity one: the first downloads, the
    second waits, the third was cancelled. *)
Definition exampleQueue : Barrier.State :=
  {| Barrier.slots := 1;
     Barrier.threads := [Barrier.InLoop; Barrier.AtBarrier; Barrier.Done] |}.
(** * Theorems *)

(** ** The standard library models *)

Example md5_empty :
  Hex.EncodeToString (MD5.Sum []) = "d41d8cd98f00b204e9800998ecf8427e".
Proof. vm_compute. reflexivity. Qed.

Example md5_abc :
  Hex.EncodeToString (MD5.Sum (list_byte_of_string "abc")) = "900150983cd24fb0d6963f7d28e17f72".
Proof. vm_compute. reflexivity. Qed.

Example md5_long :
  Hex.EncodeToString (MD5.Sum (list_byte_of_string
    "12345678901234567890123456789012345678901234567890123456789012345678901234567890"))
  = "57edf4a22be3c955ac49da2e2107b67a".
Proof. vm_compute. reflexivity. Qed.



(** *** The history of attempts *)

Lemma attempts_record_attempt url w : attempts (record (EvAttempt url) w) = S (attempts w).
Proof.
unfold attempts, record; simpl. rewrite filter_app, length_app. simpl. lia.
Qed.

Lemma attempts_record_get req w : attempts (record (EvGet req) w) = attempts w.
Proof.
unfold attempts, record; simpl. rewrite filter_app, length_app. simpl. lia.
Qed.

Lemma attempts_setOS o w : attempts (setOS o w) = attempts w.
Proof. reflexivity. Qed.

Lemma attempts_inOS {A} (f : OS → A * OS) w : attempts (snd (inOS f w)) = attempts w.
Proof. unfold inOS. by destruct (f (os w)). Qed.

Lemma attempts_fetchToFile at_ url mk info w :
attempts (snd (fetchToFile at_ url mk info w)) = S (attempts w).
Proof.
unfold fetchToFile.
repeat match goal with
| |- context [match ?x with _ => _ end] =>
    lazymatch x with
    | inOS _ _ => destruct x as [[?|?] ?] eqn:?
    | _ => destruct x eqn:?
    end
end; simpl;
repeat match goal with
| H : inOS ?f ?w = (_, ?w') |- _ =>
    let E := fresh in
    pose proof (attempts_inOS f w) as E; rewrite H in E; simpl in E; clear H
end;
unfold removeDestination, writeDestination;
rewrite ?attempts_setOS, ?attempts_record_get, ?attempts_record_attempt in *; try lia.
Qed.

(** *** The retry loop *)

Section Retry.
Variables (env : Env) (url : string) (mk : OS → result string * OS) (info : CachingInfoType).

Lemma attemptsFrom_shift start k w :
  attemptsFrom start (S k) env url mk info w
  = attemptsFrom (S start) k env url mk info
      (snd (fetchToFile (env_attempt env start) url mk info w)).
Proof.
  induction k as [|k IH].
  - simpl. by rewrite Nat.add_1_r.
  - change (attemptsFrom start (S (S k)) env url mk info w)
      with (fetchToFile (env_attempt env (start + S (S k))) url mk info
              (snd (attemptsFrom start (S k) env url mk info w))).
    rewrite IH. simpl. by rewrite Nat.add_succ_r.
Qed.

Lemma attempts_attemptsFrom start k w :
  attempts (snd (attemptsFrom start k env url mk info w)) = (attempts w + S k)%nat.
Proof.
  induction k as [|k IH]; simpl; rewrite attempts_fetchToFile; [lia|].
  rewrite IH. lia.
Qed.

Lemma stops_false_retry r :
  stops r = false → ∃ err, fetchedErr r = Some err ∧ isDownloadCancelled err = false.
Proof. unfold stops. destruct (fetchedErr r); [eauto|done]. Qed.

Lemma downloadLoop_spec left start last w :
  (0 < left)%nat →
  ∃ n, (1 ≤ n ≤ left)%nat
     ∧ downloadLoop left start env url mk info last w
       = attemptsFrom start (n - 1) env url mk info w
     ∧ (∀ k, (k < n - 1)%nat → stops (fst (attemptsFrom start k env url mk info w)) = false)
     ∧ ((n < left)%nat → stops (fst (attemptsFrom start (n - 1) env url mk info w)) = true).
Proof.
  revert start last w. induction left as [|left IH]; intros start last w Hpos; [lia|].
  simpl. destruct (fetchToFile (env_attempt env start) url mk info w) as [r w1] eqn:Hfirst.
  assert (attemptsFrom start 0 env url mk info w = (r, w1)) as H0 by done.
  destruct (stops r) eqn:Hstop.
  - exists 1%nat. simpl. rewrite Hfirst. split; [lia|]. split; [|split].
    + unfold stops in Hstop. destruct (fetchedErr r); [|done]. by rewrite Hstop.
    + intros; lia.
    + done.
  - apply stops_false_retry in Hstop as Hretry. destruct Hretry as (err & -> & ->).
    destruct left as [|left'].
    + exists 1%nat. simpl. rewrite Hfirst. split; [lia|]. split; [done|]. split; intros; lia.
    + destruct (IH (S start) r w1 ltac:(lia)) as (n & Hn & Hloop & Hbefore & Hlast).
      exists (S n). rewrite Hloop.
      replace (S n - 1)%nat with (S (n - 1)) by lia.
      rewrite attemptsFrom_shift, Hfirst. simpl.
      split; [lia|]. split; [done|]. split.
      * intros [|k] Hk; [by rewrite H0|].
        rewrite attemptsFrom_shift, Hfirst. apply Hbefore. lia.
      * intros Hlt. apply Hlast. lia.
Qed.

End Retry.

(** C2: [Download] calls [fetchToFile] at most [MAX_DOWNLOAD_ATTEMPTS] = 3
    times.  When the select on the barrier takes the cancellation it makes no
    attempt; when the barrier has no room and the cancel channel stays silent
    it makes no attempt either, and does not return; otherwise it makes [n]
    consecutive attempts with 1 <= n <= 3, every attempt before the last
    returned an error that is no cancellation (so it was retried), the loop
    stopped before the third attempt only after an attempt without error or
    with a cancellation error, and the result is the one of the last
    attempt. *)
Theorem Download_attempts downloader env url mk info w :
if env_barrierCancelled env then
  Download downloader env url mk info w
    = Some (failed (DownloadCancelledError "download-barrier" (env_barrierElapsed env) (-1)), w)
else if hasRoom downloader then
  ∃ n, (1 ≤ n ≤ MAX_DOWNLOAD_ATTEMPTS)%nat
     ∧ Download downloader env url mk info w
       = Some (finish (fst (nthAttempt (n - 1) env url mk info w)),
               snd (nthAttempt (n - 1) env url mk info w))
     ∧ attempts (snd (nthAttempt (n - 1) env url mk info w)) = (attempts w + n)%nat
     ∧ (∀ k, (k < n - 1)%nat → stops (fst (nthAttempt k env url mk info w)) = false)
     ∧ ((n < MAX_DOWNLOAD_ATTEMPTS)%nat →
        stops (fst (nthAttempt (n - 1) env url mk info w)) = true)
else Download downloader env url mk info w = None.
Proof.
unfold Download. destruct (env_barrierCancelled env); [done|].
destruct (hasRoom downloader); [|done]. cbn [negb].
destruct (downloadLoop_spec env url mk info MAX_DOWNLOAD_ATTEMPTS 0 ("", noCachingInfo, None) w)
  as (n & Hn & Hloop & Hbefore & Hlast); [unfold MAX_DOWNLOAD_ATTEMPTS; lia|].
exists n. rewrite Hloop. unfold nthAttempt.
pose proof (attempts_attemptsFrom env url mk info 0 (n - 1) w) as Hcount.
destruct (attemptsFrom 0 (n - 1) env url mk info w) as [r w'] eqn:Hnth.
simpl in *. unfold finish.
split; [done|]. split; [by destruct (fetchedErr r)|].
split; [lia|]. split; [done|]. done.
Qed.

(** *** Failed attempts leave no file *)

Lemma Remove_created name bs (f : FS) :
f !! name = None → snd (Remove name (<[name := File bs]> f)) = f.
Proof.
intros Hfresh. unfold Remove. rewrite lookup_insert_eq. simpl.
by apply delete_insert_id.
Qed.

Lemma writeFile_created name bs bs' (f : FS) :
writeFile name bs' (<[name := File bs]> f) = <[name := File bs']> f.
Proof.
unfold writeFile. rewrite lookup_insert_eq. by rewrite insert_insert_eq.
Qed.

Section Cleanup.
Variable mk : OS → result string * OS.
Hypothesis mk_fresh : freshFileFactory mk.

Lemma fetchToFile_failure at_ url info w :
  let '(r, w') := fetchToFile at_ url mk info w in
  fetchedErr r ≠ None →
  fetchedPath r = "" ∧ fetchedInfo r = noCachingInfo ∧ fs (os w') = fs (os w).
Proof.
  unfold fetchToFile, inOS.
  set (w1 := record (EvGet _) (record (EvAttempt url) w)).
  destruct (at_NewRequest at_); [done|].
  destruct (at_Do at_ _) as [resp|err]; [|done].
  destruct (StatusCode resp =? StatusNotModified); [done|].
  destruct (negb (StatusCode resp =? StatusOK)); [done|].
  pose proof (mk_fresh (os w1)) as Hmk.
  destruct (mk (os w1)) as [[name|err] o1]; [|by intros _; simpl].
  destruct Hmk as [Hfresh [bs Hfs]].
  assert (∀ bs', fs (os (removeDestination name
            (writeDestination name bs' (writeDestination name [] (setOS o1 w1)))))
          = fs (os w)) as Hclean.
  { intros bs'. unfold removeDestination, writeDestination, setOS, withFS; simpl.
    rewrite Hfs, !writeFile_created. by rewrite Remove_created. }
  assert (fs (os (removeDestination name (setOS o1 w1))) = fs (os w)) as Hclean0.
  { unfold removeDestination, setOS, withFS; simpl. rewrite Hfs. by rewrite Remove_created. }
  destruct (at_Seek at_); [done|].
  destruct (at_Truncate at_); [done|].
  destruct (BodyErr resp); [by intros _; rewrite Hclean|].
  destruct (convertETagToChecksum _); [|done].
  destruct (negb _); [by intros _; rewrite Hclean|done].
Qed.

Lemma downloadLoop_failure env url info left start last w :
  (fetchedErr last ≠ None → fetchedPath last = "" ∧ fetchedInfo last = noCachingInfo) →
  let '(r, w') := downloadLoop left start env url mk info last w in
  fetchedErr r ≠ None →
  fetchedPath r = "" ∧ fetchedInfo r = noCachingInfo ∧ fs (os w') = fs (os w).
Proof.
  revert start last w. induction left as [|left IH]; intros start last w Hlast; simpl.
  - intros Herr. by destruct (Hlast Herr).
  - pose proof (fetchToFile_failure (env_attempt env start) url info w) as Hone.
    destruct (fetchToFile _ url mk info w) as [r w1].
    destruct (fetchedErr r) as [err|] eqn:Herr; [|done].
    destruct (Hone ltac:(done)) as (Hp & Hi & Hfs).
    destruct (isDownloadCancelled err); [by rewrite Herr|].
    specialize (IH (S start) r w1 (λ _, conj Hp Hi)).
    destruct (downloadLoop left (S start) env url mk info r w1) as [r' w'].
    intros Hne'. destruct (IH Hne') as (? & ? & ?). repeat split; congruence.
Qed.

End Cleanup.

(** C7: when [Download] returns an error, the path it returns is empty and
    the validator is the zero value; and with a destination factory that
    creates one new file per call, the file system is the one before the
    call: no file of a failed attempt is left. *)
Theorem Download_failure_cleans_up downloader env url mk info w r w' :
freshFileFactory mk →
Download downloader env url mk info w = Some (r, w') →
fetchedErr r ≠ None →
fetchedPath r = "" ∧ fetchedInfo r = noCachingInfo ∧ fs (os w') = fs (os w).
Proof.
intros Hmk. unfold Download.
destruct (env_barrierCancelled env); [by intros [= <- <-]|].
destruct (negb (hasRoom downloader)); [done|].
pose proof (downloadLoop_failure mk Hmk env url info MAX_DOWNLOAD_ATTEMPTS 0
              ("", noCachingInfo, None) w (λ _, conj eq_refl eq_refl)) as Hloop.
destruct (downloadLoop _ _ _ _ _ _ _ _) as [r1 w1].
destruct (fetchedErr r1) as [err|] eqn:Herr; intros [= <- <-].
- intros _. destruct Hloop as (_ & _ & Hfs); done.
- by rewrite Herr.
Qed.

Lemma freeSuffix_free tries name n (f : FS) m :
freeSuffix tries name n f = Some m → f !! name m = None.
Proof.
revert n. induction tries as [|tries IH]; intros n; simpl; [done|].
unfold exists_. destruct (f !! name n) eqn:Hn; [apply IH|].
intros [= <-]. done.
Qed.

Lemma TempFile_fresh dir pfx : freshFileFactory (TempFile dir pfx).
Proof.
intros o. unfold TempFile.
destruct (negb (isDir _ (fs o))); [done|].
destruct (freeSuffix _ _ _ _) as [m|] eqn:Hfree; [|done].
simpl. split; [by apply freeSuffix_free in Hfree|eauto].
Qed.

(** *** Hexadecimal ETags *)

Lemma string_pair_ind (P : string → Prop) :
P "" → (∀ a, P (String a "")) → (∀ a b s, P s → P (String a (String b s))) → ∀ s, P s.
Proof.
intros H0 H1 H2. fix IH 1. intros [|a [|b s]]; [apply H0|apply H1|apply H2, IH].
Qed.

Lemma fromHexChar_isHexDigit c : is_Some (Hex.fromHexChar c) ↔ isHexDigit c = true.
Proof.
destruct c as [[] [] [] [] [] [] [] []]; vm_compute;
  (split; [first [by intros _ | by intros [? ?]] | first [by eauto | done]]).
Qed.

Lemma DecodeString_hex s :
is_Some (Hex.DecodeString s)
↔ Nat.even (String.length s) = true ∧ forallb isHexDigit (list_ascii_of_string s) = true.
Proof.
induction s as [| a | a b s IH] using string_pair_ind.
- simpl. split; eauto.
- simpl. split; [intros [? ?]; done|intros [? _]; done].
- change (Hex.DecodeString (String a (String b s)))
    with (match Hex.fromHexChar a, Hex.fromHexChar b, Hex.DecodeString s with
          | Some h, Some l, Some bs => Some (MD5.Zbyte (16 * h + l) :: bs)
          | _, _, _ => None
          end).
  change (Nat.even (String.length (String a (String b s)))) with (Nat.even (String.length s)).
  simpl forallb. rewrite !andb_true_iff.
  rewrite <- !fromHexChar_isHexDigit.
  destruct IH as [IH1 IH2].
  destruct (Hex.fromHexChar a), (Hex.fromHexChar b); simpl;
    try (split; [intros [? ?]; done|intros (? & [? ?] & [? ?] & ?); done]).
  destruct (Hex.DecodeString s).
  + split; [intros _|by eauto]. destruct IH1 as [? ?]; eauto.
  + split; [intros [? ?]; done|]. intros (? & ? & ? & ?).
    destruct IH2 as [? ?]; done.
Qed.

Lemma DecodeString_length s c :
Hex.DecodeString s = Some c → String.length s = (2 * length c)%nat.
Proof.
revert c. induction s as [| a | a b s IH] using string_pair_ind; intros c.
- by intros [= <-].
- done.
- change (Hex.DecodeString (String a (String b s)))
    with (match Hex.fromHexChar a, Hex.fromHexChar b, Hex.DecodeString s with
          | Some h, Some l, Some bs => Some (MD5.Zbyte (16 * h + l) :: bs)
          | _, _, _ => None
          end).
  destruct (Hex.fromHexChar a), (Hex.fromHexChar b), (Hex.DecodeString s); try done.
  intros [= <-]. simpl. rewrite (IH _ eq_refl). lia.
Qed.

Lemma convertETagToChecksum_hex32 etag :
is_Some (convertETagToChecksum etag) ↔ hex32 (Trim etag quote) = true.
Proof.
unfold convertETagToChecksum, hex32.
destruct (String.length (Trim etag quote) =? 32)%nat eqn:Hlen; simpl.
- apply Nat.eqb_eq in Hlen.
  pose proof (DecodeString_hex (Trim etag quote)) as Hhex. rewrite Hlen in Hhex.
  destruct (Hex.DecodeString (Trim etag quote)).
  + split; [intros _; by apply Hhex|eauto].
  + split; [intros [? ?]; done|]. intros Hall. by apply Hhex.
- split; [intros [? ?]; done|done].
Qed.

(** *** A warm answer leaves the files alone *)

Section Warm.
Variable mk : OS → result string * OS.
Hypothesis mk_fresh : freshFileFactory mk.
Hypothesis mk_names : namesFiles mk.

Lemma fetchToFile_warm at_ url info w :
  let '(r, w') := fetchToFile at_ url mk info w in
  fetchedErr r = None → fetchedPath r = "" → fs (os w') = fs (os w).
Proof.
  unfold fetchToFile, inOS.
  set (w1 := record (EvGet _) (record (EvAttempt url) w)).
  destruct (at_NewRequest at_); [done|].
  destruct (at_Do at_ _) as [resp|err]; [|done].
  destruct (StatusCode resp =? StatusNotModified); [done|].
  destruct (negb (StatusCode resp =? StatusOK)); [done|].
  pose proof (mk_names (os w1)) as Hname.
  destruct (mk (os w1)) as [[name|err] o1]; [|done].
  specialize (Hname name o1 eq_refl).
  destruct (at_Seek at_); [done|].
  destruct (at_Truncate at_); [done|].
  destruct (BodyErr resp); [done|].
  destruct (convertETagToChecksum _); [|done].
  destruct (negb _); done.
Qed.

Lemma downloadLoop_warm env url info left start last w :
  (fetchedErr last = None → fetchedPath last = "" → True) →
  let '(r, w') := downloadLoop left start env url mk info last w in
  (0 < left)%nat → fetchedErr r = None → fetchedPath r = "" → fs (os w') = fs (os w).
Proof.
  revert start last w. induction left as [|left IH]; intros start last w _; simpl; [lia|].
  pose proof (fetchToFile_warm (env_attempt env start) url info w) as Hwarm.
  pose proof (fetchToFile_failure mk mk_fresh (env_attempt env start) url info w) as Hfail.
  destruct (fetchToFile _ url mk info w) as [r w1].
  destruct (fetchedErr r) as [err|] eqn:Herr; [|by intros _ _; apply Hwarm].
  destruct (Hfail ltac:(done)) as (Hp & Hi & Hfs).
  destruct (isDownloadCancelled err); [by rewrite Herr|].
  specialize (IH (S start) r w1 (λ _ _, I)).
  destruct left as [|left']; [simpl; by rewrite Herr|].
  destruct (downloadLoop (S left') (S start) env url mk info r w1) as [r' w'].
  intros _ Hok Hempty. rewrite <- Hfs. apply IH; [lia|done..].
Qed.

Lemma Download_warm downloader env url info w info' w' :
  Download downloader env url mk info w = Some (("", info', None), w') →
  fs (os w') = fs (os w).
Proof.
  unfold Download. destruct (env_barrierCancelled env); [done|].
  destruct (negb (hasRoom downloader)); [done|].
  pose proof (downloadLoop_warm env url info MAX_DOWNLOAD_ATTEMPTS 0
                ("", noCachingInfo, None) w (λ _ _, I)) as Hloop.
  destruct (downloadLoop _ _ _ _ _ _ _ _) as [[[p i] e] w1]. simpl.
  destruct e; [done|]. intros [= -> -> ->].
  apply Hloop; [unfold MAX_DOWNLOAD_ATTEMPTS; lia|done..].
Qed.

End Warm.

Lemma Clean_named p : Clean p ≠ "".
Proof.
unfold Clean. destruct (rooted p); [done|].
by destruct (String.eqb_spec (String.concat "/" (cleaned false [] (elements p))) "").
Qed.

Lemma Join_named dir name : dir ≠ "" → Join dir name ≠ "".
Proof.
intros Hdir. unfold Join. apply String.eqb_neq in Hdir. rewrite Hdir.
destruct (String.eqb name ""); apply Clean_named.
Qed.

Lemma TempFile_names dir pfx : namesFiles (TempFile dir pfx).
Proof.
intros o name o'. unfold TempFile.
destruct (negb _); [done|]. destruct (freeSuffix _ _ _ _); [|done].
intros [= <- _]. apply Join_named. unfold TempDir. by destruct (String.eqb_spec dir "").
Qed.

(** *** One attempt, by status *)

Section OneAttempt.
Variables (at_ : Attempt) (url : string) (mk : OS → result string * OS)
          (info : CachingInfoType) (w : World) (resp : Response).
Hypothesis request_ok : at_NewRequest at_ = None.
Hypothesis answered :
  at_Do at_ {| req_url := url; req_header := conditionalHeaders info |} = Ok resp.

Lemma fetchToFile_not_modified :
  StatusCode resp = StatusNotModified →
  fetchToFile at_ url mk info w = (("", noCachingInfo, None), requested url info w).
Proof.
  intros Hcode. unfold fetchToFile. rewrite request_ok, answered, Hcode. done.
Qed.

Lemma fetchToFile_other_status :
  StatusCode resp ≠ StatusNotModified → StatusCode resp ≠ StatusOK →
  fetchToFile at_ url mk info w
  = (failed (StatusCodeError (StatusCode resp)), requested url info w).
Proof.
  intros H304 H200. unfold fetchToFile. rewrite request_ok, answered.
  destruct (Z.eqb_spec (StatusCode resp) StatusNotModified); [done|].
  destruct (Z.eqb_spec (StatusCode resp) StatusOK); done.
Qed.

Lemma fetchToFile_streamed name o :
  StatusCode resp = StatusOK →
  mk (os (requested url info w)) = (Ok name, o) →
  at_Seek at_ = None → at_Truncate at_ = None → BodyErr resp = None →
  fetchToFile at_ url mk info w
  = match convertETagToChecksum (ETag (validatorOf resp)) with
    | Some etagChecksum =>
        if bytes_Equal etagChecksum (MD5.Sum (Body resp))
        then ((name, validatorOf resp, None), stored url info w resp name o)
        else (failed ChecksumMismatchError, removeDestination name (stored url info w resp name o))
    | None => ((name, validatorOf resp, None), stored url info w resp name o)
    end.
Proof.
  intros Hcode Hmk Hseek Htrunc Hbody. unfold fetchToFile.
  rewrite request_ok, answered, Hcode. simpl.
  unfold inOS. fold (requested url info w). rewrite Hmk, Hseek, Htrunc, Hbody.
  fold (validatorOf resp). fold (stored url info w resp name o).
  destruct (convertETagToChecksum _); [|done].
  by destruct (bytes_Equal _ _).
Qed.

End OneAttempt.

Lemma bytes_Equal_eq a b : bytes_Equal a b = true ↔ a = b.
Proof. unfold bytes_Equal. apply bool_decide_eq_true. Qed.

(** C4 (as amended): for a response that one attempt receives, status 304
    returns the empty path, the zero validator and no error; a status other
    than 304 and 200 returns an error that carries the status, with empty path
    and zero validator; status 200 copies the body into the destination and,
    when the destination is created and written without error and the ETag,
    if it is a checksum, equals the MD5 of the body, returns the name of the
    destination with the ETag and Last-Modified of the response; when the
    checksum differs it removes the destination and returns a checksum error
    with empty path and zero validator. *)
Theorem fetchToFile_by_status at_ url mk info w resp :
at_NewRequest at_ = None →
at_Do at_ {| req_url := url; req_header := conditionalHeaders info |} = Ok resp →
(StatusCode resp = 304 →
   fetchToFile at_ url mk info w = (("", noCachingInfo, None), requested url info w))
∧ (StatusCode resp ≠ 304 → StatusCode resp ≠ 200 →
   fetchToFile at_ url mk info w
   = (("", noCachingInfo, Some (StatusCodeError (StatusCode resp))), requested url info w))
∧ (StatusCode resp = 200 →
   ∀ name o,
     mk (os (requested url info w)) = (Ok name, o) →
     at_Seek at_ = None → at_Truncate at_ = None → BodyErr resp = None →
     (isFile name (fs o) = true →
      fs (os (stored url info w resp name o)) !! name = Some (File (Body resp)))
     ∧ ((∀ c, convertETagToChecksum (Header_Get (Header resp) "ETag") = Some c →
              c = MD5.Sum (Body resp)) →
        fetchToFile at_ url mk info w
        = ((name,
            {| ETag := Header_Get (Header resp) "ETag";
               LastModified := Header_Get (Header resp) "Last-Modified" |},
            None), stored url info w resp name o))
     ∧ ((∃ c, convertETagToChecksum (Header_Get (Header resp) "ETag") = Some c
              ∧ c ≠ MD5.Sum (Body resp)) →
        fetchToFile at_ url mk info w
        = (("", noCachingInfo, Some ChecksumMismatchError),
           removeDestination name (stored url info w resp name o)))).
Proof.
intros Hreq Hdo. split; [|split].
- by apply fetchToFile_not_modified.
- by apply fetchToFile_other_status.
- intros Hcode name o Hmk Hseek Htrunc Hbody.
  rewrite (fetchToFile_streamed at_ url mk info w resp Hreq Hdo name o) by done.
  split; [|split].
  + unfold isFile. intros Hfile. unfold stored, writeDestination, setOS, withFS; simpl.
    unfold writeFile at 2.
    destruct (fs o !! name) as [[bs|]|] eqn:Hname; try done.
    by rewrite writeFile_created, lookup_insert_eq.
  + intros Hpass. simpl. destruct (convertETagToChecksum _) as [c|]; [|done].
    rewrite (proj2 (bytes_Equal_eq _ _)); [done|by apply Hpass].
  + intros (c & Hc & Hne). simpl. rewrite Hc.
    destruct (bytes_Equal c (MD5.Sum (Body resp))) eqn:Heq; [|done].
    by apply bytes_Equal_eq in Heq.
Qed.

(** C3 (as amended): for a 200 response whose body was written without
    error, the ETag is compared with the MD5 of the body if and only if, once
    the double quotes at its ends are trimmed, it is a string of 32
    hexadecimal digits (letters in either case); it then decodes to 16 bytes,
    the attempt succeeds when they equal the MD5 and fails with the checksum
    error when they differ.  Any other ETag is not compared: the attempt
    succeeds. *)
Theorem etag_checksum_rule at_ url mk info w resp name o :
at_NewRequest at_ = None →
at_Do at_ {| req_url := url; req_header := conditionalHeaders info |} = Ok resp →
StatusCode resp = 200 →
mk (os (requested url info w)) = (Ok name, o) →
at_Seek at_ = None → at_Truncate at_ = None → BodyErr resp = None →
let etag := Trim (Header_Get (Header resp) "ETag") quote in
let r := fst (fetchToFile at_ url mk info w) in
(hex32 etag = true →
   ∃ c, Hex.DecodeString etag = Some c ∧ length c = 16%nat
      ∧ (c = MD5.Sum (Body resp) → r = (name, validatorOf resp, None))
      ∧ (c ≠ MD5.Sum (Body resp) → r = failed ChecksumMismatchError))
∧ (hex32 etag = false → r = (name, validatorOf resp, None)).
Proof.
intros Hreq Hdo Hcode Hmk Hseek Htrunc Hbody etag r. subst r.
rewrite (fetchToFile_streamed at_ url mk info w resp Hreq Hdo name o) by done.
pose proof (convertETagToChecksum_hex32 (ETag (validatorOf resp))) as Hhex.
simpl in Hhex. fold etag in Hhex. simpl.
unfold convertETagToChecksum in *. fold etag in Hhex |- *.
split.
- intros Hyes. apply Hhex in Hyes as [c Hc].
  destruct (negb (String.length etag =? 32)%nat) eqn:Hlen; [done|].
  destruct (Hex.DecodeString etag) as [c'|] eqn:Hdec; [|done].
  injection Hc as <-. exists c'. split; [done|]. split.
  { apply DecodeString_length in Hdec. apply negb_false_iff, Nat.eqb_eq in Hlen. lia. }
  split; intros Hcmp.
  + by rewrite (proj2 (bytes_Equal_eq _ _)).
  + destruct (bytes_Equal c' (MD5.Sum (Body resp))) eqn:Heq; [|done].
    by apply bytes_Equal_eq in Heq.
- intros Hno.
  destruct (negb (String.length etag =? 32)%nat); [done|].
  destruct (Hex.DecodeString etag) as [c'|]; [|done].
  destruct Hhex as [Hhex _]. rewrite Hhex in Hno by eauto. done.
Qed.

Lemma Download_failure_cleans_up_witness :
  ∃ w', Download exampleDownloader (calmEnv (λ _, Ok (respond 200 [("ETag", md5_777)] "abc")))
          exampleURL (TempFile "/uncached" "k-") noCachingInfo exampleWorld
        = Some (("", noCachingInfo, Some ChecksumMismatchError), w')
      ∧ tmp (os w') = 3%nat
      ∧ attempts w' = 3%nat
      ∧ fs (os w') = fs (os exampleWorld).
Proof.
  pose (env := calmEnv (λ _, Ok (respond 200 [("ETag", md5_777)] "abc"))).
  pose (res := default (("", noCachingInfo, None), exampleWorld)
                 (Download exampleDownloader env exampleURL (TempFile "/uncached" "k-")
                    noCachingInfo exampleWorld)).
  assert (Download exampleDownloader env exampleURL (TempFile "/uncached" "k-")
            noCachingInfo exampleWorld
          = Some (("", noCachingInfo, Some ChecksumMismatchError), res.2)) as Hdl
    by (vm_compute; reflexivity).
  exists res.2. split; [exact Hdl|].
  split; [vm_compute; reflexivity|]. split; [vm_compute; reflexivity|].
  exact (proj2 (proj2 (Download_failure_cleans_up exampleDownloader env exampleURL
                         (TempFile "/uncached" "k-") noCachingInfo exampleWorld
                         ("", noCachingInfo, Some ChecksumMismatchError) res.2
                         (TempFile_fresh "/uncached" "k-") Hdl ltac:(discriminate)))).
Defined.

Lemma fetchToFile_by_status_witness :
  fst (fetchToFile (plainAttempt (origin "v1" "777")) exampleURL (TempFile "/uncached" "k-")
         noCachingInfo exampleWorld)
  = ("/uncached/k-0", {| ETag := "v1"; LastModified := "" |}, None).
Proof.
  destruct (fetchToFile_by_status (plainAttempt (origin "v1" "777")) exampleURL
              (TempFile "/uncached" "k-") noCachingInfo exampleWorld
              (respond 200 [("ETag", "v1")] "777") eq_refl eq_refl) as (_ & _ & H200).
  destruct (H200 eq_refl "/uncached/k-0"
              (snd (TempFile "/uncached" "k-" (os (requested exampleURL noCachingInfo exampleWorld))))
              eq_refl eq_refl eq_refl eq_refl) as (_ & Hpass & _).
  rewrite Hpass; [reflexivity|].
  intros c Hc. vm_compute in Hc. discriminate.
Defined.

(** C4, counterexample: a 200 response whose ETag is the MD5 of other bytes
    does not return the path of the file: the attempt returns the checksum
    error with an empty path. *)
Lemma status_200_checksum_mismatch :
  StatusCode (respond 200 [("ETag", md5_777)] "abc") = 200
  ∧ fst (fetchToFile (plainAttempt (λ _, Ok (respond 200 [("ETag", md5_777)] "abc")))
           exampleURL (TempFile "/uncached" "k-") noCachingInfo exampleWorld)
    = ("", noCachingInfo, Some ChecksumMismatchError).
Proof. split; [reflexivity|]. vm_compute. reflexivity. Qed.

Lemma etag_checksum_rule_witness :
  hex32 (Trim (quoted md5_777) quote) = true
  ∧ fst (fetchToFile (plainAttempt (λ _, Ok (respond 200 [("ETag", quoted md5_777)] "777")))
           exampleURL (TempFile "/uncached" "k-") noCachingInfo exampleWorld)
    = ("/uncached/k-0", {| ETag := quoted md5_777; LastModified := "" |}, None).
Proof.
  split; [by vm_compute|].
  destruct (etag_checksum_rule
              (plainAttempt (λ _, Ok (respond 200 [("ETag", quoted md5_777)] "777")))
              exampleURL (TempFile "/uncached" "k-") noCachingInfo exampleWorld
              (respond 200 [("ETag", quoted md5_777)] "777") "/uncached/k-0"
              (snd (TempFile "/uncached" "k-" (os (requested exampleURL noCachingInfo exampleWorld))))
              eq_refl eq_refl eq_refl eq_refl eq_refl eq_refl eq_refl) as [Hyes _].
  destruct (Hyes ltac:(by vm_compute)) as (c & Hdec & _ & Hsame & _).
  rewrite Hsame; [reflexivity|].
  vm_compute in Hdec. injection Hdec as <-. vm_compute. reflexivity.
Defined.

(** C3, counterexample: an ETag between double quotes, and an ETag in
    upper-case digits, are no strings of 32 lower-case hexadecimal digits, yet
    both are compared with the MD5 of the body: the attempts fail with the
    checksum error. *)
Lemma quoted_and_uppercase_etags_are_checked :
  lowerHex32 (quoted md5_777) = false
  ∧ fst (fetchToFile (plainAttempt (λ _, Ok (respond 200 [("ETag", quoted md5_777)] "abc")))
           exampleURL (TempFile "/uncached" "k-") noCachingInfo exampleWorld)
    = ("", noCachingInfo, Some ChecksumMismatchError)
  ∧ lowerHex32 "F1C1592588411002AF340CBAEDD6FC33" = false
  ∧ fst (fetchToFile
           (plainAttempt
              (λ _, Ok (respond 200 [("ETag", "F1C1592588411002AF340CBAEDD6FC33")] "abc")))
           exampleURL (TempFile "/uncached" "k-") noCachingInfo exampleWorld)
    = ("", noCachingInfo, Some ChecksumMismatchError).
Proof. repeat split; vm_compute; reflexivity. Qed.
(** *** Construction *)












Section Construction.
Context {C : Type} {FC : FileCache C}.
Variables (cachedPath uncachedPath : string) (maxSizeInBytes downloadTimeout : Z)
          (maxConcurrentDownloads : Z) (skipSSLVerification : bool)
          (transformer : CacheTransformer) (o : OS).

End Construction.


(** The paths of one directory: doubled separators, single-dot elements and
    a separator at the end do not matter, and the root resolves to itself. *)
Example Clean_resolves :
  Clean <$> ["/var/cached/"; "/var//cached"; "/var/./cached"; "/var/cached"; "/"; "//"]
  = ["/var/cached"; "/var/cached"; "/var/cached"; "/var/cached"; "/"; "/"].
Proof. vm_compute. reflexivity. Qed.

(** At the root the construction removes every rooted name and creates
    nothing: the root is a directory without an entry. *)
Example New_at_the_root :
  fs (snd (New (C := SpecCache.Index) "/" "/uncached" 1024 1 10 false NoopTransform staleOS))
  = ∅
  ∧ isDir "/" ∅ = true.
Proof. split; vm_compute; reflexivity. Qed.

Section CoordinatorProofs.
Context {C : Type} {FC : FileCache C}.
Variable TarTransform : CacheTransformer.
Implicit Types (c : cachedDownloader C) (w : World) (env : Env).

Lemma acquireLimiter_free env cacheKey c :
  inProgress c !! cacheKey = None →
  acquireLimiter env cacheKey c
  = (Granted (chans c),
     {| downloader := downloader c; uncachedPath := uncachedPath c; cache := cache c;
        transformer := transformer c;
        inProgress := <[cacheKey := chans c]> (inProgress c);
        chans := S (chans c); closed := closed c |}).
Proof. intros Hfree. unfold acquireLimiter. by rewrite Hfree. Qed.

Lemma releaseLimiter_acquired env cacheKey c cache' :
  inProgress c !! cacheKey = None →
  releaseLimiter cacheKey (chans c) (withCache (snd (acquireLimiter env cacheKey c)) cache')
  = afterCall c cache'.
Proof.
  intros Hfree. rewrite acquireLimiter_free by done.
  unfold releaseLimiter, withCache, afterCall; simpl. f_equal.
  by apply delete_insert_id.
Qed.

Lemma populateCache_uncachedPath env url name info tr c c' w :
  uncachedPath c = uncachedPath c' → downloader c = downloader c' →
  populateCache env url name info tr c w = populateCache env url name info tr c' w.
Proof. intros Hsame Hdl. unfold populateCache. by rewrite Hsame, Hdl. Qed.

Lemma release_installed cacheKey c cache' :
  inProgress c !! cacheKey = None →
  releaseLimiter cacheKey (chans c) (withCache (installed cacheKey c) cache') = afterCall c cache'.
Proof.
  intros Hfree. unfold releaseLimiter, withCache, installed, afterCall; simpl. f_equal.
  by apply delete_insert_id.
Qed.

Lemma keyed cacheKey : cacheKey ≠ "" → String.eqb cacheKey "" = false.
Proof. intros Hne. by apply String.eqb_neq. Qed.

Ltac enter Hkey Hfree :=
  unfold Fetch, FetchAsDirectory, fetchCachedFile, fetchCachedDirectory;
  rewrite ?(keyed _ Hkey), (acquireLimiter_free _ _ _ Hfree);
  match type of Hfree with inProgress ?c !! ?k = None => fold (installed k c) end.

Ltac released Hfree :=
  unfold releaseLimiter, withCache, installed, afterCall; simpl;
  rewrite (delete_insert_id _ _ _ Hfree); reflexivity.

(** C5: a [Fetch] with a non-empty cache key whose limiter is free, and for
    which [Download] reports a warm cache (empty path, no error), returns the
    handle, and the error, of the cache probe it made before, with size 0; the
    cache is left as the probe left it and so are the files: nothing was
    downloaded and no byte of the entry changed. *)
Theorem Fetch_warm env url cacheKey c w currentReader currentCachingInfo getErr cache1 o1
    cachingInfoOut w2 :
  cacheKey ≠ "" →
  inProgress c !! fingerprint cacheKey = None →
  cache_Get (fingerprint cacheKey) (cache c) (os w)
    = ((currentReader, currentCachingInfo, getErr), cache1, o1) →
  Download (downloader c) env url (TempFile (uncachedPath c) (fingerprint cacheKey +:+ "-"))
    currentCachingInfo (setOS o1 w) = Some (("", cachingInfoOut, None), w2) →
  Fetch env url cacheKey c w = Some ((currentReader, 0, getErr), afterCall c cache1, w2)
  ∧ fs (os w2) = fs o1.
Proof.
  intros Hkey Hfree Hget Hwarm. split.
  - enter Hkey Hfree. simpl. rewrite Hget.
    unfold populateCache. simpl. rewrite Hwarm. simpl.
    released Hfree.
  - apply Download_warm in Hwarm; [done|apply TempFile_fresh|apply TempFile_names].
Qed.

Lemma not_NotEnoughSpace (err : option error) :
  err ≠ Some NotEnoughSpace → isNotEnoughSpace err = false.
Proof. by destruct err as [[]|]. Qed.

Lemma tempFileRemoveOnClose_exists path o :
  exists_ path (fs o) = true →
  tempFileRemoveOnClose path o = (Some (removeOnClose path), None).
Proof. intros Hex. unfold tempFileRemoveOnClose. by rewrite Hex. Qed.

(** C1: when the download yields fresh cacheable bytes and adding them to the
    cache fails with [NotEnoughSpace], [Fetch] (non-empty key) does not return
    that error: with the transformed file still in place it returns a
    delete-on-close handle to it, the size, and no error; [FetchAsDirectory]
    in the same situation returns the [NotEnoughSpace] error and no path. *)
Theorem NotEnoughSpace_surfaces_only_for_directories env url cacheKey c w :
  inProgress c !! fingerprint cacheKey = None →
  (∀ currentReader currentCachingInfo getErr cache1 o1 download size w2
     cache2 o2 newReader cache3 o3,
     cacheKey ≠ "" →
     cache_Get (fingerprint cacheKey) (cache c) (os w)
       = ((currentReader, currentCachingInfo, getErr), cache1, o1) →
     populateCache env url (fingerprint cacheKey) currentCachingInfo (transformer c) c
       (setOS o1 w) = Some ((download, false, size, None), w2) →
     isCacheable (dl_cachingInfo download) = true →
     closeIfOpen currentReader cache1 (os w2) = (cache2, o2) →
     cache_Add (fingerprint cacheKey) (dl_path download) (dl_size download)
       (dl_cachingInfo download) cache2 o2 = ((newReader, Some NotEnoughSpace), cache3, o3) →
     exists_ (dl_path download) (fs o3) = true →
     Fetch env url cacheKey c w
     = Some ((Some (removeOnClose (dl_path download)), size, None),
             afterCall c cache3, setOS o3 w2))
  ∧ (∀ currentDirectory currentCachingInfo getErr cache1 o1 download size w2
       cache2 o2 newDirectory cache3 o3,
       cache_GetDirectory (fingerprint cacheKey) (cache c) (os w)
         = ((currentDirectory, currentCachingInfo, getErr), cache1, o1) →
       getErr ≠ Some NotEnoughSpace →
       populateCache env url (fingerprint cacheKey) currentCachingInfo TarTransform c
         (setOS o1 w) = Some ((download, false, size, None), w2) →
       isCacheable (dl_cachingInfo download) = true →
       closeDirectoryIfAny (fingerprint cacheKey) currentDirectory cache1 (os w2)
         = (cache2, o2) →
       cache_AddDirectory (fingerprint cacheKey) (dl_path download) (dl_size download)
         (dl_cachingInfo download) cache2 o2
         = ((newDirectory, Some NotEnoughSpace), cache3, o3) →
       FetchAsDirectory TarTransform env url cacheKey c w
       = Some (("", Some NotEnoughSpace), afterCall c cache3, setOS o3 w2)).
Proof.
  intros Hfree. split.
  - intros * Hkey Hget Hpop Hcacheable Hclose Hadd Hthere.
    enter Hkey Hfree. simpl. rewrite Hget.
    rewrite (populateCache_uncachedPath _ _ _ _ _ _ c) by done.
    rewrite Hpop. unfold onCache; simpl. rewrite Hclose, Hcacheable. simpl.
    rewrite Hadd. simpl. rewrite (tempFileRemoveOnClose_exists _ _ Hthere).
    released Hfree.
  - intros * Hget HgetErr Hpop Hcacheable Hclose Hadd.
    enter I Hfree. simpl. rewrite Hget, (not_NotEnoughSpace _ HgetErr).
    rewrite (populateCache_uncachedPath _ _ _ _ _ _ c) by done.
    rewrite Hpop. unfold onCache; simpl. rewrite Hclose, Hcacheable. simpl.
    rewrite Hadd. simpl. released Hfree.
Qed.

(** C6: when the download yields fresh bytes whose validator has neither ETag
    nor Last-Modified, [Fetch] (non-empty key) calls [Remove] for the
    fingerprint, leaves the cache as that call left it, and returns the
    transformed file as a delete-on-close handle; [FetchAsDirectory] calls
    [Remove] as well and returns the [NotCacheable] error with no path. *)
Theorem not_cacheable_bytes env url cacheKey c w :
  inProgress c !! fingerprint cacheKey = None →
  (∀ currentReader currentCachingInfo getErr cache1 o1 download size w2
     cache2 o2 cache3 o3,
     cacheKey ≠ "" →
     cache_Get (fingerprint cacheKey) (cache c) (os w)
       = ((currentReader, currentCachingInfo, getErr), cache1, o1) →
     populateCache env url (fingerprint cacheKey) currentCachingInfo (transformer c) c
       (setOS o1 w) = Some ((download, false, size, None), w2) →
     isCacheable (dl_cachingInfo download) = false →
     closeIfOpen currentReader cache1 (os w2) = (cache2, o2) →
     cache_Remove (fingerprint cacheKey) cache2 o2 = (cache3, o3) →
     exists_ (dl_path download) (fs o3) = true →
     Fetch env url cacheKey c w
     = Some ((Some (removeOnClose (dl_path download)), size, None),
             afterCall c cache3, setOS o3 w2))
  ∧ (∀ currentDirectory currentCachingInfo getErr cache1 o1 download size w2
       cache2 o2 cache3 o3,
       cache_GetDirectory (fingerprint cacheKey) (cache c) (os w)
         = ((currentDirectory, currentCachingInfo, getErr), cache1, o1) →
       getErr ≠ Some NotEnoughSpace →
       populateCache env url (fingerprint cacheKey) currentCachingInfo TarTransform c
         (setOS o1 w) = Some ((download, false, size, None), w2) →
       isCacheable (dl_cachingInfo download) = false →
       closeDirectoryIfAny (fingerprint cacheKey) currentDirectory cache1 (os w2)
         = (cache2, o2) →
       cache_Remove (fingerprint cacheKey) cache2 o2 = (cache3, o3) →
       FetchAsDirectory TarTransform env url cacheKey c w
       = Some (("", Some NotCacheable), afterCall c cache3, setOS o3 w2)).
Proof.
  intros Hfree. split.
  - intros * Hkey Hget Hpop Hcacheable Hclose Hremove Hthere.
    enter Hkey Hfree. simpl. rewrite Hget.
    rewrite (populateCache_uncachedPath _ _ _ _ _ _ c) by done.
    rewrite Hpop. unfold onCache; simpl. rewrite Hclose, Hcacheable. simpl.
    rewrite Hremove. simpl. rewrite (tempFileRemoveOnClose_exists _ _ Hthere).
    released Hfree.
  - intros * Hget HgetErr Hpop Hcacheable Hclose Hremove.
    enter I Hfree. simpl. rewrite Hget, (not_NotEnoughSpace _ HgetErr).
    rewrite (populateCache_uncachedPath _ _ _ _ _ _ c) by done.
    rewrite Hpop. unfold onCache; simpl. rewrite Hclose, Hcacheable. simpl.
    rewrite Hremove. simpl. released Hfree.
Qed.

Lemma populateCache_fresh env url name info tr c w filename cachingInfoOut w2 raw
    cachedFile o3 cachedSize o4 :
  Download (downloader c) env url (TempFile (uncachedPath c) (name +:+ "-")) info w
    = Some ((filename, cachingInfoOut, None), w2) →
  filename ≠ "" →
  fs (os w2) !! filename = Some (File raw) →
  TempFile (uncachedPath c) "transformed" (os w2) = (Ok cachedFile, o3) →
  env_closeErr env = None →
  tr filename cachedFile o3 = ((cachedSize, None), o4) →
  populateCache env url name info tr c w
  = Some (({| dl_path := cachedFile; dl_size := cachedSize;
              dl_cachingInfo := cachingInfoOut |},
           false, Z.of_nat (length raw), None), setOS o4 w2).
Proof.
  intros Hdl Hname Hraw Htmp Hclose Htr. unfold populateCache.
  rewrite Hdl. apply String.eqb_neq in Hname. rewrite Hname.
  unfold StatSize. rewrite Hraw. unfold inOS. rewrite Htmp, Hclose. simpl.
  by rewrite Htr.
Qed.

Lemma fetchCachedFile_passes_size env url key c w currentReader currentCachingInfo getErr
    cache1 o1 download size w2 :
  inProgress c !! key = None →
  cache_Get key (cache c) (os w) = ((currentReader, currentCachingInfo, getErr), cache1, o1) →
  populateCache env url key currentCachingInfo (transformer c) c (setOS o1 w)
    = Some ((download, false, size, None), w2) →
  ∃ stream err cache' w',
    fetchCachedFile env url key c w = Some ((stream, size, err), afterCall c cache', w').
Proof.
  intros Hfree Hget Hpop. unfold fetchCachedFile.
  rewrite (acquireLimiter_free _ _ _ Hfree). fold (installed key c). simpl. rewrite Hget.
  rewrite (populateCache_uncachedPath _ _ _ _ _ _ c) by done.
  rewrite Hpop. unfold onCache; simpl.
  destruct (closeIfOpen currentReader cache1 (os w2)) as [cache2 o2].
  destruct (isCacheable (dl_cachingInfo download)).
  - destruct (cache_Add _ _ _ _ _ _) as [[[newReader err] cache3] o3]; simpl.
    destruct (isNotEnoughSpace err).
    + destruct (tempFileRemoveOnClose _ _) as [file err'].
      eexists _, _, cache3, _. f_equal. f_equal. f_equal. released Hfree.
    + eexists _, _, cache3, _. f_equal. f_equal. f_equal. released Hfree.
  - destruct (cache_Remove _ _ _) as [cache3 o3]; simpl.
    destruct (tempFileRemoveOnClose _ _) as [file err'].
    eexists _, _, cache3, _. f_equal. f_equal. f_equal. released Hfree.
Qed.

(** C10: when a [Fetch] obtains fresh bytes, the size it returns is the
    length of the downloaded file as [os.Stat] saw it before the transformer
    ran, with or without a cache key and on every path of the cached fetch;
    the size given to [cache.Add], which a cache that stores the size it is
    given keeps in the entry, is the one the transformer reported; so the
    returned size is not the stored one whenever the two differ. *)
Theorem Fetch_sizes env url cacheKey c w (entrySize : C → string → option Z) :
  (∀ k p sz ci cache o h cache' o',
     cache_Add k p sz ci cache o = ((Some h, None), cache', o') →
     entrySize cache' k = Some sz) →
  inProgress c !! fingerprint cacheKey = None →
  ∀ filename cachingInfoOut w2 raw cachedFile o3 cachedSize o4,
    filename ≠ "" →
    fs (os w2) !! filename = Some (File raw) →
    TempFile (uncachedPath c) "transformed" (os w2) = (Ok cachedFile, o3) →
    env_closeErr env = None →
    transformer c filename cachedFile o3 = ((cachedSize, None), o4) →
    (cacheKey = "" →
     Download (downloader c) env url (TempFile (uncachedPath c) "uncached-") noCachingInfo w
       = Some ((filename, cachingInfoOut, None), w2) →
     ∃ stream err,
       Fetch env url cacheKey c w
       = Some ((stream, Z.of_nat (length raw), err), c, setOS o4 w2))
    ∧ (cacheKey ≠ "" →
       ∀ currentReader currentCachingInfo getErr cache1 o1,
         cache_Get (fingerprint cacheKey) (cache c) (os w)
           = ((currentReader, currentCachingInfo, getErr), cache1, o1) →
         Download (downloader c) env url (TempFile (uncachedPath c) (fingerprint cacheKey +:+ "-"))
           currentCachingInfo (setOS o1 w) = Some ((filename, cachingInfoOut, None), w2) →
         (∃ stream err cache' w',
            Fetch env url cacheKey c w
            = Some ((stream, Z.of_nat (length raw), err), afterCall c cache', w'))
         ∧ (∀ cache2 o2 newReader cache3 o5,
              isCacheable cachingInfoOut = true →
              closeIfOpen currentReader cache1 o4 = (cache2, o2) →
              cache_Add (fingerprint cacheKey) cachedFile cachedSize cachingInfoOut cache2 o2
                = ((Some newReader, None), cache3, o5) →
              Fetch env url cacheKey c w
              = Some ((Some newReader, Z.of_nat (length raw), None),
                      afterCall c cache3, setOS o5 w2)
              ∧ entrySize (cache (afterCall c cache3)) (fingerprint cacheKey)
                = Some cachedSize
              ∧ (cachedSize ≠ Z.of_nat (length raw) →
                 entrySize (cache (afterCall c cache3)) (fingerprint cacheKey)
                 ≠ Some (Z.of_nat (length raw))))).
Proof.
  intros Hstores Hfree * Hname Hraw Htmp Hclose Htr. split.
  - intros -> Hdl. unfold Fetch, fetchUncachedFile. rewrite String.eqb_refl.
    rewrite (populateCache_fresh env url "uncached" noCachingInfo (transformer c) c w
               filename cachingInfoOut w2 raw cachedFile o3 cachedSize o4
               Hdl Hname Hraw Htmp Hclose Htr).
    cbn [dl_path]. destruct (tempFileRemoveOnClose cachedFile _) as [file err]. eauto.
  - intros Hkey * Hget Hdl.
    pose proof (populateCache_fresh env url (fingerprint cacheKey) currentCachingInfo
                  (transformer c) c (setOS o1 w)
                  filename cachingInfoOut w2 raw cachedFile o3 cachedSize o4
                  Hdl Hname Hraw Htmp Hclose Htr) as Hpop.
    split.
    + unfold Fetch. rewrite (keyed _ Hkey).
      by eapply fetchCachedFile_passes_size.
    + intros * Hcacheable Hcl Hadd.
      assert (entrySize (cache (afterCall c cache3)) (fingerprint cacheKey) = Some cachedSize)
        as Hstored by (simpl; by eapply Hstores).
      split; [|split; [done|]].
      * enter Hkey Hfree. simpl. rewrite Hget.
        rewrite (populateCache_uncachedPath _ _ _ _ _ _ c) by done.
        rewrite Hpop. unfold onCache; simpl. rewrite Hcl, Hcacheable. simpl.
        rewrite Hadd. simpl. released Hfree.
      * rewrite Hstored. congruence.
Qed.

End CoordinatorProofs.

(** *** The coordinator on the cache of the specification *)

Lemma SpecCache_Add_stores k p sz ci idx o h idx' o' :
  SpecCache.Add k p sz ci idx o = ((Some h, None), idx', o') → entrySize idx' k = Some sz.
Proof.
  unfold SpecCache.Add, entrySize.
  destruct (SpecCache.victims _ _); [|done].
  destruct (foldr _ _ _) as [idx1 o1]. destruct (SpecCache.unlink _ _ _) as [idx2 o2].
  destruct (SpecCache.Rename _ _ _) as [[err|] f]; [done|].
  intros [= _ <- _]. simpl. by rewrite lookup_insert_eq.
Qed.

Lemma Fetch_warm_witness :
  returned (Fetch (calmEnv (origin "v1" "777")) exampleURL "k" warmCoordinator warmWorld)
  = Some (Some {| cf_name := "/cached/" +:+ fingerprint "k" +:+ "-1";
                  cf_hook := ReleaseOnClose (fingerprint "k") |}, 0, None).
Proof.
  pose (probe := cache_Get (fingerprint "k") (cache warmCoordinator) (os warmWorld)).
  pose (dl := default (("", noCachingInfo, None), warmWorld)
                (Download (downloader warmCoordinator) (calmEnv (origin "v1" "777")) exampleURL
                   (TempFile (uncachedPath warmCoordinator) (fingerprint "k" +:+ "-"))
                   probe.1.1.1.2 (setOS probe.2 warmWorld))).
  destruct (Fetch_warm (calmEnv (origin "v1" "777")) exampleURL "k" warmCoordinator warmWorld
              probe.1.1.1.1 probe.1.1.1.2 probe.1.1.2 probe.1.2 probe.2 dl.1.1.2 dl.2)
    as [Hfetch _].
  - discriminate.
  - vm_compute; reflexivity.
  - vm_compute; reflexivity.
  - vm_compute; reflexivity.
  - rewrite Hfetch. (vm_compute; reflexivity).
Defined.

Lemma NotEnoughSpace_surfaces_only_for_directories_witness :
  returned (Fetch (calmEnv (origin "v1" "777")) exampleURL "k" (exampleCoordinator 2)
              exampleStart)
  = Some (Some (removeOnClose "/uncached/transformed1"), 3, None)
  ∧ returned (FetchAsDirectory unpackSingle (calmEnv (origin "v1" "777")) exampleURL "k"
                (exampleCoordinator 2) exampleStart)
    = Some ("", Some NotEnoughSpace).
Proof.
  pose (env := calmEnv (origin "v1" "777")). pose (c := exampleCoordinator 2).
  pose (key := fingerprint "k").
  destruct (NotEnoughSpace_surfaces_only_for_directories unpackSingle env exampleURL "k"
              c exampleStart ltac:(vm_compute; reflexivity)) as [HF HD].
  split.
  - pose (probe := cache_Get key (cache c) (os exampleStart)).
    pose (pop := default ((noDownload, false, 0, None), exampleStart)
                   (populateCache env exampleURL key probe.1.1.1.2 (transformer c) c
                      (setOS probe.2 exampleStart))).
    pose (cl := closeIfOpen probe.1.1.1.1 probe.1.2 (os pop.2)).
    pose (add := cache_Add key (dl_path pop.1.1.1.1) (dl_size pop.1.1.1.1)
                   (dl_cachingInfo pop.1.1.1.1) cl.1 cl.2).
    fold env c.
    rewrite (HF probe.1.1.1.1 probe.1.1.1.2 probe.1.1.2 probe.1.2 probe.2
               pop.1.1.1.1 pop.1.1.2 pop.2 cl.1 cl.2 add.1.1.1 add.1.2 add.2);
      first [discriminate|vm_compute; reflexivity|vm_compute; split; reflexivity].
  - pose (probe := cache_GetDirectory key (cache c) (os exampleStart)).
    pose (pop := default ((noDownload, false, 0, None), exampleStart)
                   (populateCache env exampleURL key probe.1.1.1.2 unpackSingle c
                      (setOS probe.2 exampleStart))).
    pose (cl := closeDirectoryIfAny key probe.1.1.1.1 probe.1.2 (os pop.2)).
    pose (add := cache_AddDirectory key (dl_path pop.1.1.1.1) (dl_size pop.1.1.1.1)
                   (dl_cachingInfo pop.1.1.1.1) cl.1 cl.2).
    fold env c.
    rewrite (HD probe.1.1.1.1 probe.1.1.1.2 probe.1.1.2 probe.1.2 probe.2
               pop.1.1.1.1 pop.1.1.2 pop.2 cl.1 cl.2 add.1.1.1 add.1.2 add.2);
      first [discriminate|vm_compute; reflexivity|vm_compute; split; reflexivity].
Defined.

Lemma not_cacheable_bytes_witness :
  match Fetch (calmEnv (origin "" "777")) exampleURL "k" warmCoordinator warmWorld with
  | Some (r, c', _) =>
      r = (Some (removeOnClose "/uncached/transformed3"), 3, None)
      ∧ entrySize (cache c') (fingerprint "k") = None
  | None => False
  end
  ∧ match FetchAsDirectory unpackSingle (calmEnv (origin "" "777")) exampleURL "k"
            warmCoordinator warmWorld with
    | Some (r, c', _) =>
        r = ("", Some NotCacheable) ∧ entrySize (cache c') (fingerprint "k") = None
    | None => False
    end.
Proof.
  pose (env := calmEnv (origin "" "777")). pose (c := warmCoordinator).
  pose (key := fingerprint "k").
  destruct (not_cacheable_bytes unpackSingle env exampleURL "k" c warmWorld
              ltac:(vm_compute; reflexivity)) as [HF HD].
  split.
  - pose (probe := cache_Get key (cache c) (os warmWorld)).
    pose (pop := default ((noDownload, false, 0, None), warmWorld)
                   (populateCache env exampleURL key probe.1.1.1.2 (transformer c) c
                      (setOS probe.2 warmWorld))).
    pose (cl := closeIfOpen probe.1.1.1.1 probe.1.2 (os pop.2)).
    pose (rm := cache_Remove key cl.1 cl.2).
    specialize (HF probe.1.1.1.1 probe.1.1.1.2 probe.1.1.2 probe.1.2 probe.2
                  pop.1.1.1.1 pop.1.1.2 pop.2 cl.1 cl.2 rm.1 rm.2
                  ltac:(discriminate) ltac:(vm_compute; reflexivity)
                  ltac:(vm_compute; reflexivity) ltac:(vm_compute; reflexivity)
                  ltac:(vm_compute; reflexivity) ltac:(vm_compute; reflexivity)
                  ltac:(vm_compute; reflexivity)).
    fold env c. rewrite HF. vm_compute. split; reflexivity.
  - pose (probe := cache_GetDirectory key (cache c) (os warmWorld)).
    pose (pop := default ((noDownload, false, 0, None), warmWorld)
                   (populateCache env exampleURL key probe.1.1.1.2 unpackSingle c
                      (setOS probe.2 warmWorld))).
    pose (cl := closeDirectoryIfAny key probe.1.1.1.1 probe.1.2 (os pop.2)).
    pose (rm := cache_Remove key cl.1 cl.2).
    specialize (HD probe.1.1.1.1 probe.1.1.1.2 probe.1.1.2 probe.1.2 probe.2
                  pop.1.1.1.1 pop.1.1.2 pop.2 cl.1 cl.2 rm.1 rm.2
                  ltac:(vm_compute; reflexivity) ltac:(vm_compute; discriminate)
                  ltac:(vm_compute; reflexivity) ltac:(vm_compute; reflexivity)
                  ltac:(vm_compute; reflexivity) ltac:(vm_compute; reflexivity)).
    fold env c. rewrite HD. vm_compute. split; reflexivity.
Defined.

Lemma Fetch_sizes_witness :
  match Fetch (calmEnv (origin "v1" "777")) exampleURL "k" transformingCoordinator
          exampleStart with
  | Some ((stream, size, err), c', _) =>
      size = 3 ∧ err = None ∧ entrySize (cache c') (fingerprint "k") = Some 100
  | None => False
  end.
Proof.
  pose (env := calmEnv (origin "v1" "777")). pose (c := transformingCoordinator).
  pose (key := fingerprint "k").
  pose (probe := cache_Get key (cache c) (os exampleStart)).
  pose (dl := default (("", noCachingInfo, None), exampleStart)
                (Download (downloader c) env exampleURL
                   (TempFile (uncachedPath c) (key +:+ "-"))
                   probe.1.1.1.2 (setOS probe.2 exampleStart))).
  pose (tmp := TempFile (uncachedPath c) "transformed" (os dl.2)).
  pose (tr := transformer c dl.1.1.1 "/uncached/transformed1" tmp.2).
  destruct (Fetch_sizes (FC := SpecCache.fileCache) env exampleURL "k" c exampleStart
              entrySize SpecCache_Add_stores
              ltac:(vm_compute; reflexivity)
              dl.1.1.1 dl.1.1.2 dl.2 (list_byte_of_string "777")
              "/uncached/transformed1" tmp.2 100 tr.2
              ltac:(vm_compute; discriminate) ltac:(vm_compute; reflexivity)
              ltac:(vm_compute; reflexivity) ltac:(vm_compute; reflexivity)
              ltac:(vm_compute; reflexivity)) as [_ Hkeyed].
  destruct (Hkeyed ltac:(discriminate) probe.1.1.1.1 probe.1.1.1.2 probe.1.1.2 probe.1.2 probe.2
              ltac:(vm_compute; reflexivity) ltac:(vm_compute; reflexivity)) as [_ Hcached].
  pose (cl := closeIfOpen probe.1.1.1.1 probe.1.2 tr.2).
  pose (add := cache_Add key "/uncached/transformed1" 100 dl.1.1.2 cl.1 cl.2).
  destruct (Hcached cl.1 cl.2 {| cf_name := "/cached/" +:+ key +:+ "-1";
                                 cf_hook := ReleaseOnClose key |} add.1.2 add.2
              ltac:(vm_compute; reflexivity) ltac:(vm_compute; reflexivity) ltac:(vm_compute; reflexivity))
    as (Hfetch & Hstored & _).
  fold env c. rewrite Hfetch. split; [vm_compute; reflexivity|].
  split; [reflexivity|]. exact Hstored.
Defined.
Section GateProofs.
Import Gate.

Lemma move_lookup i k p s j kq :
  move i k p s !! j = Some kq →
  (j = i ∧ kq = (k, p)) ∨ (j ≠ i ∧ threads s !! j = Some kq).
Proof.
  unfold move. intros Hj.
  destruct (decide (j = i)) as [->|Hne].
  - left. split; [done|].
    assert (i < length (threads s))%nat as Hlt.
    { apply lookup_lt_Some in Hj. by rewrite length_insert in Hj. }
    rewrite list_lookup_insert_eq in Hj by done. congruence.
  - right. split; [done|]. by rewrite list_lookup_insert_ne in Hj.
Qed.

Ltac moved H :=
  apply move_lookup in H as [[-> H]|[? H]]; [inversion H; subst; clear H|].

Lemma initial_Inv keys : Inv (initial keys).
Proof.
  split; simpl; intros;
    repeat match goal with
    | H : (_ <$> _) !! _ = Some _ |- _ => apply list_lookup_fmap_Some in H as (? & ? & ?)
    | H : is_Some (holds _) |- _ => destruct H as [? H]
    end; by simplify_eq/=.
Qed.

Ltac learn H :=
  let T := type of H in
  lazymatch goal with
  | _ : T |- _ => fail
  | _ => pose proof H
  end.

Ltac saturate HL HH HI HU :=
  repeat match goal with
  | H : threads _ !! _ = Some (_, _) |- _ => learn (HL _ _ _ H eq_refl)
  | H : threads _ !! _ = Some (_, ?p), Hl : locked ?p = true |- _ => learn (HL _ _ _ H Hl)
  | H : threads _ !! _ = Some (_, _) |- _ => learn (HH _ _ _ _ H eq_refl)
  | H : threads _ !! _ = Some (_, ?p), Hh : holds ?p = Some _ |- _ => learn (HH _ _ _ _ H Hh)
  | H : threads _ !! _ = Some (_, AtInstall) |- _ => learn (HI _ _ H)
  | H1 : threads _ !! ?i = Some (?k, ?p), H2 : threads _ !! ?j = Some (?k, ?q) |- _ =>
      learn (HU i j k p q H1 H2 ltac:(simpl; eauto) ltac:(simpl; eauto))
  end.

Lemma step_Inv s s' : Inv s → step s s' → Inv s'.
Proof.
  intros [HL HH HI HU] Hstep.
  inversion Hstep; subst; clear Hstep; split; simpl;
    repeat match goal with
    | |- ∀ _, _ => intro
    | H : move _ _ _ _ !! _ = Some _ |- _ => moved H
    | H : is_Some (holds _) |- _ => destruct H as [? H]
    end; simpl in *; try done; try congruence; eauto;
    saturate HL HH HI HU; simplify_eq/=; try done; try congruence.
  - by rewrite lookup_insert_eq.
  - destruct (decide (k = k0)) as [->|]; [congruence|]. by rewrite lookup_insert_ne.
  - destruct (decide (k = k0)) as [->|]; [|by rewrite lookup_delete_ne].
    exfalso. match goal with Hne : _ ≠ _ |- _ => apply Hne end.
    eapply HU; [done..|simpl; eauto|simpl; eauto].
Qed.

Lemma reachable_Inv keys s : reachable keys s → Inv s.
Proof.
  induction 1 as [|s s' _ IH Hstep]; [apply initial_Inv|by eapply step_Inv].
Qed.

(** C9: at every reachable state of the limiter, two goroutines with the same
    cache key never hold the gate of that key together, so at most one of them
    has its GET in flight; a goroutine that waits in the select can only keep
    waiting, go back to the start of [acquireLimiter] once the limiter it
    waits for is closed, or return on cancellation; and a goroutine only
    starts its download from the cache probe it made itself. *)
Theorem single_flight keys s :
  reachable keys s →
  (∀ i j k p q, threads s !! i = Some (k, p) → threads s !! j = Some (k, q) →
                is_Some (holds p) → is_Some (holds q) → i = j)
  ∧ (∀ i j k p q, threads s !! i = Some (k, p) → threads s !! j = Some (k, q) →
                  inFlight p = true → inFlight q = true → i = j)
  ∧ (∀ s' i k ch p', step s s' → threads s !! i = Some (k, AtSelect ch) →
                     threads s' !! i = Some (k, p') →
                     p' = AtSelect ch ∨ (p' = AtLock ∧ ch ∈ closed s) ∨ p' = Returned)
  ∧ (∀ s' i k ch, step s s' → threads s' !! i = Some (k, AtDownload ch) →
                  threads s !! i = Some (k, AtDownload ch)
                  ∨ threads s !! i = Some (k, AtGet ch)).
Proof.
  intros Hreach. apply reachable_Inv in Hreach as [HL HH HI HU].
  split; [exact HU|]. split; [|split].
  - intros i j k p q Hi Hj Hp Hq. eapply HU; [done..| |].
    + destruct p; try done; simpl; eauto.
    + destruct q; try done; simpl; eauto.
  - intros s' i k ch p' Hstep Hi Hi'.
    inversion Hstep; subst; simpl in *; moved Hi'; simplify_eq/=; eauto.
  - intros s' i k ch Hstep Hi'.
    inversion Hstep; subst; simpl in *; moved Hi'; simplify_eq/=; eauto.
Qed.

Lemma exampleRace_reachable : reachable ["k"; "k"] exampleRace.
Proof.
  pose (st := λ l m n t, {| lock := l; inProgress := m; closed := (∅ : gset nat);
                            chans := n; threads := t |}).
  pose (s1 := st (Some 0%nat) ∅ 0%nat [("k", AtRead); ("k", AtLock)]).
  pose (s2 := st (Some 0%nat) ∅ 0%nat [("k", AtInstall); ("k", AtLock)]).
  pose (s3 := st (Some 0%nat) (<["k" := 0%nat]> ∅) 1%nat
                 [("k", AtUnlockReturn 0); ("k", AtLock)]).
  pose (s4 := st None (<["k" := 0%nat]> ∅) 1%nat [("k", AtGet 0); ("k", AtLock)]).
  pose (s5 := st None (<["k" := 0%nat]> ∅) 1%nat [("k", AtDownload 0); ("k", AtLock)]).
  pose (s6 := st (Some 1%nat) (<["k" := 0%nat]> ∅) 1%nat
                 [("k", AtDownload 0); ("k", AtRead)]).
  pose (s7 := st (Some 1%nat) (<["k" := 0%nat]> ∅) 1%nat
                 [("k", AtDownload 0); ("k", AtUnlockWait 0)]).
  assert (reachable ["k"; "k"] s1) as H1.
  { apply (reachable_step _ (initial ["k"; "k"])); [apply reachable_initial|].
    exact (step_lock 0 "k" (initial ["k"; "k"]) eq_refl eq_refl). }
  assert (reachable ["k"; "k"] s2) as H2.
  { apply (reachable_step _ s1 _ H1). exact (step_read_nil 0 "k" s1 eq_refl eq_refl). }
  assert (reachable ["k"; "k"] s3) as H3.
  { apply (reachable_step _ s2 _ H2). exact (step_install 0 "k" s2 eq_refl). }
  assert (reachable ["k"; "k"] s4) as H4.
  { apply (reachable_step _ s3 _ H3). exact (step_unlock_return 0 "k" 0 s3 eq_refl). }
  assert (reachable ["k"; "k"] s5) as H5.
  { apply (reachable_step _ s4 _ H4). exact (step_probe 0 "k" 0 s4 eq_refl). }
  assert (reachable ["k"; "k"] s6) as H6.
  { apply (reachable_step _ s5 _ H5). exact (step_lock 1 "k" s5 eq_refl eq_refl). }
  assert (reachable ["k"; "k"] s7) as H7.
  { apply (reachable_step _ s6 _ H6).
    exact (step_read_found 1 "k" 0 s6 eq_refl (lookup_insert_eq _ _ _)). }
  apply (reachable_step _ s7 _ H7). exact (step_unlock_wait 1 "k" 0 s7 eq_refl).
Qed.

Lemma single_flight_witness :
  reachable ["k"; "k"] exampleRace
  ∧ (∀ i j k p q, threads exampleRace !! i = Some (k, p) →
                  threads exampleRace !! j = Some (k, q) →
                  inFlight p = true → inFlight q = true → i = j).
Proof.
  split; [exact exampleRace_reachable|].
  exact (proj1 (proj2 (single_flight ["k"; "k"] exampleRace exampleRace_reachable))).
Defined.

End GateProofs.
(** * Further properties *)

(** ** Further properties of the downloader *)

Lemma sent_record_attempt url w : sent (record (EvAttempt url) w) = sent w.
Proof. unfold sent, record; simpl. rewrite omap_app. simpl. by rewrite app_nil_r. Qed.

Lemma sent_record_get req w : sent (record (EvGet req) w) = (sent w ++ [req])%list.
Proof. unfold sent, record; simpl. by rewrite omap_app. Qed.

Lemma sent_inOS {A} (f : OS → A * OS) w : sent (snd (inOS f w)) = sent w.
Proof. unfold inOS. by destruct (f (os w)). Qed.

(** One attempt sends at most one request, the one for the validator it was given. *)
Lemma sent_fetchToFile at_ url mk info w :
  sent (snd (fetchToFile at_ url mk info w))
  = (sent w ++ match at_NewRequest at_ with None => [requestFor url info] | Some _ => [] end)%list.
Proof.
  unfold fetchToFile.
  destruct (at_NewRequest at_); simpl; [by rewrite sent_record_attempt, app_nil_r|].
  fold (requestFor url info).
  set (w1 := record (EvGet _) _).
  assert (sent w1 = (sent w ++ [requestFor url info])%list) as Hw1
    by (subst w1; by rewrite sent_record_get, sent_record_attempt).
  destruct (at_Do at_ _) as [resp|err]; [|done].
  destruct (StatusCode resp =? StatusNotModified); [done|].
  destruct (negb (StatusCode resp =? StatusOK)); [done|].
  pose proof (sent_inOS mk w1) as Hmk.
  destruct (inOS mk w1) as [[name|err] w2]; simpl in Hmk; [|simpl; by rewrite Hmk].
  rewrite <- Hw1, <- Hmk.
  repeat match goal with
  | |- context [match ?x with _ => _ end] => destruct x
  end; done.
Qed.

Lemma sent_downloadLoop env url mk info left start last w :
  ∃ n, (n ≤ left)%nat
     ∧ sent (snd (downloadLoop left start env url mk info last w))
       = (sent w ++ replicate n (requestFor url info))%list.
Proof.
  revert start last w. induction left as [|left IH]; intros start last w; simpl.
  - exists 0%nat. split; [lia|]. by rewrite app_nil_r.
  - pose proof (sent_fetchToFile (env_attempt env start) url mk info w) as Hone.
    destruct (fetchToFile _ url mk info w) as [r w1]. simpl in Hone.
    assert (∃ m, (m ≤ 1)%nat ∧ sent w1 = (sent w ++ replicate m (requestFor url info))%list)
      as (m & Hm & Hsent).
    { destruct (at_NewRequest _); [exists 0%nat|exists 1%nat]; split; try lia; done. }
    destruct (fetchedErr r) as [err|]; [|exists m; split; [lia|done]].
    destruct (isDownloadCancelled err); [exists m; split; [lia|done]|].
    destruct (IH (S start) r w1) as (n & Hn & Hrest).
    exists (m + n)%nat. split; [lia|].
    by rewrite Hrest, Hsent, <- app_assoc, replicate_add.
Qed.

Lemma sent_Download downloader env url mk info w r w' :
  Download downloader env url mk info w = Some (r, w') →
  ∃ n, (n ≤ MAX_DOWNLOAD_ATTEMPTS)%nat
     ∧ sent w' = (sent w ++ replicate n (requestFor url info))%list.
Proof.
  unfold Download. destruct (env_barrierCancelled env).
  - intros [= <- <-]. exists 0%nat. split; [lia|]. by rewrite app_nil_r.
  - destruct (negb (hasRoom downloader)); [done|].
    destruct (sent_downloadLoop env url mk info MAX_DOWNLOAD_ATTEMPTS 0
                ("", noCachingInfo, None) w) as (n & Hn & Hsent).
    destruct (downloadLoop _ _ _ _ _ _ _ _) as [r1 w1]. simpl in Hsent.
    intros Hret. exists n. split; [done|].
    by destruct (fetchedErr r1); injection Hret as <- <-.
Qed.

(** [Download] returns exactly when the select on the barrier takes the
    cancellation or the barrier has room. *)
Lemma Download_returns downloader env url mk info w :
  Download downloader env url mk info w
  = (if env_barrierCancelled env || hasRoom downloader
     then Some (default (("", noCachingInfo, None), w)
                  (Download downloader env url mk info w))
     else None).
Proof.
  unfold Download. destruct (env_barrierCancelled env); [done|].
  destruct (hasRoom downloader); [|done]. cbn [negb orb].
  destruct (downloadLoop _ _ _ _ _ _ _ _) as [r w']. by destruct (fetchedErr r).
Qed.

Lemma Header_Get_conditional info :
  Header_Get (conditionalHeaders info) "If-None-Match" = ETag info
  ∧ Header_Get (conditionalHeaders info) "If-Modified-Since" = LastModified info.
Proof.
  unfold conditionalHeaders, nonEmpty.
  destruct (String.eqb_spec (ETag info) ""), (String.eqb_spec (LastModified info) "");
    simpl; split; congruence.
Qed.

Lemma conditionalHeaders_length info :
  length (conditionalHeaders info)
  = ((if nonEmpty (ETag info) then 1 else 0)
     + (if nonEmpty (LastModified info) then 1 else 0))%nat.
Proof.
  unfold conditionalHeaders.
  by destruct (nonEmpty (ETag info)), (nonEmpty (LastModified info)).
Qed.

Lemma conditionalHeaders_keys info key value :
  (key, value) ∈ conditionalHeaders info →
  (key = "If-None-Match" ∧ value = ETag info ∧ value ≠ "")
  ∨ (key = "If-Modified-Since" ∧ value = LastModified info ∧ value ≠ "").
Proof.
  unfold conditionalHeaders, nonEmpty.
  destruct (String.eqb_spec (ETag info) ""), (String.eqb_spec (LastModified info) "");
    simpl; intros Hin;
    repeat match goal with
    | H : _ ∈ [] |- _ => by apply elem_of_nil in H
    | H : _ ∈ _ :: _ |- _ => apply elem_of_cons in H as [H|H]; [injection H as -> ->|]
    end; eauto.
Qed.

(** ** Further properties of the coordinator *)

Section CoordinatorExtras.
Context {C : Type} {FC : FileCache C}.
Variable TarTransform : CacheTransformer.
Implicit Types (c : cachedDownloader C) (w : World) (env : Env).

Lemma sent_populateCache env url name info tr c w r w' :
  populateCache env url name info tr c w = Some (r, w') →
  ∃ n, (n ≤ MAX_DOWNLOAD_ATTEMPTS)%nat
     ∧ sent w' = (sent w ++ replicate n (requestFor url info))%list.
Proof.
  unfold populateCache.
  destruct (Download _ _ _ _ _ _) as [[[[filename info'] err] w1]|] eqn:Hdl; [|done].
  destruct (sent_Download _ _ _ _ _ _ _ _ Hdl) as (n & Hn & Hsent).
  intros [= Hret]. exists n. split; [done|]. revert Hret.
  destruct err; [by intros [= _ <-]|].
  destruct (String.eqb filename ""); [by intros [= _ <-]|].
  destruct (StatSize _ _); [|by intros [= _ <-]].
  pose proof (sent_inOS (TempFile (uncachedPath c) "transformed") w1) as Htmp.
  destruct (inOS (TempFile _ _) w1) as [[cachedFile|err] w2]; simpl in Htmp;
    [|intros [= _ <-]; congruence].
  destruct (env_closeErr env); [intros [= _ <-]; congruence|].
  pose proof (sent_inOS (tr filename cachedFile) w2) as Htr.
  destruct (inOS (tr filename cachedFile) w2) as [[cachedSize err] w3]. simpl in Htr.
  destruct err; intros [= _ <-]; congruence.
Qed.

(** [populateCache] returns exactly when its [Download] does. *)
Lemma populateCache_returns env url name info tr c w :
  populateCache env url name info tr c w
  = (if env_barrierCancelled env || hasRoom (downloader c)
     then Some (default ((noDownload, false, 0, None), w)
                  (populateCache env url name info tr c w))
     else None).
Proof.
  pose proof (Download_returns (downloader c) env url
                (TempFile (uncachedPath c) (name +:+ "-")) info w) as Hdl.
  unfold populateCache.
  destruct (env_barrierCancelled env || hasRoom (downloader c)).
  - by destruct (Download _ _ _ _ _ _) as [[[[filename info'] err] w1]|].
  - by rewrite Hdl.
Qed.

Lemma acquireLimiter_cases env key c :
  (inProgress c !! key = None
   ∧ acquireLimiter env key c = (Granted (chans c), installed key c))
  ∨ (is_Some (inProgress c !! key) ∧ env_gateCancelled env = true
     ∧ acquireLimiter env key c
       = (Refused (DownloadCancelledError "acquire-limiter" (env_gateElapsed env)
                     NoBytesReceived), c))
  ∨ (is_Some (inProgress c !! key) ∧ env_gateCancelled env = false
     ∧ acquireLimiter env key c = (Blocked, c)).
Proof.
  unfold acquireLimiter, installed.
  destruct (inProgress c !! key) as [ch|] eqn:Hkey; [right|by left].
  destruct (env_gateCancelled env); [left|right]; eauto.
Qed.

Lemma releaseLimiter_installed key c cache' :
  inProgress c !! key = None →
  releaseLimiter key (chans c) (withCache (installed key c) cache') = afterCall c cache'.
Proof.
  intros Hfree. unfold releaseLimiter, withCache, installed, afterCall; simpl.
  by rewrite (delete_insert_id _ _ _ Hfree).
Qed.

Lemma sameButCache_afterCall c cache' : sameButCache c (afterCall c cache').
Proof. by repeat split. Qed.

Lemma sameButCache_refl c : sameButCache c c.
Proof. by repeat split. Qed.

Ltac branches :=
  repeat match goal with
  | |- context [match ?x with _ => _ end] => destruct x eqn:?
  | |- context [if ?x then _ else _] => destruct x eqn:?
  end.

Lemma fetchCachedFile_effects env url key c w currentReader currentCachingInfo getErr
    cache1 o1 r c' w' :
  cache_Get key (cache c) (os w) = ((currentReader, currentCachingInfo, getErr), cache1, o1) →
  fetchCachedFile env url key c w = Some (r, c', w') →
  sameButCache c c'
  ∧ ∃ n, (n ≤ MAX_DOWNLOAD_ATTEMPTS)%nat
       ∧ sent w' = (sent w ++ replicate n (requestFor url currentCachingInfo))%list.
Proof.
  intros Hget. unfold fetchCachedFile.
  destruct (acquireLimiter_cases env key c) as [[Hfree ->]|[(_ & _ & ->)|(_ & _ & ->)]].
  - cbn [cache installed]. rewrite Hget.
    destruct (populateCache _ _ _ _ _ _ _) as [[[[[download cacheIsWarm] size] err] w2]|]
      eqn:Hpop; [|done].
    destruct (sent_populateCache _ _ _ _ _ _ _ _ _ Hpop) as (n & Hn & Hsent).
    unfold onCache.
    assert (∀ (r0 : Stream) cache2 o2 r1 c1 w1,
              Some (r0, releaseLimiter key (chans c) (withCache (installed key c) cache2),
                    setOS o2 w2) = Some (r1, c1, w1) →
              sameButCache c c1
              ∧ ∃ n, (n ≤ MAX_DOWNLOAD_ATTEMPTS)%nat
                   ∧ sent w1 = (sent w ++ replicate n (requestFor url currentCachingInfo))%list)
      as Hdone.
    { intros r0 cache2 o2 r1 c1 w1 [= <- <- <-]. rewrite releaseLimiter_installed by done.
      split; [apply sameButCache_afterCall|]. exists n. split; [done|]. exact Hsent. }
    destruct err.
    + destruct (closeIfOpen _ _ _) as [cache2 o2]. simpl. intros Hret. by eapply Hdone.
    + destruct cacheIsWarm.
      * intros Hret. eapply (Hdone _ cache1 (os w2)). by destruct w2.
      * destruct (closeIfOpen _ _ _) as [cache2 o2]. simpl.
        destruct (isCacheable _).
        -- destruct (cache_Add _ _ _ _ _ _) as [[[newReader err] cache3] o3]. simpl.
           destruct (isNotEnoughSpace err).
           ++ destruct (tempFileRemoveOnClose _ _). intros Hret. by eapply Hdone.
           ++ intros Hret. by eapply Hdone.
        -- destruct (cache_Remove _ _ _) as [cache3 o3]. simpl.
           destruct (tempFileRemoveOnClose _ _). intros Hret. by eapply Hdone.
  - intros [= <- <- <-]. split; [apply sameButCache_refl|].
    exists 0%nat. split; [lia|]. by rewrite app_nil_r.
  - done.
Qed.

Lemma fetchCachedDirectory_effects env url key c w currentDirectory currentCachingInfo getErr
    cache1 o1 r c' w' :
  cache_GetDirectory key (cache c) (os w)
    = ((currentDirectory, currentCachingInfo, getErr), cache1, o1) →
  fetchCachedDirectory TarTransform env url key c w = Some (r, c', w') →
  sameButCache c c'
  ∧ ∃ n, (n ≤ MAX_DOWNLOAD_ATTEMPTS)%nat
       ∧ sent w' = (sent w ++ replicate n (requestFor url currentCachingInfo))%list.
Proof.
  intros Hget. unfold fetchCachedDirectory.
  destruct (acquireLimiter_cases env key c) as [[Hfree ->]|[(_ & _ & ->)|(_ & _ & ->)]].
  - cbn [cache installed]. rewrite Hget.
    assert (∀ m w2, (m ≤ MAX_DOWNLOAD_ATTEMPTS)%nat →
              sent w2 = (sent w ++ replicate m (requestFor url currentCachingInfo))%list →
              ∀ (r0 : string * option error) cache2 o2 r1 c1 w1,
                Some (r0, releaseLimiter key (chans c) (withCache (installed key c) cache2),
                      setOS o2 w2) = Some (r1, c1, w1) →
                sameButCache c c1
                ∧ ∃ n, (n ≤ MAX_DOWNLOAD_ATTEMPTS)%nat
                     ∧ sent w1
                       = (sent w ++ replicate n (requestFor url currentCachingInfo))%list)
      as Hdone.
    { intros m w2 Hm Hsent r0 cache2 o2 r1 c1 w1 [= <- <- <-].
      rewrite releaseLimiter_installed by done.
      split; [apply sameButCache_afterCall|]. exists m. split; [done|]. exact Hsent. }
    destruct (isNotEnoughSpace getErr).
    { intros Hret. eapply (Hdone 0%nat w); [lia|by rewrite app_nil_r|].
      replace (setOS o1 w) with (setOS o1 w) in Hret by done. exact Hret. }
    destruct (populateCache _ _ _ _ _ _ _) as [[[[[download cacheIsWarm] size] err] w2]|]
      eqn:Hpop; [|done].
    destruct (sent_populateCache _ _ _ _ _ _ _ _ _ Hpop) as (n & Hn & Hsent).
    unfold onCache.
    destruct err.
    + destruct (closeDirectoryIfAny _ _ _ _) as [cache2 o2]. simpl.
      intros Hret. by eapply (Hdone n w2).
    + destruct cacheIsWarm.
      * intros Hret. eapply (Hdone n w2 Hn Hsent _ cache1 (os w2)). by destruct w2.
      * destruct (closeDirectoryIfAny _ _ _ _) as [cache2 o2]. simpl.
        destruct (isCacheable _).
        -- destruct (cache_AddDirectory _ _ _ _ _ _) as [[[newDirectory err] cache3] o3].
           simpl. destruct (isNotEnoughSpace err); intros Hret; by eapply (Hdone n w2).
        -- destruct (cache_Remove _ _ _) as [cache3 o3]. simpl.
           intros Hret. by eapply (Hdone n w2).
  - intros [= <- <- <-]. split; [apply sameButCache_refl|].
    exists 0%nat. split; [lia|]. by rewrite app_nil_r.
  - done.
Qed.

Lemma fetchUncachedFile_effects env url tr c w r c' w' :
  fetchUncachedFile env url tr c w = Some (r, c', w') →
  c' = c
  ∧ ∃ n, (n ≤ MAX_DOWNLOAD_ATTEMPTS)%nat
       ∧ sent w' = (sent w ++ replicate n (requestFor url noCachingInfo))%list.
Proof.
  unfold fetchUncachedFile.
  destruct (populateCache _ _ _ _ _ _ _) as [[[[[download cacheIsWarm] size] err] w2]|]
    eqn:Hpop; [|done].
  destruct (sent_populateCache _ _ _ _ _ _ _ _ _ Hpop) as (n & Hn & Hsent).
  destruct err; [|destruct (tempFileRemoveOnClose _ _)];
    intros [= <- <- <-]; split; try done; exists n; by split.
Qed.

(** X1: every request a [Fetch] with a cache key sends goes to the URL of
    the call and carries the validator the cache probe returned:
    If-None-Match is its ETag and If-Modified-Since its Last-Modified, each
    absent when empty, and no other header; the call sends at most
    [MAX_DOWNLOAD_ATTEMPTS] such requests, all the same. *)
Theorem Fetch_requests_carry_probed_validator env url cacheKey c w
    currentReader currentCachingInfo getErr cache1 o1 r c' w' :
  cacheKey ≠ "" →
  cache_Get (fingerprint cacheKey) (cache c) (os w)
    = ((currentReader, currentCachingInfo, getErr), cache1, o1) →
  Fetch env url cacheKey c w = Some (r, c', w') →
  (∃ n, (n ≤ 3)%nat
      ∧ sent w' = (sent w ++ replicate n (requestFor url currentCachingInfo))%list)
  ∧ req_url (requestFor url currentCachingInfo) = url
  ∧ Header_Get (req_header (requestFor url currentCachingInfo)) "If-None-Match"
    = ETag currentCachingInfo
  ∧ Header_Get (req_header (requestFor url currentCachingInfo)) "If-Modified-Since"
    = LastModified currentCachingInfo
  ∧ length (req_header (requestFor url currentCachingInfo))
    = ((if nonEmpty (ETag currentCachingInfo) then 1 else 0)
       + (if nonEmpty (LastModified currentCachingInfo) then 1 else 0))%nat.
Proof.
  intros Hkey Hget. unfold Fetch. apply String.eqb_neq in Hkey. rewrite Hkey.
  intros Hret.
  destruct (fetchCachedFile_effects _ _ _ _ _ _ _ _ _ _ _ _ _ Hget Hret)
    as (_ & n & Hn & Hsent).
  destruct (Header_Get_conditional currentCachingInfo) as [Hetag Hmod].
  split; [by exists n|]. split; [done|]. split; [exact Hetag|]. split; [exact Hmod|].
  apply conditionalHeaders_length.
Qed.

(** X2: every request a [FetchAsDirectory] sends goes to the URL of the call
    and carries the validator the directory probe of the cache returned, in
    If-None-Match and If-Modified-Since; at most [MAX_DOWNLOAD_ATTEMPTS]
    requests are sent, all the same. *)
Theorem FetchAsDirectory_requests_carry_probed_validator env url cacheKey c w
    currentDirectory currentCachingInfo getErr cache1 o1 r c' w' :
  cache_GetDirectory (fingerprint cacheKey) (cache c) (os w)
    = ((currentDirectory, currentCachingInfo, getErr), cache1, o1) →
  FetchAsDirectory TarTransform env url cacheKey c w = Some (r, c', w') →
  (∃ n, (n ≤ 3)%nat
      ∧ sent w' = (sent w ++ replicate n (requestFor url currentCachingInfo))%list)
  ∧ Header_Get (req_header (requestFor url currentCachingInfo)) "If-None-Match"
    = ETag currentCachingInfo
  ∧ Header_Get (req_header (requestFor url currentCachingInfo)) "If-Modified-Since"
    = LastModified currentCachingInfo.
Proof.
  intros Hget Hret. unfold FetchAsDirectory in Hret.
  destruct (fetchCachedDirectory_effects _ _ _ _ _ _ _ _ _ _ _ _ _ Hget Hret)
    as (_ & n & Hn & Hsent).
  destruct (Header_Get_conditional currentCachingInfo) as [Hetag Hmod].
  split; [by exists n|]. by split.
Qed.

(** X3: a [Fetch] that returns, on whatever path (warm, downloaded, failed,
    cancelled at the limiter, or without cache key), leaves the map of
    limiters as it found it: the limiter it installed is deleted again, and
    no other is touched; the configuration of the coordinator is unchanged. *)
Theorem Fetch_releases_limiter env url cacheKey c w r c' w' :
  Fetch env url cacheKey c w = Some (r, c', w') →
  inProgress c' = inProgress c
  ∧ uncachedPath c' = uncachedPath c
  ∧ transformer c' = transformer c
  ∧ downloader c' = downloader c.
Proof.
  unfold Fetch. destruct (String.eqb cacheKey "").
  - intros Hret. by apply fetchUncachedFile_effects in Hret as [-> _].
  - destruct (cache_Get (fingerprint cacheKey) (cache c) (os w))
      as [[[[cur info] getErr] cache1] o1] eqn:Hget.
    intros Hret.
    by destruct (fetchCachedFile_effects _ _ _ _ _ _ _ _ _ _ _ _ _ Hget Hret) as [? _].
Qed.

(** X4: a [FetchAsDirectory] that returns, on whatever path, leaves the map
    of limiters as it found it, and the configuration of the coordinator
    unchanged. *)
Theorem FetchAsDirectory_releases_limiter env url cacheKey c w r c' w' :
  FetchAsDirectory TarTransform env url cacheKey c w = Some (r, c', w') →
  inProgress c' = inProgress c
  ∧ uncachedPath c' = uncachedPath c
  ∧ transformer c' = transformer c
  ∧ downloader c' = downloader c.
Proof.
  unfold FetchAsDirectory.
  destruct (cache_GetDirectory (fingerprint cacheKey) (cache c) (os w))
    as [[[[cur info] getErr] cache1] o1] eqn:Hget.
  intros Hret.
  by destruct (fetchCachedDirectory_effects _ _ _ _ _ _ _ _ _ _ _ _ _ Hget Hret) as [? _].
Qed.

(** X5: a [Fetch] with the empty cache key returns exactly when the select
    on the download barrier takes the cancellation or the barrier has room;
    when the barrier has no room (its capacity is 0, or it is full) and the
    cancel channel stays silent, the call does not return.  A call that
    returns leaves the coordinator untouched (no limiter, no cache operation)
    and has sent unconditional requests: at most three, to the URL of the
    call, without any header. *)
Theorem uncached_Fetch_is_unconditional env url c w :
  if env_barrierCancelled env || hasRoom (downloader c) then
    ∃ r w' n, Fetch env url "" c w = Some (r, c, w')
            ∧ (n ≤ 3)%nat
            ∧ sent w'
              = (sent w ++ replicate n {| req_url := url; req_header := [] |})%list
  else Fetch env url "" c w = None.
Proof.
  unfold Fetch. rewrite String.eqb_refl.
  pose proof (populateCache_returns env url "uncached" noCachingInfo (transformer c) c w)
    as Hpop.
  destruct (env_barrierCancelled env || hasRoom (downloader c)).
  - destruct (fetchUncachedFile env url (transformer c) c w) as [[[r c'] w']|] eqn:Hret.
    + apply fetchUncachedFile_effects in Hret as (-> & n & Hn & Hsent).
      by exists r, w', n.
    + exfalso. unfold fetchUncachedFile in Hret. rewrite Hpop in Hret.
      destruct (default _ _) as [[[[download cacheIsWarm] size] err] w2].
      destruct err; [done|]. by destruct (tempFileRemoveOnClose _ _).
  - unfold fetchUncachedFile. by rewrite Hpop.
Qed.

(** X6: while another call holds the limiter of the key, [Fetch] and
    [FetchAsDirectory] do nothing but wait: when the cancel channel fires
    they return a [DownloadCancelledError] of the source acquire-limiter with
    the time waited and [NoBytesReceived], with no stream and size 0 (no
    directory), and coordinator, cache, files and request history are
    untouched; otherwise they do not return. *)
Theorem held_key_waits_or_is_cancelled env url cacheKey c w :
  cacheKey ≠ "" →
  is_Some (inProgress c !! fingerprint cacheKey) →
  Fetch env url cacheKey c w
  = (if env_gateCancelled env
     then Some ((None, 0, Some (DownloadCancelledError "acquire-limiter"
                                  (env_gateElapsed env) NoBytesReceived)), c, w)
     else None)
  ∧ FetchAsDirectory TarTransform env url cacheKey c w
    = (if env_gateCancelled env
       then Some (("", Some (DownloadCancelledError "acquire-limiter"
                               (env_gateElapsed env) NoBytesReceived)), c, w)
       else None).
Proof.
  intros Hkey [ch Hheld]. apply String.eqb_neq in Hkey.
  unfold Fetch, FetchAsDirectory, fetchCachedFile, fetchCachedDirectory, acquireLimiter.
  rewrite Hkey, Hheld. by destruct (env_gateCancelled env).
Qed.

(** X7: when the directory probe of the cache reports [NotEnoughSpace] (a
    hit that cannot be expanded), [FetchAsDirectory] returns that error with
    the empty path at once: no request is sent, nothing is downloaded, and
    the limiter is released. *)
Theorem FetchAsDirectory_hit_without_space env url cacheKey c w
    currentDirectory currentCachingInfo cache1 o1 :
  inProgress c !! fingerprint cacheKey = None →
  cache_GetDirectory (fingerprint cacheKey) (cache c) (os w)
    = ((currentDirectory, currentCachingInfo, Some NotEnoughSpace), cache1, o1) →
  FetchAsDirectory TarTransform env url cacheKey c w
  = Some (("", Some NotEnoughSpace), afterCall c cache1, setOS o1 w)
  ∧ history (setOS o1 w) = history w.
Proof.
  intros Hfree Hget. split; [|done].
  unfold FetchAsDirectory, fetchCachedDirectory, acquireLimiter. rewrite Hfree.
  cbn [cache]. rewrite Hget. cbn [isNotEnoughSpace].
  f_equal. f_equal. f_equal.
  unfold releaseLimiter, withCache, afterCall; simpl.
  by rewrite (delete_insert_id _ _ _ Hfree).
Qed.

End CoordinatorExtras.

Lemma Fetch_requests_carry_probed_validator_witness :
  ∃ n, (n ≤ 3)%nat
     ∧ sent (finalWorld (Fetch (calmEnv (origin "v1" "777")) exampleURL "k"
                           warmCoordinator warmWorld))
       = (sent warmWorld
          ++ replicate n {| req_url := exampleURL;
                            req_header := [("If-None-Match", "v1")] |})%list.
Proof.
  pose (env := calmEnv (origin "v1" "777")).
  pose (probe := cache_Get (fingerprint "k") (cache warmCoordinator) (os warmWorld)).
  pose (res := Fetch env exampleURL "k" warmCoordinator warmWorld).
  destruct (Fetch_requests_carry_probed_validator env exampleURL "k" warmCoordinator warmWorld
              probe.1.1.1.1 probe.1.1.1.2 probe.1.1.2 probe.1.2 probe.2
              (default (None, 0, None) (returned res)) (finalCoordinator res) (finalWorld res))
    as [(n & Hn & Hsent) _].
  - done.
  - vm_compute; reflexivity.
  - vm_compute; reflexivity.
  - exists n. split; [exact Hn|].
    replace (requestFor exampleURL probe.1.1.1.2)
      with {| req_url := exampleURL; req_header := [("If-None-Match", "v1")] |}
      in Hsent by (vm_compute; reflexivity).
    exact Hsent.
Defined.

Lemma FetchAsDirectory_requests_carry_probed_validator_witness :
  ∃ n, (n ≤ 3)%nat
     ∧ sent (finalWorld (FetchAsDirectory unpackSingle (calmEnv (origin "v1" "777"))
                           exampleURL "k" (finalCoordinator warmedUpDirectory)
                           (finalWorld warmedUpDirectory)))
       = (sent (finalWorld warmedUpDirectory)
          ++ replicate n {| req_url := exampleURL;
                            req_header := [("If-None-Match", "v1")] |})%list.
Proof.
  pose (env := calmEnv (origin "v1" "777")).
  pose (c := finalCoordinator warmedUpDirectory). pose (w := finalWorld warmedUpDirectory).
  pose (probe := cache_GetDirectory (fingerprint "k") (cache c) (os w)).
  pose (res := FetchAsDirectory unpackSingle env exampleURL "k" c w).
  destruct (FetchAsDirectory_requests_carry_probed_validator unpackSingle env exampleURL "k" c w
              probe.1.1.1.1 probe.1.1.1.2 probe.1.1.2 probe.1.2 probe.2
              (default ("", None) (returned res)) (finalCoordinator res) (finalWorld res))
    as [(n & Hn & Hsent) _].
  - vm_compute; reflexivity.
  - vm_compute; reflexivity.
  - exists n. split; [exact Hn|].
    replace (requestFor exampleURL probe.1.1.1.2)
      with {| req_url := exampleURL; req_header := [("If-None-Match", "v1")] |}
      in Hsent by (vm_compute; reflexivity).
    exact Hsent.
Defined.

Lemma Fetch_releases_limiter_witness :
  inProgress (finalCoordinator (Fetch (calmEnv (failing 500)) exampleURL "k"
                                  warmCoordinator warmWorld))
  = inProgress warmCoordinator.
Proof.
  pose (env := calmEnv (failing 500)).
  pose (res := Fetch env exampleURL "k" warmCoordinator warmWorld).
  destruct (Fetch_releases_limiter env exampleURL "k" warmCoordinator warmWorld
              (default (None, 0, None) (returned res)) (finalCoordinator res) (finalWorld res))
    as [Hsame _].
  - vm_compute; reflexivity.
  - exact Hsame.
Defined.

Lemma FetchAsDirectory_releases_limiter_witness :
  inProgress (finalCoordinator (FetchAsDirectory unpackSingle (calmEnv (origin "" "777"))
                                  exampleURL "k" (exampleCoordinator 1024) exampleStart))
  = inProgress (exampleCoordinator 1024).
Proof.
  pose (env := calmEnv (origin "" "777")).
  pose (res := FetchAsDirectory unpackSingle env exampleURL "k" (exampleCoordinator 1024)
                 exampleStart).
  destruct (FetchAsDirectory_releases_limiter unpackSingle env exampleURL "k"
              (exampleCoordinator 1024) exampleStart
              (default ("", None) (returned res)) (finalCoordinator res) (finalWorld res))
    as [Hsame _].
  - vm_compute; reflexivity.
  - exact Hsame.
Defined.

Lemma uncached_Fetch_is_unconditional_witness :
  Fetch (calmEnv (origin "v1" "777")) exampleURL "" closedCoordinator exampleStart = None
  ∧ ∃ r w' n, Fetch (calmEnv (origin "v1" "777")) exampleURL "" (exampleCoordinator 1024)
                exampleStart = Some (r, exampleCoordinator 1024, w')
            ∧ (n ≤ 3)%nat
            ∧ sent w'
              = (sent exampleStart
                 ++ replicate n {| req_url := exampleURL; req_header := [] |})%list.
Proof.
  split.
  - exact (uncached_Fetch_is_unconditional (calmEnv (origin "v1" "777")) exampleURL
             closedCoordinator exampleStart).
  - exact (uncached_Fetch_is_unconditional (calmEnv (origin "v1" "777")) exampleURL
             (exampleCoordinator 1024) exampleStart).
Defined.

Lemma held_key_waits_or_is_cancelled_witness :
  Fetch (cancelledAtGate 7) exampleURL "k"
    (installed (fingerprint "k") (exampleCoordinator 1024)) exampleStart
  = Some ((None, 0, Some (DownloadCancelledError "acquire-limiter" 7 NoBytesReceived)),
          installed (fingerprint "k") (exampleCoordinator 1024), exampleStart)
  ∧ Fetch (calmEnv (origin "v1" "777")) exampleURL "k"
      (installed (fingerprint "k") (exampleCoordinator 1024)) exampleStart
    = None.
Proof.
  assert (is_Some (inProgress (installed (fingerprint "k") (exampleCoordinator 1024))
                   !! fingerprint "k")) as Hheld.
  { exists 0%nat. apply lookup_insert_eq. }
  split.
  - exact (proj1 (held_key_waits_or_is_cancelled unpackSingle (cancelledAtGate 7) exampleURL
                    "k" (installed (fingerprint "k") (exampleCoordinator 1024)) exampleStart
                    ltac:(done) Hheld)).
  - exact (proj1 (held_key_waits_or_is_cancelled unpackSingle (calmEnv (origin "v1" "777"))
                    exampleURL "k" (installed (fingerprint "k") (exampleCoordinator 1024))
                    exampleStart ltac:(done) Hheld)).
Defined.

Lemma FetchAsDirectory_hit_without_space_witness :
  FetchAsDirectory (FC := crampedCache) unpackSingle (calmEnv (origin "v1" "777"))
    exampleURL "k" crampedCoordinator exampleWorld
  = Some (("", Some NotEnoughSpace), afterCall crampedCoordinator tt, exampleWorld).
Proof.
  exact (proj1 (FetchAsDirectory_hit_without_space (FC := crampedCache) unpackSingle
                  (calmEnv (origin "v1" "777")) exampleURL "k" crampedCoordinator exampleWorld
                  "" {| ETag := "v1"; LastModified := "" |} tt exampleOS
                  ltac:(vm_compute; reflexivity) eq_refl)).
Defined.
(** ** Checksums and fingerprints *)

Lemma le_bytes_length n z : length (MD5.le_bytes n z) = n.
Proof. revert z. induction n as [|n IH]; intros z; simpl; [done|by rewrite IH]. Qed.

Lemma Sum_length msg : length (MD5.Sum msg) = 16%nat.
Proof. unfold MD5.Sum. by rewrite !length_app, !le_bytes_length. Qed.

Lemma hex_byte b :
  Hex.fromHexChar (Hex.digit (MD5.byteZ b / 16)) = Some (MD5.byteZ b / 16)
  ∧ Hex.fromHexChar (Hex.digit (MD5.byteZ b mod 16)) = Some (MD5.byteZ b mod 16)
  ∧ MD5.Zbyte (16 * (MD5.byteZ b / 16) + MD5.byteZ b mod 16) = b
  ∧ isLowerHexDigit (Hex.digit (MD5.byteZ b / 16)) = true
  ∧ isLowerHexDigit (Hex.digit (MD5.byteZ b mod 16)) = true.
Proof. destruct b; vm_compute; done. Qed.

Lemma DecodeString_EncodeToString bs : Hex.DecodeString (Hex.EncodeToString bs) = Some bs.
Proof.
  induction bs as [|b bs IH]; [done|].
  destruct (hex_byte b) as (Hhi & Hlo & Hb & _).
  cbn [Hex.EncodeToString].
  change (Hex.DecodeString (String ?a (String ?b ?s)))
    with (match Hex.fromHexChar a, Hex.fromHexChar b, Hex.DecodeString s with
          | Some h, Some l, Some bs => Some (MD5.Zbyte (16 * h + l) :: bs)
          | _, _, _ => None
          end).
  by rewrite Hhi, Hlo, IH, Hb.
Qed.

Lemma EncodeToString_length bs : String.length (Hex.EncodeToString bs) = (2 * length bs)%nat.
Proof. induction bs as [|b bs IH]; simpl; [done|]. rewrite IH. lia. Qed.

Lemma EncodeToString_lower bs :
  forallb isLowerHexDigit (list_ascii_of_string (Hex.EncodeToString bs)) = true.
Proof.
  induction bs as [|b bs IH]; [done|].
  destruct (hex_byte b) as (_ & _ & _ & Hhi & Hlo).
  cbn [Hex.EncodeToString list_ascii_of_string forallb]. by rewrite Hhi, Hlo, IH.
Qed.

Lemma lower_not_quote a : isLowerHexDigit a = true → isQuote a = false.
Proof. destruct a as [[] [] [] [] [] [] [] []]; vm_compute; done. Qed.

Lemma lower_unquoted s :
  forallb isLowerHexDigit (list_ascii_of_string s) = true → unquoted s = true.
Proof.
  unfold unquoted. induction s as [|a s IH]; [done|].
  cbn [list_ascii_of_string forallb]. rewrite !andb_true_iff. intros [Ha Hs].
  by rewrite (lower_not_quote a Ha), IH.
Qed.

Lemma TrimRight_unquoted s : unquoted s = true → TrimRight s quote = s.
Proof.
  unfold unquoted. induction s as [|a s IH]; [done|].
  cbn [list_ascii_of_string forallb TrimRight]. rewrite andb_true_iff. intros [Ha Hs].
  rewrite (IH Hs). unfold isQuote in Ha. apply negb_true_iff in Ha. rewrite Ha.
  by destruct s.
Qed.

Lemma TrimRight_closing s :
  unquoted s = true → TrimRight (s +:+ String quote "") quote = s.
Proof.
  unfold unquoted. induction s as [|a s IH].
  - intros _. by vm_compute.
  - simpl. rewrite andb_true_iff. intros [Ha Hs].
    rewrite (IH Hs). unfold isQuote in Ha. apply negb_true_iff in Ha. rewrite Ha.
    by destruct s.
Qed.

Lemma TrimLeft_unquoted s t : unquoted s = true → s ≠ "" → TrimLeft (s +:+ t) quote = s +:+ t.
Proof.
  unfold unquoted. destruct s as [|a s]; [done|].
  simpl. rewrite andb_true_iff. intros [Ha _] _.
  unfold isQuote in Ha. apply negb_true_iff in Ha. by rewrite Ha.
Qed.

Lemma Trim_unquoted s : unquoted s = true → Trim s quote = s.
Proof.
  intros Hs. unfold Trim.
  assert (TrimLeft s quote = s) as ->; [|by apply TrimRight_unquoted].
  unfold unquoted in Hs. destruct s as [|a s]; [done|]. simpl in *.
  apply andb_true_iff in Hs as [Ha _].
  unfold isQuote in Ha. apply negb_true_iff in Ha. by rewrite Ha.
Qed.

Lemma Trim_quoted s : unquoted s = true → Trim (quoted s) quote = s.
Proof.
  intros Hs. unfold Trim, quoted. cbn [TrimLeft]. rewrite Ascii.eqb_refl.
  destruct s as [|a s].
  - by vm_compute.
  - rewrite (TrimLeft_unquoted (String a s) _ Hs) by done. by apply TrimRight_closing.
Qed.

Lemma convertETagToChecksum_digest sum etag :
  length sum = 16%nat → Trim etag quote = Hex.EncodeToString sum →
  convertETagToChecksum etag = Some sum.
Proof.
  intros Hlen Htrim. unfold convertETagToChecksum. rewrite Htrim.
  rewrite EncodeToString_length, Hlen. simpl. by rewrite DecodeString_EncodeToString.
Qed.

(** X8: the ETag an origin computes as the MD5 of the body in lower-case
    hexadecimal, sent bare or between double quotes, converts back to those
    sixteen bytes: [convertETagToChecksum] inverts the hexadecimal encoding,
    so a correct digest is the checksum [fetchToFile] compares the body with. *)
Theorem own_digest_is_accepted (body : list byte) :
  convertETagToChecksum (Hex.EncodeToString (MD5.Sum body)) = Some (MD5.Sum body)
  ∧ convertETagToChecksum (quoted (Hex.EncodeToString (MD5.Sum body))) = Some (MD5.Sum body).
Proof.
  pose proof (lower_unquoted _ (EncodeToString_lower (MD5.Sum body))) as Hq.
  split.
  - apply convertETagToChecksum_digest; [apply Sum_length|by apply Trim_unquoted].
  - apply convertETagToChecksum_digest; [apply Sum_length|by apply Trim_quoted].
Qed.

(** X9: the key under which the coordinator addresses the cache, the
    fingerprint of the caller's cache key, is always a string of 32
    lower-case hexadecimal digits: it is never empty, whatever the caller
    passes, and [hex.DecodeString] gives back the MD5 of the caller's key. *)
Theorem fingerprint_is_lower_hex32 (cacheKey : string) :
  lowerHex32 (fingerprint cacheKey) = true
  ∧ fingerprint cacheKey ≠ ""
  ∧ Hex.DecodeString (fingerprint cacheKey) = Some (MD5.Sum (list_byte_of_string cacheKey)).
Proof.
  unfold lowerHex32, fingerprint.
  pose proof (EncodeToString_length (MD5.Sum (list_byte_of_string cacheKey))) as Hlen.
  rewrite Sum_length in Hlen.
  split; [|split].
  - rewrite Hlen, EncodeToString_lower. done.
  - intros Hempty. rewrite Hempty in Hlen. done.
  - apply DecodeString_EncodeToString.
Qed.
(** ** Deliveries, retries and cancellation *)

Section Delivery.
Variable mk : OS → result string * OS.
Hypothesis mk_fresh : freshFileFactory mk.
Hypothesis mk_names : namesFiles mk.

Lemma fetchToFile_delivered at_ url info w :
  fetchedErr (fst (fetchToFile at_ url mk info w)) = None →
  at_NewRequest at_ = None
  ∧ ∃ resp, at_Do at_ (requestFor url info) = Ok resp
          ∧ delivered resp (fs (os w)) (fst (fetchToFile at_ url mk info w))
              (fs (os (snd (fetchToFile at_ url mk info w)))).
Proof.
  unfold fetchToFile, inOS. fold (requestFor url info).
  set (w1 := record (EvGet _) (record (EvAttempt url) w)).
  destruct (at_NewRequest at_); [done|].
  destruct (at_Do at_ _) as [resp|err]; [|done].
  destruct (Z.eqb_spec (StatusCode resp) StatusNotModified) as [H304|H304].
  { intros _. split; [done|]. exists resp. split; [done|]. by unfold delivered. }
  destruct (Z.eqb_spec (StatusCode resp) StatusOK) as [H200|H200]; [|done]. cbn [negb].
  pose proof (mk_fresh (os w1)) as Hmk. pose proof (mk_names (os w1)) as Hname.
  destruct (mk (os w1)) as [[name|err] o1]; [|done].
  destruct Hmk as [Hfresh [bs Hfs]]. specialize (Hname name o1 eq_refl).
  apply String.eqb_neq in Hname.
  assert (fs (os (writeDestination name (Body resp)
                    (writeDestination name [] (setOS o1 w1))))
          = <[name := File (Body resp)]> (fs (os w))) as Hstored.
  { unfold writeDestination, setOS, withFS; simpl. by rewrite Hfs, !writeFile_created. }
  destruct (at_Seek at_); [done|].
  destruct (at_Truncate at_); [done|].
  destruct (BodyErr resp) eqn:Hbody; [done|].
  fold (validatorOf resp).
  assert (∀ w2, (∀ sum, convertETagToChecksum (ETag (validatorOf resp)) = Some sum →
                        sum = MD5.Sum (Body resp)) →
                fs (os w2) = <[name := File (Body resp)]> (fs (os w)) →
                delivered resp (fs (os w)) (name, validatorOf resp, None) (fs (os w2)))
    as Hdone.
  { intros w2 Hsum Hw2. unfold delivered. cbn [fetchedPath fetchedInfo fst snd].
    rewrite Hname. by repeat split. }
  destruct (convertETagToChecksum _) as [sum|] eqn:Hsum.
  - destruct (bytes_Equal sum (MD5.Sum (Body resp))) eqn:Heq; [|done].
    intros _. split; [done|]. exists resp. split; [done|].
    apply Hdone; [|exact Hstored]. intros sum' [= <-]. by apply bytes_Equal_eq.
  - intros _. split; [done|]. exists resp. split; [done|].
    apply Hdone; [|exact Hstored]. by intros sum' [=].
Qed.

Lemma downloadLoop_delivered env url info left start last w :
  (0 < left)%nat →
  fetchedErr (fst (downloadLoop left start env url mk info last w)) = None →
  ∃ k resp, (start ≤ k < start + left)%nat
          ∧ attempts (snd (downloadLoop left start env url mk info last w))
            = (attempts w + (k - start) + 1)%nat
          ∧ at_NewRequest (env_attempt env k) = None
          ∧ at_Do (env_attempt env k) (requestFor url info) = Ok resp
          ∧ delivered resp (fs (os w)) (fst (downloadLoop left start env url mk info last w))
              (fs (os (snd (downloadLoop left start env url mk info last w)))).
Proof.
  revert start last w. induction left as [|left IH]; intros start last w; [lia|].
  intros _. simpl.
  pose proof (fetchToFile_delivered (env_attempt env start) url info w) as Hgood.
  pose proof (fetchToFile_failure mk mk_fresh (env_attempt env start) url info w) as Hbad.
  pose proof (attempts_fetchToFile (env_attempt env start) url mk info w) as Hcount.
  destruct (fetchToFile _ url mk info w) as [r w1]. simpl in Hgood, Hcount.
  destruct (fetchedErr r) as [err|] eqn:Herr.
  - destruct (Hbad ltac:(done)) as (_ & _ & Hfs).
    destruct (isDownloadCancelled err); [simpl; by rewrite Herr|].
    destruct left as [|left']; [simpl; by rewrite Herr|].
    intros Hok.
    destruct (IH (S start) r w1 ltac:(lia) Hok) as (k & resp & Hk & Hn & Hreq & Hdo & Hd).
    exists k, resp. rewrite <- Hfs. split; [lia|]. split; [rewrite Hn, Hcount; lia|done].
  - intros _. destruct (Hgood eq_refl) as (Hreq & resp & Hdo & Hd).
    exists start, resp. split; [lia|]. split; [simpl; lia|done].
Qed.

Lemma Download_delivered downloader env url info w r w' :
  Download downloader env url mk info w = Some (r, w') →
  fetchedErr r = None →
  ∃ k resp, (k < MAX_DOWNLOAD_ATTEMPTS)%nat
          ∧ attempts w' = (attempts w + k + 1)%nat
          ∧ at_NewRequest (env_attempt env k) = None
          ∧ at_Do (env_attempt env k) (requestFor url info) = Ok resp
          ∧ delivered resp (fs (os w)) r (fs (os w')).
Proof.
  unfold Download. destruct (env_barrierCancelled env); [by intros [= <- <-]|].
  destruct (negb (hasRoom downloader)); [done|].
  pose proof (downloadLoop_delivered env url info MAX_DOWNLOAD_ATTEMPTS 0
                ("", noCachingInfo, None) w ltac:(unfold MAX_DOWNLOAD_ATTEMPTS; lia))
    as Hloop.
  destruct (downloadLoop _ _ _ _ _ _ _ _) as [r1 w1]. simpl in Hloop.
  destruct (fetchedErr r1) eqn:Herr; intros [= <- <-]; [done|]. intros _.
  destruct (Hloop eq_refl) as (k & resp & Hk & Hn & Hrest).
  exists k, resp. split; [lia|]. split; [lia|done].
Qed.

(** X10: with a destination factory in the manner of [ioutil.TempFile], a
    [Download] that returns no error returns what the last of its at most
    three attempts received from the origin.  Either it returns the empty path
    with the zero validator and leaves the files as they were, and that
    answer was a 304; or it returns the path of the one file it added: that
    answer was a 200 whose body arrived whole, the file is new and holds
    exactly the body of the answer, the validator returned is the ETag and
    Last-Modified of the answer, the MD5 of the body is the checksum of the
    ETag when that is one, and nothing is left of the attempts that failed
    before. *)
Theorem Download_delivers downloader env url info w path cachingInfoOut w' :
  Download downloader env url mk info w = Some ((path, cachingInfoOut, None), w') →
  ∃ k resp,
    (k < 3)%nat
    ∧ attempts w' = (attempts w + k + 1)%nat
    ∧ at_NewRequest (env_attempt env k) = None
    ∧ at_Do (env_attempt env k) {| req_url := url; req_header := conditionalHeaders info |}
      = Ok resp
    ∧ if String.eqb path "" then
        StatusCode resp = 304 ∧ cachingInfoOut = noCachingInfo ∧ fs (os w') = fs (os w)
      else
        StatusCode resp = 200 ∧ BodyErr resp = None
        ∧ cachingInfoOut = {| ETag := Header_Get (Header resp) "ETag";
                              LastModified := Header_Get (Header resp) "Last-Modified" |}
        ∧ fs (os w) !! path = None
        ∧ fs (os w') = <[path := File (Body resp)]> (fs (os w))
        ∧ ∀ sum, convertETagToChecksum (ETag cachingInfoOut) = Some sum →
                 sum = MD5.Sum (Body resp).
Proof.
  intros Hdl.
  destruct (Download_delivered _ _ _ _ _ _ _ Hdl eq_refl)
    as (k & resp & Hk & Hn & Hreq & Hdo & Hd).
  exists k, resp. split; [exact Hk|]. split; [exact Hn|]. split; [exact Hreq|].
  split; [exact Hdo|].
  unfold delivered in Hd. cbn [fetchedPath fetchedInfo fst snd] in Hd.
  by destruct (String.eqb path "").
Qed.

End Delivery.

Lemma requestedTimes_shift n url info w :
  requestedTimes n url info (requested url info w) = requestedTimes (S n) url info w.
Proof. induction n as [|n IH]; [done|]. cbn [requestedTimes] in *. by rewrite IH. Qed.

Lemma downloadLoop_status env url mk info (code : nat → Z) left start last w :
  (∀ k, (start ≤ k < start + left)%nat →
        at_NewRequest (env_attempt env k) = None
        ∧ ∃ resp, at_Do (env_attempt env k) (requestFor url info) = Ok resp
                ∧ StatusCode resp = code k) →
  (∀ k, (start ≤ k < start + left)%nat → code k ≠ 200 ∧ code k ≠ 304) →
  downloadLoop left start env url mk info last w
  = (match left with
     | O => last
     | S n => failed (StatusCodeError (code (start + n)%nat))
     end, requestedTimes left url info w).
Proof.
  revert start last w. induction left as [|left IH]; intros start last w Hresp Hcode; [done|].
  cbn [downloadLoop].
  destruct (Hresp start ltac:(lia)) as (Hreq & resp & Hdo & Hstatus).
  destruct (Hcode start ltac:(lia)) as [H200 H304].
  rewrite (fetchToFile_other_status (env_attempt env start) url mk info w resp Hreq Hdo)
    by (unfold StatusNotModified, StatusOK; congruence).
  cbn [fetchedErr failed snd isDownloadCancelled].
  rewrite IH.
  - f_equal.
    + destruct left as [|n]; [by rewrite Nat.add_0_r, Hstatus|].
      f_equal. f_equal. f_equal. lia.
    + apply requestedTimes_shift.
  - intros k Hk. apply Hresp. lia.
  - intros k Hk. apply Hcode. lia.
Qed.

(** X11: when the origin answers every attempt with a status other than 200
    and 304, a [Download] that is past the barrier sends exactly three
    requests, all the same, and
    returns the [StatusCodeError] of the third answer with the empty path and
    the zero validator; no destination is ever created, so the operating
    system is untouched. *)
Theorem Download_retries_status_errors downloader env url mk info (code : nat → Z) w :
  env_barrierCancelled env = false →
  hasRoom downloader = true →
  (∀ k, (k < 3)%nat →
        at_NewRequest (env_attempt env k) = None
        ∧ ∃ resp, at_Do (env_attempt env k) (requestFor url info) = Ok resp
                ∧ StatusCode resp = code k) →
  (∀ k, (k < 3)%nat → code k ≠ 200 ∧ code k ≠ 304) →
  ∃ w', Download downloader env url mk info w
        = Some (("", noCachingInfo, Some (StatusCodeError (code 2%nat))), w')
      ∧ sent w' = (sent w ++ replicate 3 (requestFor url info))%list
      ∧ attempts w' = (attempts w + 3)%nat
      ∧ os w' = os w.
Proof.
  intros Hbarrier Hroom Hresp Hcode. unfold Download. rewrite Hbarrier, Hroom. cbn [negb].
  rewrite (downloadLoop_status env url mk info code MAX_DOWNLOAD_ATTEMPTS 0);
    [|intros k Hk; apply Hresp; unfold MAX_DOWNLOAD_ATTEMPTS in Hk; lia
     |intros k Hk; apply Hcode; unfold MAX_DOWNLOAD_ATTEMPTS in Hk; lia].
  cbn [MAX_DOWNLOAD_ATTEMPTS fetchedErr failed snd fst requestedTimes Nat.add].
  eexists. split; [reflexivity|].
  unfold requested.
  repeat first [rewrite sent_record_get | rewrite sent_record_attempt
               | rewrite attempts_record_get | rewrite attempts_record_attempt].
  split; [by rewrite <- !app_assoc|]. split; [lia|done].
Qed.

(** X17: a cancellation during the first attempt ends a [Download] that is
    past the barrier at once, without retry.  When the request fails and the cancel channel has fired,
    the error is a [DownloadCancelledError] of the source fetch-request with
    -1 bytes; when the copy of the body fails and the channel has fired, it
    is one of the source copy-body with the number of bytes copied so far,
    and the destination is removed.  One attempt was made, one request sent. *)
Theorem cancellation_ends_Download downloader env url mk info w :
  env_barrierCancelled env = false →
  hasRoom downloader = true →
  at_NewRequest (env_attempt env 0) = None →
  at_cancelled (env_attempt env 0) = true →
  (∀ e, at_Do (env_attempt env 0) (requestFor url info) = Err e →
        Download downloader env url mk info w
        = Some (("", noCachingInfo,
                 Some (DownloadCancelledError "fetch-request"
                         (at_elapsed (env_attempt env 0)) (-1))),
                requested url info w))
  ∧ (∀ resp name o e,
       at_Do (env_attempt env 0) (requestFor url info) = Ok resp →
       StatusCode resp = 200 →
       mk (os (requested url info w)) = (Ok name, o) →
       at_Seek (env_attempt env 0) = None → at_Truncate (env_attempt env 0) = None →
       BodyErr resp = Some e →
       Download downloader env url mk info w
       = Some (("", noCachingInfo,
                Some (DownloadCancelledError "copy-body" (at_elapsed (env_attempt env 0))
                        (Z.of_nat (length (Body resp))))),
               removeDestination name (stored url info w resp name o)))
  ∧ sent (requested url info w) = (sent w ++ [requestFor url info])%list
  ∧ attempts (requested url info w) = S (attempts w).
Proof.
  intros Hbarrier Hroom Hreq Hcancelled. split; [|split; [|split]].
  - intros e Hdo. unfold Download. rewrite Hbarrier, Hroom.
    cbn [negb MAX_DOWNLOAD_ATTEMPTS downloadLoop]. unfold fetchToFile.
    rewrite Hreq. fold (requestFor url info). rewrite Hdo, Hcancelled. done.
  - intros resp name o e Hdo Hcode Hmk Hseek Htrunc Hbody. unfold Download.
    rewrite Hbarrier, Hroom.
    cbn [negb MAX_DOWNLOAD_ATTEMPTS downloadLoop]. unfold fetchToFile.
    rewrite Hreq. fold (requestFor url info). rewrite Hdo, Hcode. simpl.
    unfold inOS, requestFor. fold (requested url info w).
    rewrite Hmk, Hseek, Htrunc, Hbody, Hcancelled. done.
  - unfold requested. by rewrite sent_record_get, sent_record_attempt.
  - unfold requested. by rewrite attempts_record_get, attempts_record_attempt.
Qed.

Section PopulateExtras.
Context {C : Type} {FC : FileCache C}.

(** X12: when the transformer fails, [populateCache] returns its error with
    the zero download, and removes nothing: the downloaded file and the empty
    file made for the transformed copy both stay in the uncached directory
    (unless the transformer itself removed them). *)
Theorem populateCache_transformer_error_leaves_files env url name info tr
    (c : cachedDownloader C) w filename cachingInfoOut w1 cachedFile o2 cachedSize err o3 :
  Download (downloader c) env url (TempFile (uncachedPath c) (name +:+ "-")) info w
    = Some ((filename, cachingInfoOut, None), w1) →
  filename ≠ "" →
  TempFile (uncachedPath c) "transformed" (os w1) = (Ok cachedFile, o2) →
  env_closeErr env = None →
  tr filename cachedFile o2 = ((cachedSize, Some err), o3) →
  populateCache env url name info tr c w
  = Some ((noDownload, false, 0, Some err), setOS o3 w1)
  ∧ fs (os w) !! filename = None ∧ fs (os w) !! cachedFile = None
  ∧ isFile filename (fs o2) = true ∧ isFile cachedFile (fs o2) = true
  ∧ filename ≠ cachedFile.
Proof.
  intros Hdl Hname Htmp Hclose Htr.
  destruct (Download_delivered _ (TempFile_fresh (uncachedPath c) (name +:+ "-"))
              (TempFile_names (uncachedPath c) (name +:+ "-")) _ _ _ _ _ _ _ Hdl eq_refl)
    as (k & resp & _ & _ & _ & _ & Hd).
  unfold delivered in Hd. cbn [fetchedPath fetchedInfo fst snd] in Hd.
  apply String.eqb_neq in Hname. rewrite Hname in Hd.
  destruct Hd as (_ & _ & _ & Hfresh & Hfs & _).
  pose proof (TempFile_fresh (uncachedPath c) "transformed" (os w1)) as Hmk.
  rewrite Htmp in Hmk. destruct Hmk as [Hfresh2 [bs Hfs2]].
  assert (filename ≠ cachedFile) as Hne.
  { intros <-. rewrite Hfs, lookup_insert_eq in Hfresh2. done. }
  split.
  - unfold populateCache. rewrite Hdl, Hname.
    unfold StatSize. rewrite Hfs, lookup_insert_eq.
    unfold inOS at 1. rewrite Htmp, Hclose.
    unfold inOS. cbn [os setOS]. by rewrite Htr.
  - split; [done|]. split.
    { rewrite Hfs in Hfresh2. by rewrite lookup_insert_ne in Hfresh2. }
    unfold isFile. rewrite Hfs2, Hfs.
    rewrite lookup_insert_ne, !lookup_insert_eq by done. done.
Qed.

(** X13: when the download of a [Fetch] with a cache key fails, the call
    returns that very error, cancellation included, with no stream and the
    size 0; the handle of the entry the probe had opened is closed, the
    limiter is released, and with it the failed download left no file behind:
    the files are as the probe left them when the close runs. *)
Theorem Fetch_returns_download_error env url cacheKey (c : cachedDownloader C) w
    currentReader currentCachingInfo getErr cache1 o1 path cachingInfoOut err w2 cache2 o2 :
  cacheKey ≠ "" →
  inProgress c !! fingerprint cacheKey = None →
  cache_Get (fingerprint cacheKey) (cache c) (os w)
    = ((currentReader, currentCachingInfo, getErr), cache1, o1) →
  Download (downloader c) env url (TempFile (uncachedPath c) (fingerprint cacheKey +:+ "-"))
    currentCachingInfo (setOS o1 w) = Some ((path, cachingInfoOut, Some err), w2) →
  closeIfOpen currentReader cache1 (os w2) = (cache2, o2) →
  Fetch env url cacheKey c w = Some ((None, 0, Some err), afterCall c cache2, setOS o2 w2)
  ∧ fs (os w2) = fs o1.
Proof.
  intros Hkey Hfree Hget Hdl Hclose. split.
  - unfold Fetch. apply String.eqb_neq in Hkey. rewrite Hkey.
    unfold fetchCachedFile, acquireLimiter. rewrite Hfree. cbn [cache].
    rewrite Hget. unfold populateCache. cbn [uncachedPath downloader withCache].
    rewrite Hdl. unfold onCache. cbn [cache withCache]. rewrite Hclose.
    f_equal. f_equal. f_equal.
    unfold releaseLimiter, withCache, afterCall; simpl.
    by rewrite (delete_insert_id _ _ _ Hfree).
  - pose proof (downloadLoop_failure _ (TempFile_fresh (uncachedPath c)
                  (fingerprint cacheKey +:+ "-")) env url currentCachingInfo
                  MAX_DOWNLOAD_ATTEMPTS 0 ("", noCachingInfo, None) (setOS o1 w)
                  (λ _, conj eq_refl eq_refl)) as Hloop.
    unfold Download in Hdl. destruct (env_barrierCancelled env).
    { by injection Hdl as _ _ _ <-. }
    destruct (negb (hasRoom (downloader c))); [done|].
    destruct (downloadLoop _ _ _ _ _ _ _ _) as [r w'].
    destruct (fetchedErr r) as [e|] eqn:Herr.
    + injection Hdl as _ _ _ <-. by destruct (Hloop ltac:(done)) as (_ & _ & ->).
    + destruct r as [[p i] e]. simpl in Herr. subst e. done.
Qed.

End PopulateExtras.

Lemma Download_delivers_witness :
  fs (os exampleWorld) !! "/uncached/d-0" = None
  ∧ ∃ k resp w',
      Download exampleDownloader (calmEnv (origin (quoted md5_777) "777")) exampleURL
        (TempFile "/uncached" "d-") noCachingInfo exampleWorld
      = Some (("/uncached/d-0", {| ETag := quoted md5_777; LastModified := "" |}, None), w')
      ∧ (k < 3)%nat
      ∧ origin (quoted md5_777) "777"
          {| req_url := exampleURL; req_header := conditionalHeaders noCachingInfo |} = Ok resp
      ∧ StatusCode resp = 200
      ∧ Body resp = list_byte_of_string "777"
      ∧ fs (os w') = <["/uncached/d-0" := File (Body resp)]> (fs (os exampleWorld))
      ∧ ∀ sum, convertETagToChecksum (quoted md5_777) = Some sum → sum = MD5.Sum (Body resp).
Proof.
  pose (env := calmEnv (origin (quoted md5_777) "777")).
  pose (dl := default (("", noCachingInfo, None), exampleWorld)
                (Download exampleDownloader env exampleURL (TempFile "/uncached" "d-")
                   noCachingInfo exampleWorld)).
  destruct (Download_delivers (TempFile "/uncached" "d-") (TempFile_fresh "/uncached" "d-")
              (TempFile_names "/uncached" "d-") exampleDownloader env
              exampleURL noCachingInfo exampleWorld "/uncached/d-0"
              {| ETag := quoted md5_777; LastModified := "" |} dl.2
              ltac:(vm_compute; reflexivity))
    as (k & resp & Hk & _ & _ & Hdo & Hcode & _ & _ & Hfresh & Hfs & Hsum).
  split; [exact Hfresh|]. exists k, resp, dl.2.
  split; [vm_compute; reflexivity|]. split; [exact Hk|]. split; [exact Hdo|].
  split; [exact Hcode|].
  split; [injection Hdo as <-; vm_compute; reflexivity|].
  split; [exact Hfs|exact Hsum].
Defined.

Lemma Download_retries_status_errors_witness :
  ∃ w', Download exampleDownloader (statusEnv (λ k, 500 + Z.of_nat k)) exampleURL
          (TempFile "/uncached" "d-") noCachingInfo exampleWorld
        = Some (("", noCachingInfo, Some (StatusCodeError 502)), w')
      ∧ attempts w' = 3%nat.
Proof.
  destruct (Download_retries_status_errors exampleDownloader
              (statusEnv (λ k, 500 + Z.of_nat k)) exampleURL
              (TempFile "/uncached" "d-") noCachingInfo (λ k, 500 + Z.of_nat k)
              exampleWorld eq_refl eq_refl) as (w' & Hdl & _ & Hattempts & _).
  - intros k Hk. split; [reflexivity|]. eexists. split; reflexivity.
  - intros k Hk. lia.
  - exists w'. split; [exact Hdl|exact Hattempts].
Defined.

Lemma populateCache_transformer_error_leaves_files_witness :
  ∃ w', populateCache (calmEnv (origin "v1" "777")) exampleURL "k" noCachingInfo
          brokenTransform (exampleCoordinator 1024) exampleStart
        = Some ((noDownload, false, 0, Some (OtherError "transform failed")), w')
      ∧ isFile "/uncached/k-0" (fs (os w')) = true
      ∧ isFile "/uncached/transformed1" (fs (os w')) = true.
Proof.
  pose (env := calmEnv (origin "v1" "777")). pose (c := exampleCoordinator 1024).
  pose (dl := default (("", noCachingInfo, None), exampleStart)
                (Download (downloader c) env exampleURL
                   (TempFile (uncachedPath c) ("k" +:+ "-")) noCachingInfo exampleStart)).
  pose (tf := TempFile (uncachedPath c) "transformed" (os dl.2)).
  destruct (populateCache_transformer_error_leaves_files env exampleURL "k" noCachingInfo
              brokenTransform c exampleStart "/uncached/k-0"
              {| ETag := "v1"; LastModified := "" |} dl.2 "/uncached/transformed1" tf.2
              0 (OtherError "transform failed") tf.2
              ltac:(vm_compute; reflexivity) ltac:(discriminate)
              ltac:(vm_compute; reflexivity) ltac:(reflexivity) ltac:(reflexivity))
    as (Hpop & _ & _ & Hfile & Htransformed & _).
  exists (setOS tf.2 dl.2). split; [exact Hpop|]. split; [exact Hfile|exact Htransformed].
Defined.

Lemma Fetch_returns_download_error_witness :
  returned (Fetch (calmEnv (failing 500)) exampleURL "k" warmCoordinator warmWorld)
  = Some (None, 0, Some (StatusCodeError 500)).
Proof.
  pose (env := calmEnv (failing 500)).
  pose (probe := cache_Get (fingerprint "k") (cache warmCoordinator) (os warmWorld)).
  pose (dl := default (("", noCachingInfo, None), warmWorld)
                (Download (downloader warmCoordinator) env exampleURL
                   (TempFile (uncachedPath warmCoordinator) (fingerprint "k" +:+ "-"))
                   probe.1.1.1.2 (setOS probe.2 warmWorld))).
  pose (cl := closeIfOpen probe.1.1.1.1 probe.1.2 (os dl.2)).
  destruct (Fetch_returns_download_error env exampleURL "k" warmCoordinator warmWorld
              probe.1.1.1.1 probe.1.1.1.2 probe.1.1.2 probe.1.2 probe.2
              "" noCachingInfo (StatusCodeError 500) dl.2 cl.1 cl.2
              ltac:(discriminate) ltac:(vm_compute; reflexivity)
              ltac:(vm_compute; reflexivity) ltac:(vm_compute; reflexivity)
              ltac:(vm_compute; reflexivity))
    as [Hfetch _].
  fold env. rewrite Hfetch. reflexivity.
Defined.

Lemma cancellation_ends_Download_witness :
  Download exampleDownloader (cancelledEnv 5 tornDown) exampleURL (TempFile "/uncached" "d-")
    noCachingInfo exampleWorld
  = Some (("", noCachingInfo, Some (DownloadCancelledError "fetch-request" 5 (-1))),
          requested exampleURL noCachingInfo exampleWorld)
  ∧ Download exampleDownloader (cancelledEnv 5 (breaksOff "77")) exampleURL
      (TempFile "/uncached" "d-") noCachingInfo exampleWorld
    = Some (("", noCachingInfo, Some (DownloadCancelledError "copy-body" 5 2)),
            requested exampleURL noCachingInfo {| os := {| fs := fs exampleOS; tmp := 1 |};
                                                  history := [] |}).
Proof.
  split.
  - rewrite (proj1 (cancellation_ends_Download exampleDownloader (cancelledEnv 5 tornDown)
                      exampleURL (TempFile "/uncached" "d-") noCachingInfo exampleWorld
                      eq_refl eq_refl eq_refl eq_refl)
               (OtherError "net/http: request canceled") eq_refl).
    reflexivity.
  - pose (mk := TempFile "/uncached" "d-" (os (requested exampleURL noCachingInfo exampleWorld))).
    rewrite (proj1 (proj2 (cancellation_ends_Download exampleDownloader
                             (cancelledEnv 5 (breaksOff "77"))
                             exampleURL (TempFile "/uncached" "d-") noCachingInfo exampleWorld
                             eq_refl eq_refl eq_refl eq_refl))
               {| StatusCode := 200; Header := []; Body := list_byte_of_string "77";
                  BodyErr := Some (OtherError "unexpected EOF") |}
               "/uncached/d-0" mk.2 (OtherError "unexpected EOF")
               eq_refl eq_refl ltac:(vm_compute; reflexivity) eq_refl eq_refl eq_refl).
    vm_compute; reflexivity.
Defined.
(** ** Ownership in the limiter *)

Section GateExtras.
Import Gate.

Lemma move_here i k p s kq :
  threads s !! i = Some kq → move i k p s !! i = Some (k, p).
Proof.
  intros Hi. unfold move. apply list_lookup_insert_eq. by eapply lookup_lt_Some.
Qed.

Lemma move_other i k p s j : j ≠ i → move i k p s !! j = threads s !! j.
Proof. intros Hne. unfold move. by apply list_lookup_insert_ne. Qed.

Lemma initial_Owned keys : Owned (initial keys).
Proof.
  split; simpl; try done.
  - intros ch Hch. lia.
  - intros i k p ch Hi. apply list_lookup_fmap_Some in Hi as (? & ? & ?). by simplify_eq/=.
Qed.

Lemma holds_limiterOf p ch : holds p = Some ch → limiterOf p = Some ch.
Proof. by destruct p. Qed.

Lemma step_own_lock s s' :
  Inv s → Owned s → step s s' →
  ∀ j, lock s' = Some j → ∃ k p, threads s' !! j = Some (k, p) ∧ locked p = true.
Proof.
  intros [HL HH HI HU] [OL OK OC OB] Hstep j Hj.
  inversion Hstep; subst; simpl in *;
    match goal with
    | Hi : threads s !! ?i = Some (?k, ?p) |- _ =>
        first
          [ discriminate Hj
          | assert (j = i) as ->
              by (first [congruence|pose proof (HL _ _ _ Hi eq_refl); congruence]);
            eexists _, _; split; [by eapply move_here|reflexivity]
          | destruct (OL j Hj) as (kj & pj & Hkj & Hpj);
            assert (j ≠ i) by (intros ->; rewrite Hi in Hkj; by simplify_eq/=);
            exists kj, pj; split; [by rewrite move_other|done] ]
    end.
Qed.

Lemma step_own_bound s s' :
  Inv s → Owned s → step s s' →
  ∀ j k p ch, threads s' !! j = Some (k, p) → limiterOf p = Some ch → (ch < chans s')%nat.
Proof.
  intros [HL HH HI HU] [OL OK OC OB] Hstep j kj pj c Hj Hlim.
  inversion Hstep; subst; simpl in *;
    (apply move_lookup in Hj as [[-> Hj]|[Hne Hj]];
     [ injection Hj as -> ->; simpl in Hlim; try discriminate Hlim; injection Hlim as <-
     | pose proof (OB _ _ _ _ Hj Hlim); lia ]);
    match goal with
    | Hi : threads s !! _ = Some (_, _) |- _ =>
        first
          [ lia
          | by eapply (OB _ _ _ _ Hi)
          | idtac ]
    end.
  match goal with
  | Hsome : inProgress s !! _ = Some _ |- _ =>
      destruct (OK _ _ Hsome) as (h & ph & Hh & Hph)
  end.
  eapply (OB _ _ _ _ Hh). by apply holds_limiterOf.
Qed.

Lemma step_own_key s s' :
  Inv s → Owned s → step s s' →
  ∀ k ch, inProgress s' !! k = Some ch →
          ∃ i p, threads s' !! i = Some (k, p) ∧ holds p = Some ch.
Proof.
  intros [HL HH HI HU] [OL OK OC OB] Hstep kj c Hkj.
  inversion Hstep as [i k s0 Hi Hlock|i k s0 Hi Hnone|i k ch s0 Hi Hsome|i k s0 Hi
                     |i k ch s0 Hi|i k ch s0 Hi|i k ch s0 Hi Hcl|i k ch s0 Hi
                     |i k ch s0 Hi|i k ch s0 Hi|i k ch s0 Hi|i k ch s0 Hi Hlock
                     |i k ch s0 Hi|i k ch s0 Hi|i k s0 Hi]; subst; simpl in *.
  4: { destruct (decide (kj = k)) as [->|Hk].
       - rewrite lookup_insert_eq in Hkj. injection Hkj as <-.
         eexists i, _. split; [by eapply move_here|done].
       - rewrite lookup_insert_ne in Hkj by done.
         destruct (OK _ _ Hkj) as (h & ph & Hh & Hph).
         destruct (decide (h = i)) as [->|Hne].
         + rewrite Hi in Hh. by simplify_eq/=.
         + exists h, ph. split; [by rewrite move_other|done]. }
  12: { destruct (decide (kj = k)) as [->|Hk]; [by rewrite lookup_delete_eq in Hkj|].
        rewrite lookup_delete_ne in Hkj by done.
        destruct (OK _ _ Hkj) as (h & ph & Hh & Hph).
        destruct (decide (h = i)) as [->|Hne].
        - rewrite Hi in Hh. by simplify_eq/=.
        - exists h, ph. split; [by rewrite move_other|done]. }
  all: destruct (OK _ _ Hkj) as (h & ph & Hh & Hph);
    (destruct (decide (h = i)) as [->|Hne];
     [ rewrite Hi in Hh; simplify_eq/=;
       try (eexists i, _; split; [by eapply move_here|done])
     | exists h, ph; split; [by rewrite move_other|done] ]).
Qed.

Lemma step_own_chan s s' :
  Inv s → Owned s → step s s' →
  ∀ ch, (ch < chans s')%nat →
        ch ∈ closed s' ∨ ∃ i k p, threads s' !! i = Some (k, p) ∧ owns p ch.
Proof.
  intros [HL HH HI HU] [OL OK OC OB] Hstep c Hc.
  inversion Hstep as [i k s0 Hi Hlock|i k s0 Hi Hnone|i k ch s0 Hi Hsome|i k s0 Hi
                     |i k ch s0 Hi|i k ch s0 Hi|i k ch s0 Hi Hcl|i k ch s0 Hi
                     |i k ch s0 Hi|i k ch s0 Hi|i k ch s0 Hi|i k ch s0 Hi Hlock
                     |i k ch s0 Hi|i k ch s0 Hi|i k s0 Hi]; subst; simpl in *.
  4: { destruct (decide (c = chans s)) as [->|Hold].
       - right. eexists i, _, _. split; [by eapply move_here|by left].
       - destruct (OC c ltac:(lia)) as [Hclosed|(h & kh & ph & Hh & Hph)]; [by left|].
         right. destruct (decide (h = i)) as [->|Hne].
         + rewrite Hi in Hh. simplify_eq/=. by destruct Hph.
         + exists h, kh, ph. split; [by rewrite move_other|done]. }
  13: { destruct (OC c Hc) as [Hclosed|(h & kh & ph & Hh & Hph)]; [left; set_solver|].
        destruct (decide (h = i)) as [->|Hne].
        - rewrite Hi in Hh. simplify_eq/=.
          destruct Hph as [Hph|Hph]; [done|]. simplify_eq/=. left. set_solver.
        - right. exists h, kh, ph. split; [by rewrite move_other|done]. }
  all: destruct (OC c Hc) as [Hclosed|(h & kh & ph & Hh & Hph)]; [by left|];
    right;
    (destruct (decide (h = i)) as [->|Hne];
     [ rewrite Hi in Hh; simplify_eq/=;
       destruct Hph as [Hph|Hph]; simplify_eq/=;
       try (eexists i, _, _; split; [by eapply move_here|]; first [by left|by right])
     | exists h, kh, ph; split; [by rewrite move_other|done] ]).
Qed.

Lemma step_Owned s s' : Inv s → Owned s → step s s' → Owned s'.
Proof.
  intros HI HO Hstep. split.
  - by eapply step_own_lock.
  - by eapply step_own_key.
  - by eapply step_own_chan.
  - by eapply step_own_bound.
Qed.

Lemma reachable_Owned keys s : reachable keys s → Owned s.
Proof.
  induction 1 as [|s s' Hreach IH Hstep]; [apply initial_Owned|].
  eapply step_Owned; [by eapply reachable_Inv|done..].
Qed.

(** X14: the mutex of the coordinator is exclusive at every reachable state
    of the limiter: two goroutines are never both between a Lock and its
    Unlock; and the map of limiters, the set of closed channels and the
    channels made change only in a step of the goroutine that holds the
    mutex, which keeps it. *)
Theorem mutex_is_exclusive keys s :
  reachable keys s →
  (∀ i j k k' p q, threads s !! i = Some (k, p) → threads s !! j = Some (k', q) →
                   locked p = true → locked q = true → i = j)
  ∧ (∀ s', step s s' →
           inProgress s' ≠ inProgress s ∨ closed s' ≠ closed s ∨ chans s' ≠ chans s →
           ∃ i k p, lock s = Some i ∧ threads s !! i = Some (k, p) ∧ locked p = true
                  ∧ lock s' = Some i).
Proof.
  intros Hreach. apply reachable_Inv in Hreach as [HL HH HI HU]. split.
  - intros i j k k' p q Hi Hj Hp Hq.
    pose proof (HL _ _ _ Hi Hp) as Hli. pose proof (HL _ _ _ Hj Hq) as Hlj. congruence.
  - intros s' Hstep Hchanged.
    inversion Hstep; subst; simpl in *;
      try (by destruct Hchanged as [?|[?|?]]);
      match goal with
      | Hi : threads s !! ?i = Some (?k, ?p) |- _ =>
          exists i, k, p; pose proof (HL _ _ _ Hi eq_refl) as Hl; by rewrite Hl
      end.
Qed.

Lemma moved_not_cancelled i k p p' s s' :
  threads s !! i = Some (k, p) →
  threads s' = move i k p' s →
  (∀ ch, p ≠ AtSelect ch) ∨ p' ≠ Returned →
  ¬ cancels s s'.
Proof.
  intros Hi Hs' Hp (j & kj & ch & Hj & Hj'). rewrite Hs' in Hj'.
  apply move_lookup in Hj' as [[-> Hj']|[Hne Hj']].
  - rewrite Hi in Hj. simplify_eq/=. destruct Hp as [Hp|Hp]; [by eapply Hp|done].
  - rewrite Hj in Hj'. done.
Qed.

(** A goroutine that is neither waiting in the select, nor waiting for the
    mutex while it is held, nor done, has a step that is no cancellation. *)
Lemma runnable_steps s i k p :
  threads s !! i = Some (k, p) →
  (locked p = true ∨ lock s = None) →
  (∀ ch, p = AtSelect ch → ch ∈ closed s) →
  p ≠ Returned →
  ∃ s', step s s' ∧ ¬ cancels s s'.
Proof.
  intros Hi Hlock Hwoken Hp.
  destruct p; try done.
  - destruct Hlock as [?|Hfree]; [done|].
    eexists. split; [by eapply step_lock|]. eapply moved_not_cancelled; eauto.
  - destruct (inProgress s !! k) as [ch|] eqn:Hk.
    + eexists. split; [by eapply step_read_found|]. eapply moved_not_cancelled; eauto.
    + eexists. split; [by eapply step_read_nil|]. eapply moved_not_cancelled; eauto.
  - eexists. split; [by eapply step_install|]. eapply moved_not_cancelled; eauto.
  - eexists. split; [by eapply step_unlock_return|]. eapply moved_not_cancelled; eauto.
  - eexists. split; [by eapply step_unlock_wait|]. eapply moved_not_cancelled; eauto.
  - eexists. split; [eapply step_woken; [done|by apply Hwoken]|].
    eapply moved_not_cancelled; [done|done|]. by right.
  - eexists. split; [by eapply step_probe|]. eapply moved_not_cancelled; eauto.
  - eexists. split; [by eapply step_downloaded|]. eapply moved_not_cancelled; eauto.
  - destruct Hlock as [?|Hfree]; [done|].
    eexists. split; [by eapply step_release_lock|]. eapply moved_not_cancelled; eauto.
  - eexists. split; [by eapply step_delete|]. eapply moved_not_cancelled; eauto.
  - eexists. split; [by eapply step_close|]. eapply moved_not_cancelled; eauto.
  - eexists. split; [by eapply step_release_unlock|]. eapply moved_not_cancelled; eauto.
Qed.

(** X15: the limiter never deadlocks.  At every reachable state in which
    some call has not returned, a goroutine can take a step that is not a
    cancellation: whoever waits in the select waits for a channel whose
    owner can still run and will close it, and whoever waits for the mutex
    waits for a goroutine that can run. *)
Theorem limiter_never_deadlocks keys s i k p :
  reachable keys s →
  threads s !! i = Some (k, p) → p ≠ Returned →
  ∃ s', step s s' ∧ ¬ cancels s s'.
Proof.
  intros Hreach Hi Hp.
  pose proof (reachable_Inv _ _ Hreach) as [HL HH HI HU].
  pose proof (reachable_Owned _ _ Hreach) as [OL OK OC OB].
  destruct (lock s) as [h|] eqn:Hlock.
  - (* the goroutine in the critical section runs *)
    destruct (OL h eq_refl) as (kh & ph & Hh & Hph).
    eapply (runnable_steps s h kh ph); [done|by left| |by destruct ph].
    intros ch ->. done.
  - (* nobody is in the critical section *)
    assert (∀ j kj pj, threads s !! j = Some (kj, pj) → locked pj = false) as Hout.
    { intros j kj pj Hj. destruct (locked pj) eqn:Hpj; [|done].
      pose proof (HL _ _ _ Hj Hpj). congruence. }
    assert ((∃ ch, p = AtSelect ch ∧ ch ∉ closed s) ∨ (∀ ch, p = AtSelect ch → ch ∈ closed s))
      as [(ch & -> & Hopen)|Hrun].
    { destruct p as [| | | | |ch| | | | | | |]; try (right; intros ch' [=]; fail).
      destruct (decide (ch ∈ closed s)); [right; by intros ch' [= <-]|left; eauto]. }
    + (* the owner of the channel runs *)
      pose proof (OB _ _ _ ch Hi eq_refl) as Hbound.
      destruct (OC ch Hbound) as [?|(h & kh & ph & Hh & Hown)]; [done|].
      pose proof (Hout _ _ _ Hh) as Hph.
      eapply (runnable_steps s h kh ph); [done|by right| |].
      * intros ch' ->. by destruct Hown.
      * intros ->. by destruct Hown.
    + by eapply (runnable_steps s i k p); [done|right|done|done].
Qed.

(** X16: once every call has returned, no limiter is left in the map and
    the mutex is free: the coordinator is ready for the next call of any
    key. *)
Theorem all_returned_leaves_no_limiter keys s :
  reachable keys s →
  (∀ i k p, threads s !! i = Some (k, p) → p = Returned) →
  inProgress s = ∅ ∧ lock s = None.
Proof.
  intros Hreach Hdone.
  pose proof (reachable_Owned _ _ Hreach) as [OL OK OC OB]. split.
  - apply map_empty. intros k.
    destruct (inProgress s !! k) as [ch|] eqn:Hk; [|done].
    destruct (OK _ _ Hk) as (i & p & Hi & Hp). by rewrite (Hdone _ _ _ Hi) in Hp.
  - destruct (lock s) as [i|] eqn:Hlock; [|done].
    destruct (OL i eq_refl) as (k & p & Hi & Hp). by rewrite (Hdone _ _ _ Hi) in Hp.
Qed.

Lemma exampleDone_reachable : reachable ["k"] exampleDone.
Proof.
  pose (st := λ l m (cl : gset nat) n t,
          {| lock := l; inProgress := m; closed := cl; chans := n; threads := t |}).
  pose (held := <["k" := 0%nat]> (∅ : gmap string nat)).
  pose (s1 := st (Some 0%nat) ∅ ∅ 0%nat [("k", AtRead)]).
  pose (s2 := st (Some 0%nat) ∅ ∅ 0%nat [("k", AtInstall)]).
  pose (s3 := st (Some 0%nat) held ∅ 1%nat [("k", AtUnlockReturn 0)]).
  pose (s4 := st None held ∅ 1%nat [("k", AtGet 0)]).
  pose (s5 := st None held ∅ 1%nat [("k", AtDownload 0)]).
  pose (s6 := st None held ∅ 1%nat [("k", AtFinish 0)]).
  pose (s7 := st (Some 0%nat) held ∅ 1%nat [("k", AtDelete 0)]).
  pose (s8 := st (Some 0%nat) (delete "k" held) ∅ 1%nat [("k", AtClose 0)]).
  pose (s9 := st (Some 0%nat) (delete "k" held) ({[0%nat]} ∪ ∅) 1%nat [("k", AtRelUnlock)]).
  assert (reachable ["k"] s1) as H1.
  { apply (reachable_step _ (initial ["k"])); [apply reachable_initial|].
    exact (step_lock 0 "k" (initial ["k"]) eq_refl eq_refl). }
  assert (reachable ["k"] s2) as H2.
  { apply (reachable_step _ s1 _ H1). exact (step_read_nil 0 "k" s1 eq_refl eq_refl). }
  assert (reachable ["k"] s3) as H3.
  { apply (reachable_step _ s2 _ H2). exact (step_install 0 "k" s2 eq_refl). }
  assert (reachable ["k"] s4) as H4.
  { apply (reachable_step _ s3 _ H3). exact (step_unlock_return 0 "k" 0 s3 eq_refl). }
  assert (reachable ["k"] s5) as H5.
  { apply (reachable_step _ s4 _ H4). exact (step_probe 0 "k" 0 s4 eq_refl). }
  assert (reachable ["k"] s6) as H6.
  { apply (reachable_step _ s5 _ H5). exact (step_downloaded 0 "k" 0 s5 eq_refl). }
  assert (reachable ["k"] s7) as H7.
  { apply (reachable_step _ s6 _ H6). exact (step_release_lock 0 "k" 0 s6 eq_refl eq_refl). }
  assert (reachable ["k"] s8) as H8.
  { apply (reachable_step _ s7 _ H7). exact (step_delete 0 "k" 0 s7 eq_refl). }
  assert (reachable ["k"] s9) as H9.
  { apply (reachable_step _ s8 _ H8). exact (step_close 0 "k" 0 s8 eq_refl). }
  apply (reachable_step _ s9 _ H9). exact (step_release_unlock 0 "k" s9 eq_refl).
Qed.

Lemma mutex_is_exclusive_witness :
  reachable ["k"; "k"] exampleRace
  ∧ (∀ i j k k' p q, threads exampleRace !! i = Some (k, p) →
                     threads exampleRace !! j = Some (k', q) →
                     locked p = true → locked q = true → i = j).
Proof.
  split; [exact exampleRace_reachable|].
  exact (proj1 (mutex_is_exclusive ["k"; "k"] exampleRace exampleRace_reachable)).
Defined.

Lemma limiter_never_deadlocks_witness :
  ∃ s', step exampleRace s' ∧ ¬ cancels exampleRace s'.
Proof.
  exact (limiter_never_deadlocks ["k"; "k"] exampleRace 1 "k" (AtSelect 0)
           exampleRace_reachable eq_refl ltac:(discriminate)).
Defined.

Lemma all_returned_leaves_no_limiter_witness :
  inProgress exampleDone = ∅ ∧ lock exampleDone = None.
Proof.
  apply (all_returned_leaves_no_limiter ["k"] exampleDone exampleDone_reachable).
  intros [|[|i]] k p Hi; simpl in Hi; by simplify_eq.
Defined.

End GateExtras.
(** ** The download barrier *)

Section BarrierProofs.
Import Barrier.

Lemma count_insert (P : pc → bool) (l : list pc) i old new :
  l !! i = Some old →
  (length (filter (λ p, P p = true) (<[i := new]> l)) + (if P old then 1 else 0)
   = length (filter (λ p, P p = true) l) + (if P new then 1 else 0))%nat.
Proof.
  revert i. induction l as [|a l IH]; intros [|i] Hi; simpl in *; try done.
  - injection Hi as ->. rewrite !filter_cons.
    destruct (P old) eqn:Hold, (P new) eqn:Hnew; repeat case_decide; simpl; try lia;
      congruence.
  - specialize (IH i Hi). rewrite !filter_cons.
    destruct (decide (P a = true)); simpl; lia.
Qed.

Lemma inFlight_initial calls : inFlight (initial calls) = 0%nat.
Proof.
  unfold inFlight, initial; simpl. induction calls as [|n IH]; [done|].
  simpl. rewrite filter_cons. by case_decide.
Qed.

Lemma reachable_balance capacity calls s :
  reachable capacity calls s → inFlight s = slots s ∧ (slots s ≤ capacity)%nat.
Proof.
  induction 1 as [|s s' _ [IH Hle] Hstep].
  - rewrite inFlight_initial. simpl. split; [done|lia].
  - inversion Hstep as [i s0 Hi Hfree|i s0 Hi|i s0 Hi|i n s0 Hi Hslots]; subst;
      unfold inFlight in *; simpl.
    + pose proof (count_insert inside (threads s) i _ InLoop Hi). simpl in *. lia.
    + pose proof (count_insert inside (threads s) i _ Done Hi). simpl in *. lia.
    + pose proof (count_insert inside (threads s) i _ AtDeferred Hi). simpl in *. lia.
    + pose proof (count_insert inside (threads s) i _ Done Hi). simpl in *. lia.
Qed.

Lemma inside_counted (l : list pc) i p :
  l !! i = Some p → inside p = true → (0 < length (filter (λ p, inside p = true) l))%nat.
Proof.
  intros Hi Hp.
  assert (p ∈ filter (λ p, inside p = true) l) as Hin.
  { apply list_elem_of_filter. split; [done|]. by eapply list_elem_of_lookup_2. }
  destruct (filter _ l); [by apply elem_of_nil in Hin|simpl; lia].
Qed.

Lemma nobody_inside (l : list pc) i p :
  length (filter (λ p, inside p = true) l) = 0%nat → l !! i = Some p → inside p = false.
Proof.
  intros Hnone Hi. destruct (inside p) eqn:Hp; [|done].
  pose proof (inside_counted l i p Hi Hp). lia.
Qed.

(** X18: at every reachable state of the barrier, the calls of [Download]
    that are past the barrier and have not released it are as many as the
    elements in the channel, and never more than [maxConcurrentDownloads];
    with the capacity 0 no call ever gets past the barrier. *)
Theorem barrier_bounds_downloads capacity calls s :
  reachable capacity calls s →
  inFlight s = slots s
  ∧ (inFlight s ≤ capacity)%nat
  ∧ (capacity = 0%nat → ∀ i p, threads s !! i = Some p → p = AtBarrier ∨ p = Done).
Proof.
  intros Hreach. destruct (reachable_balance _ _ _ Hreach) as [Hbal Hle].
  split; [done|]. split; [lia|].
  intros -> i p Hi.
  assert (inside p = false) as Hout
    by (apply (nobody_inside (threads s) i p); [unfold inFlight in Hbal; lia|done]).
  destruct p; auto; done.
Qed.

(** X19: the barrier does not deadlock when its capacity is positive: at
    every reachable state in which a call has not returned, some call can
    take a step that is not a cancellation; in particular the deferred
    receive never blocks, since the call that runs it has its element in the
    channel. *)
Theorem barrier_never_deadlocks capacity calls s i p :
  reachable capacity calls s →
  (0 < capacity)%nat →
  threads s !! i = Some p → p ≠ Done →
  (∃ s', step capacity s s' ∧ ¬ givesUp s s')
  ∧ (p = AtDeferred → ∃ n, slots s = S n).
Proof.
  intros Hreach Hcap Hi Hp.
  destruct (reachable_balance _ _ _ Hreach) as [Hbal Hle].
  assert (∀ j q q', threads s !! j = Some q → q ≠ AtBarrier →
                    ¬ givesUp s {| slots := slots s; threads := <[j := q']> (threads s) |}
                    ∧ ∀ n, ¬ givesUp s {| slots := n; threads := <[j := q']> (threads s) |})
    as Hmoved.
  { intros j q q' Hj Hq. split; [|intros n]; intros (h & Hh & Hh'); simpl in Hh';
      (destruct (decide (h = j)) as [->|Hne];
       [congruence|rewrite list_lookup_insert_ne in Hh' by done; congruence]). }
  assert (∀ j q, threads s !! j = Some q → inside q = true → ∃ n, slots s = S n) as Hfull.
  { intros j q Hj Hq. pose proof (inside_counted _ _ _ Hj Hq) as Hpos.
    unfold inFlight in Hbal. destruct (slots s) as [|n]; [lia|by exists n]. }
  split; [|intros ->; by eapply Hfull].
  destruct (filter (λ p, inside p = true) (threads s)) as [|q l] eqn:Hf.
  - (* nobody is past the barrier: the channel is empty *)
    assert (inside p = false) as Hout
      by (apply (nobody_inside (threads s) i p); [by rewrite Hf|done]).
    assert (p = AtBarrier) as -> by (by destruct p).
    assert (slots s = 0%nat) as Hzero by (unfold inFlight in Hbal; by rewrite Hf in Hbal).
    eexists. split; [eapply step_send; [done|lia]|].
    intros (h & Hh & Hh'). simpl in Hh'.
    destruct (decide (h = i)) as [->|Hne].
    + rewrite list_lookup_insert_eq in Hh' by (by eapply lookup_lt_Some). done.
    + rewrite list_lookup_insert_ne in Hh' by done. congruence.
  - (* a call past the barrier runs *)
    assert (q ∈ filter (λ p, inside p = true) (threads s)) as Hin by (rewrite Hf; left).
    apply list_elem_of_filter in Hin as [Hq Hin].
    apply list_elem_of_lookup_1 in Hin as [j Hj].
    destruct q; try done.
    + eexists. split; [by eapply step_loop|]. by eapply Hmoved.
    + destruct (Hfull _ _ Hj eq_refl) as [n Hn].
      eexists. split; [by eapply step_receive|]. by eapply Hmoved.
Qed.

Lemma exampleQueue_reachable : reachable 1 3 exampleQueue.
Proof.
  pose (s1 := {| slots := 1; threads := [InLoop; AtBarrier; AtBarrier] |}).
  assert (reachable 1 3 s1) as H1.
  { apply (reach_step _ _ (initial 3)); [apply reach_initial|].
    exact (step_send 1 0 (initial 3) eq_refl (le_n 1)). }
  apply (reach_step _ _ s1 _ H1). exact (step_cancel 1 2 s1 eq_refl).
Qed.

Lemma barrier_bounds_downloads_witness :
  inFlight exampleQueue = 1%nat ∧ (inFlight exampleQueue ≤ 1)%nat.
Proof.
  destruct (barrier_bounds_downloads 1 3 exampleQueue exampleQueue_reachable)
    as (Hbal & Hle & _).
  split; [exact Hbal|exact Hle].
Defined.

Lemma barrier_never_deadlocks_witness :
  ∃ s', step 1 exampleQueue s' ∧ ¬ givesUp exampleQueue s'.
Proof.
  exact (proj1 (barrier_never_deadlocks 1 3 exampleQueue 1 AtBarrier exampleQueue_reachable
                  (le_n 1) eq_refl ltac:(discriminate))).
Defined.

End BarrierProofs.
